(** * voltctl log-level configuration over the VOLTHA config store

    A shallow embedding of [voltctl/internal/pkg/commands/kvstore.go]:
    package [config] (ConfigManager, ComponentConfig and the watch
    translation task) and package [commands] (the [loglevel] sub-commands),
    together with the properties of the key layout, of listing and of the
    watch pipeline. *)

From Stdlib Require Import Ascii String ZArith DecimalString Lia.
From stdpp Require Import gmap strings list fin_maps.

Local Open Scope string_scope.
Local Open Scope Z_scope.

#[local] Arguments String.append !_ _ / : simpl nomatch.

(** ** Results of Go calls

    A Go call either returns, returns a non-nil [error], or panics. *)

Inductive panic : Type :=
  | IndexOutOfRange (index : Z) (len : nat)
  | SendOnClosedChannel
  | NilPointerDereference.

Inductive error : Type :=
  | BackendError (msg : string)
  | CommandError (msg : string).

Definition error_Error (e : error) : string :=
  match e with
  | BackendError msg => msg
  | CommandError msg => msg
  end.

Inductive result (A : Type) : Type :=
  | Ok (a : A)
  | Err (e : error)
  | Panic (p : panic).

Arguments Ok {A} a.
Arguments Err {A} e.
Arguments Panic {A} p.

Definition rbind {A B : Type} (r : result A) (k : A -> result B) : result B :=
  match r with
  | Ok a => k a
  | Err e => Err e
  | Panic p => Panic p
  end.

(** [l[i]] on a Go slice or array: a run-time panic outside [0, len). *)
Definition index {A : Type} (l : list A) (i : Z) : result A :=
  if (0 <=? i) && (i <? Z.of_nat (length l)) then
    match l !! Z.to_nat i with
    | Some x => Ok x
    | None => Panic (IndexOutOfRange i (length l))
    end
  else Panic (IndexOutOfRange i (length l)).

(** ** Package [strings] of the Go library, the functions the source calls.
    Go strings are byte sequences; a byte is an [ascii]. *)

Module strings.

(** [stripPrefix s prefix] is [Some rest] exactly when
    [s = prefix ++ rest]. *)
Fixpoint stripPrefix (s prefix : string) {struct prefix} : option string :=
  match prefix with
  | EmptyString => Some s
  | String p prefix' =>
      match s with
      | EmptyString => None
      | String c s' => if Ascii.eqb c p then stripPrefix s' prefix' else None
      end
  end.

Definition HasPrefix (s prefix : string) : bool :=
  match stripPrefix s prefix with Some _ => true | None => false end.

Definition TrimPrefix (s prefix : string) : string :=
  match stripPrefix s prefix with Some rest => rest | None => s end.

Fixpoint IndexByte (cutset : string) (c : ascii) : bool :=
  match cutset with
  | EmptyString => false
  | String d cutset' => if Ascii.eqb c d then true else IndexByte cutset' c
  end.

Fixpoint TrimLeft (s cutset : string) : string :=
  match s with
  | EmptyString => EmptyString
  | String c s' => if IndexByte cutset c then TrimLeft s' cutset else s
  end.

Fixpoint TrimRight (s cutset : string) : string :=
  match s with
  | EmptyString => EmptyString
  | String c s' =>
      match TrimRight s' cutset with
      | EmptyString => if IndexByte cutset c then EmptyString else String c EmptyString
      | r => String c r
      end
  end.

(** [Trim] removes every leading and every trailing byte that occurs in
    [cutset]. *)
Definition Trim (s cutset : string) : string :=
  TrimRight (TrimLeft s cutset) cutset.

(** [Cut s sep] splits [s] around the first occurrence of [sep]. *)
Fixpoint Cut (s sep : string) : option (string * string) :=
  match stripPrefix s sep with
  | Some after => Some (EmptyString, after)
  | None =>
      match s with
      | EmptyString => None
      | String c s' =>
          match Cut s' sep with
          | Some (before, after) => Some (String c before, after)
          | None => None
          end
      end
  end.

Definition Contains (s substr : string) : bool :=
  match Cut s substr with Some _ => true | None => false end.

(** [SplitN s sep n] for a non-empty [sep] and [n >= 0]: at most [n]
    pieces, the last one the unsplit remainder. *)
Fixpoint SplitN (s sep : string) (n : nat) : list string :=
  match n with
  | O => []
  | S O => [s]
  | S n' =>
      match Cut s sep with
      | Some (before, after) => before :: SplitN after sep n'
      | None => [s]
      end
  end.

(** [SplitAfterN]: as [SplitN], each piece keeps the separator that
    ended it. *)
Fixpoint SplitAfterN (s sep : string) (n : nat) : list string :=
  match n with
  | O => []
  | S O => [s]
  | S n' =>
      match Cut s sep with
      | Some (before, after) => (before +:+ sep) :: SplitAfterN after sep n'
      | None => [s]
      end
  end.

(** [Split s sep] is [SplitN s sep (-1)]: every occurrence splits; a
    string of [k] bytes has at most [k + 1] pieces. *)
Definition Split (s sep : string) : list string :=
  SplitN s sep (S (String.length s)).

(** [ReplaceAll s old new] for a non-empty [old]: non-overlapping
    occurrences are replaced from the left. [skip] counts the bytes of
    an occurrence already replaced. *)
Fixpoint replaceFrom (skip : nat) (s old new : string) : string :=
  match s with
  | EmptyString => EmptyString
  | String c s' =>
      match skip with
      | S k => replaceFrom k s' old new
      | O =>
          if HasPrefix s old
          then new +:+ replaceFrom (String.length old - 1) s' old new
          else String c (replaceFrom O s' old new)
      end
  end.

Definition ReplaceAll (s old new : string) : string := replaceFrom O s old new.

End strings.

(** ** Package [strconv] *)

Module strconv.

(** [Itoa]: the decimal text of an [int]. *)
Definition Itoa (i : Z) : string := NilZero.string_of_int (Z.to_int i).

End strconv.

(** ** The remote store and the effect of a call on it

    The key-value store lives outside the process. A call that reaches it
    is a function of its state: what it holds and whether it can be
    reached. *)

Record Store : Type := {
  contents : gmap string string;
  connected : bool;
}.

Definition M (A : Type) : Type := Store -> result A * Store.

Definition ret {A : Type} (a : A) : M A := fun st => (Ok a, st).

Definition lift {A : Type} (r : result A) : M A := fun st => (r, st).

Definition bind {A B : Type} (m : M A) (k : A -> M B) : M B :=
  fun st =>
    match m st with
    | (Ok a, st') => k a st'
    | (Err e, st') => (Err e, st')
    | (Panic p, st') => (Panic p, st')
    end.

Notation "'do' x <- m ; k" := (bind m (fun x => k))
  (at level 10, x name, m at level 100, k at level 200).

(** A Go channel: every value whose send has completed, oldest first,
    whether the channel was closed, and the size of its buffer. *)
Record chan (A : Type) : Type := {
  sent : list A;
  closed : bool;
  capacity : nat;
}.

Arguments sent {A} _.
Arguments closed {A} _.
Arguments capacity {A} _.

(** [make(chan A, size)] *)
Definition make (A : Type) (size : nat) : chan A :=
  {| sent := []; closed := false; capacity := size |}.

(** The other end of a channel: a consumer that keeps receiving
    ([for v := range ch]), or one that receives [n] values and then no
    more. *)
Inductive consumer : Type :=
  | Ranging
  | Receiving (n : nat).

(** [ch <- v] on an open channel completes once the buffer has room for
    [v]: at once while fewer than [capacity ch] values wait in it, and
    otherwise when the consumer has received enough of them. With what
    the consumer will ever take, the send completes or blocks for good. *)
Definition canSend {A : Type} (ch : chan A) (reader : consumer) : bool :=
  match reader with
  | Ranging => true
  | Receiving n => (length (sent ch) <? capacity ch + n)%nat
  end.

(** ** Package [kvstore]: what the source uses of the kv client *)

Module kvstore.

(** The [Client] interface: [nil], or the etcd client. *)
Inductive Client : Type :=
  | NilClient
  | EtcdClient (address : string) (timeout : Z).

(** Modelled from the spec: the event kinds of the kv client, whose
    declaration is not part of the repository files:
    [eventKind: enum{Put, Delete, ConnectionDown, Unknown}], numbered by
    Go's [iota] in that order. *)
Inductive EventKind : Type := PUT | DELETE | CONNECTIONDOWN | UNKNOWN.

Definition iota (k : EventKind) : Z :=
  match k with
  | PUT => 0
  | DELETE => 1
  | CONNECTIONDOWN => 2
  | UNKNOWN => 3
  end.

Definition EventKind_eqb (a b : EventKind) : bool := iota a =? iota b.

Record Event : Type := {
  EventType : EventKind;
  Key : string;
  Value : string;
}.

End kvstore.

(** ** Package [db]: the backend adapter *)

Module db.

Record Backend : Type := {
  Client : kvstore.Client;
  StoreType : string;
  Host : string;
  Port : Z;
  Timeout : Z;
  PathPrefix : string;
}.

(** Modelled from the spec: [db.Backend]'s methods, which are not part of
    the repository files. The adapter is a thin facade holding a path
    prefix; it exposes put, delete (idempotent on a missing key),
    list-by-prefix and watch-subkeys, and every stored key is
    [<backend-path-prefix>/<key>]. Each returns an error when the store
    cannot be reached. *)
Definition makePath (b : Backend) (key : string) : string :=
  PathPrefix b +:+ "/" +:+ key.

Definition unavailable : error := BackendError "kvstore unavailable".

Definition Put (b : Backend) (key value : string) : M unit :=
  fun st =>
    if connected st
    then (Ok tt, {| contents := <[makePath b key := value]> (contents st);
                    connected := connected st |})
    else (Err unavailable, st).

Definition Delete (b : Backend) (key : string) : M unit :=
  fun st =>
    if connected st
    then (Ok tt, {| contents := delete (makePath b key) (contents st);
                    connected := connected st |})
    else (Err unavailable, st).

Definition List (b : Backend) (key : string) : M (gmap string string) :=
  fun st =>
    if connected st
    then (Ok (filter (fun kv => strings.HasPrefix kv.1 (makePath b key) = true)
                     (contents st)), st)
    else (Err unavailable, st).

(** [feed] is the store's side of a watch: for a watched path, the
    channel with the raw events it delivers. *)
Definition CreateWatchForSubKeys (b : Backend) (key : string)
    (feed : string -> chan kvstore.Event) : chan kvstore.Event :=
  feed (makePath b key).

End db.

(** ** Package [config] *)

Module config.

Definition defaultkvStoreConfigPath : string := "config".
Definition kvStoreDataPathPrefix : string := "/service/voltha".
Definition kvStorePathSeparator : string := "/".

(** [type ConfigType int] *)
Definition ConfigType : Type := Z.
Definition ConfigTypeLogLevel : ConfigType := 0.
Definition ConfigTypeKafka : ConfigType := 1.

Definition ConfigType_String (c : ConfigType) : result string :=
  index ["loglevel"; "kafka"] c.

(** [type ChangeEventType int] *)
Definition ChangeEventType : Type := Z.
Definition Put : ChangeEventType := 0.
Definition Delete : ChangeEventType := 1.

(** The conversion [ChangeEventType(watchResp.EventType)] keeps the
    integer. *)
Definition ChangeEventType_of (k : kvstore.EventKind) : ChangeEventType :=
  kvstore.iota k.

Record ConfigChangeEvent : Type := {
  ChangeType : ChangeEventType;
  ConfigAttribute : string;
}.

Record ConfigManager : Type := {
  backend : db.Backend;
  KvStoreConfigPrefix : string;
}.

Record ComponentConfig : Type := {
  cManager : ConfigManager;
  componentLabel : string;
  configType : ConfigType;
  changeEventChan : option (chan ConfigChangeEvent);
  kvStoreEventChan : option (chan kvstore.Event);
}.

(** Modelled from the spec: [config.KvStore], whose declaration is not
    part of the repository files: the connection parameters of the
    backend (store kind, host, port, timeout) and the client, the fields
    the source sets and reads. *)
Record KvStore : Type := {
  KvClient : kvstore.Client;
  KVStoreType : string;
  KVStoreHost : string;
  KVStorePort : Z;
  KVStoreTimeout : Z;
}.

Definition NewConfigManager (kvClient : kvstore.Client)
    (kvStoreType kvStoreHost : string) (kvStorePort kvStoreTimeout : Z)
    : ConfigManager :=
  {| KvStoreConfigPrefix := defaultkvStoreConfigPath;
     backend := {| db.Client := kvClient;
                   db.StoreType := kvStoreType;
                   db.Host := kvStoreHost;
                   db.Port := kvStorePort;
                   db.Timeout := kvStoreTimeout;
                   db.PathPrefix := kvStoreDataPathPrefix |} |}.

Definition InitComponentConfig (cm : ConfigManager) (componentLabel : string)
    (configType : ConfigType) : ComponentConfig :=
  {| componentLabel := componentLabel;
     configType := configType;
     cManager := cm;
     changeEventChan := None;
     kvStoreEventChan := None |}.

Definition makeConfigPath (c : ComponentConfig) : result string :=
  rbind (ConfigType_String (configType c)) (fun cType =>
  Ok (KvStoreConfigPrefix (cManager c) +:+ kvStorePathSeparator +:+
      componentLabel c +:+ kvStorePathSeparator +:+ cType)).

(** *** Watch translation *)

(** [feed] stands for the store: see [db.CreateWatchForSubKeys]. The
    translation task that the call starts is
    [processKVStoreWatchEvents]. *)
Definition MonitorForConfigChange (c : ComponentConfig)
    (feed : string -> chan kvstore.Event) : result ComponentConfig :=
  rbind (makeConfigPath c) (fun key =>
  Ok {| cManager := cManager c;
        componentLabel := componentLabel c;
        configType := configType c;
        changeEventChan := Some (make ConfigChangeEvent 1);
        kvStoreEventChan :=
          Some (db.CreateWatchForSubKeys (backend (cManager c)) key feed) |}).

(** Where the task stands once it has consumed what the inbound channel
    holds: returned from the function, or blocked on a channel
    operation. *)
Inductive task : Type := Exited | BlockedOnReceive | BlockedOnSend.

(** The body of [for watchResp := range c.kvStoreEventChan], over the
    events received, with the outbound channel as state and [reader] at
    its other end. A send on a nil channel blocks forever, a send on a
    closed one panics, a send on a full one waits for the reader. The
    result tells whether every event was consumed. *)
Fixpoint rangeEvents (ccPathPrefix : string) (events : list kvstore.Event)
    (out : option (chan ConfigChangeEvent)) (reader : consumer)
    : result (bool * option (chan ConfigChangeEvent)) :=
  match events with
  | [] => Ok (true, out)
  | watchResp :: rest =>
      if kvstore.EventKind_eqb (kvstore.EventType watchResp) kvstore.CONNECTIONDOWN
         || kvstore.EventKind_eqb (kvstore.EventType watchResp) kvstore.UNKNOWN
      then rangeEvents ccPathPrefix rest out reader
      else
        let ChangeType := ChangeEventType_of (kvstore.EventType watchResp) in
        let ky := kvstore.Key watchResp in
        let configAttribute := strings.TrimPrefix ky ccPathPrefix in
        let configEvent :=
          {| ChangeType := ChangeType; ConfigAttribute := configAttribute |} in
        match out with
        | None => Ok (false, out)
        | Some ch =>
            if closed ch then Panic SendOnClosedChannel
            else if canSend ch reader
            then rangeEvents ccPathPrefix rest
                   (Some {| sent := sent ch ++ [configEvent];
                            closed := closed ch;
                            capacity := capacity ch |}) reader
            else Ok (false, out)
        end
  end.

(** The [configEvent] that one turn of the loop builds. *)
Definition translate (ccPathPrefix : string) (e : kvstore.Event) : ConfigChangeEvent :=
  {| ChangeType := ChangeEventType_of (kvstore.EventType e);
     ConfigAttribute := strings.TrimPrefix (kvstore.Key e) ccPathPrefix |}.

Definition processKVStoreWatchEvents (reader : consumer) (c : ComponentConfig)
    : result (task * ComponentConfig) :=
  rbind (makeConfigPath c) (fun ccKeyPrefix =>
  let ccPathPrefix :=
    db.PathPrefix (backend (cManager c)) +:+ ccKeyPrefix +:+ kvStorePathSeparator in
  match kvStoreEventChan c with
  | None => Ok (BlockedOnReceive, c)
  | Some inbound =>
      rbind (rangeEvents ccPathPrefix (sent inbound) (changeEventChan c) reader)
        (fun '(drained, out) =>
           Ok (if drained
               then if closed inbound then Exited else BlockedOnReceive
               else BlockedOnSend,
               {| cManager := cManager c;
                  componentLabel := componentLabel c;
                  configType := configType c;
                  changeEventChan := out;
                  kvStoreEventChan := kvStoreEventChan c |}))
  end).

(** [MonitorForConfigChange] with the task it starts by
    [go c.processKVStoreWatchEvents()], run on what the store's channel
    delivers, with [reader] receiving from the channel the call
    returns. *)
Definition watch (c : ComponentConfig) (feed : string -> chan kvstore.Event)
    (reader : consumer) : result (task * ComponentConfig) :=
  rbind (MonitorForConfigChange c feed) (processKVStoreWatchEvents reader).

(** What a consumer can see of a watch: where the task stands and the
    outbound channel. *)
Definition observed (r : result (task * ComponentConfig))
    : result (task * option (chan ConfigChangeEvent)) :=
  rbind r (fun '(t, c) => Ok (t, changeEventChan c)).

(** *** CRUD and listing *)

Section Listing.

(** The order in which [for ... := range m] visits a Go map is not
    specified; [range] is the order the run time picks. *)
Variable range : gmap string string -> list (string * string).

Definition quote : string := String "034" EmptyString.

Definition RetrieveAll (c : ComponentConfig) : M (gmap string string) :=
  do key <- lift (makeConfigPath c);
  do data <- db.List (backend (cManager c)) key;
  let ccPathPrefix :=
    db.PathPrefix (backend (cManager c)) +:+ kvStorePathSeparator +:+
    key +:+ kvStorePathSeparator in
  ret (foldl (fun res '(attr, val) =>
                <[strings.TrimPrefix attr ccPathPrefix := strings.Trim val quote]> res)
             ∅ (range data)).

Record List : Type := {
  ComponentName : string;
  PackageName : string;
  Level : string;
}.

(** One turn of the loop of [RetrieveList]. *)
Definition listEntry (ccPathPrefix pathPrefix attr val : string) : result List :=
  let cName := strings.SplitN attr ccPathPrefix 2 in
  rbind (index cName 0) (fun cName0 =>
  let cname := strings.SplitN cName0 pathPrefix 2 in
  rbind (index cname 1) (fun cname1 =>
  let pName := strings.SplitAfterN attr ccPathPrefix 2 in
  rbind (index pName 1) (fun pName1 =>
  Ok {| ComponentName := cname1;
        PackageName := pName1;
        Level := strings.Trim val quote |}))).

Fixpoint listEntries (ccPathPrefix pathPrefix : string)
    (data : list (string * string)) (rows : list List) : result (list List) :=
  match data with
  | [] => Ok rows
  | (attr, val) :: rest =>
      rbind (listEntry ccPathPrefix pathPrefix attr val) (fun l =>
      listEntries ccPathPrefix pathPrefix rest (rows ++ [l]))
  end.

Definition RetrieveList (c : ComponentConfig) : M (list List) :=
  do data <- db.List (backend (cManager c)) (KvStoreConfigPrefix (cManager c));
  do cType <- lift (ConfigType_String (configType c));
  let ccPathPrefix := kvStorePathSeparator +:+ cType +:+ kvStorePathSeparator in
  let pathPrefix :=
    kvStorePathSeparator +:+ KvStoreConfigPrefix (cManager c) +:+ kvStorePathSeparator in
  lift (listEntries ccPathPrefix pathPrefix (range data) []).

End Listing.

Definition Save (c : ComponentConfig) (configKey configValue : string) : M unit :=
  do path <- lift (makeConfigPath c);
  let key := path +:+ "/" +:+ configKey in
  db.Put (backend (cManager c)) key configValue.

Definition ComponentConfig_Delete (c : ComponentConfig) (configKey : string) : M unit :=
  do path <- lift (makeConfigPath c);
  let key := path +:+ "/" +:+ configKey in
  db.Delete (backend (cManager c)) key.

End config.

(** ** Package [model]: the row of the log-level table *)

Module model.

Record LogLevel : Type := {
  ComponentName : string;
  PackageName : string;
  Level : string;
}.

End model.

(** ** Package [commands]: the [loglevel] sub-commands *)

Module commands.

Import config.

Definition defaultComponentName : string := "global".
Definition defaultPackageName : string := "default".

Record LogLevelOutput : Type := {
  ComponentName : string;
  Status : string;
  Error : string;
}.

Definition kvStoreType : string := "etcd".
Definition defaultKVStoreType : string := kvStoreType.
Definition defaultKVStoreTimeout : Z := 1.
Definition defaultKVStoreHost : string := "127.0.0.1".
Definition defaultKVStorePort : Z := 2379.

Definition NewDefaultKVStore : KvStore :=
  {| KvClient := kvstore.NilClient;
     KVStoreType := defaultKVStoreType;
     KVStoreTimeout := defaultKVStoreTimeout;
     KVStoreHost := defaultKVStoreHost;
     KVStorePort := defaultKVStorePort |}.

Section ClientCreation.

(** [kvstore.NewEtcdClient] of the kv library: the client for an address
    and a timeout, or its error. *)
Variable NewEtcdClient : string -> Z -> result kvstore.Client.

Definition setConfigManager (kv : KvStore) : result ConfigManager :=
  let addr := KVStoreHost kv +:+ ":" +:+ strconv.Itoa (KVStorePort kv) in
  rbind (if String.eqb (KVStoreType kv) "etcd"
         then rbind (NewEtcdClient addr (KVStoreTimeout kv)) (fun client =>
              Ok {| KvClient := client;
                    KVStoreType := KVStoreType kv;
                    KVStoreHost := KVStoreHost kv;
                    KVStorePort := KVStorePort kv;
                    KVStoreTimeout := KVStoreTimeout kv |})
         else Ok kv) (fun kv =>
  Ok (NewConfigManager (KvClient kv) (KVStoreType kv) (KVStoreHost kv)
        (KVStorePort kv) (KVStoreTimeout kv))).

Definition createConfigManager : result ConfigManager :=
  rbind (setConfigManager NewDefaultKVStore) (fun cm => Ok cm).

End ClientCreation.

Definition processCommandArgs (component : string) : result model.LogLevel :=
  if strings.Contains component "#" then
    let val := strings.Split component "#" in
    rbind (index val 0) (fun val0 =>
    rbind (index val 1) (fun val1 =>
    Ok {| model.ComponentName := val0;
          model.PackageName := strings.ReplaceAll val1 "/" "#";
          model.Level := "" |}))
  else
    Ok {| model.ComponentName := component;
          model.PackageName := defaultPackageName;
          model.Level := "" |}.

Fixpoint processEach (components : list string) : result (list model.LogLevel) :=
  match components with
  | [] => Ok []
  | component :: rest =>
      rbind (processCommandArgs component) (fun cNameConfig =>
      rbind (processEach rest) (fun others => Ok (cNameConfig :: others)))
  end.

(** The loop of [SetLogLevelOpts.Execute] over the parsed arguments: a
    failed [Save] is reported and the next component is tried. *)
Fixpoint saveEach (cm : ConfigManager) (level : string)
    (componentNameConfig : list model.LogLevel) (output : list LogLevelOutput)
    : M (list LogLevelOutput) :=
  match componentNameConfig with
  | [] => ret output
  | cConfig :: rest =>
      fun st =>
        let cNameConfig :=
          InitComponentConfig cm (model.ComponentName cConfig) ConfigTypeLogLevel in
        match Save cNameConfig (model.PackageName cConfig) level st with
        | (Ok _, st') =>
            saveEach cm level rest
              (output ++ [{| ComponentName := model.ComponentName cConfig;
                             Status := "Success"; Error := "" |}]) st'
        | (Err err, st') =>
            saveEach cm level rest
              (output ++ [{| ComponentName := model.ComponentName cConfig;
                             Status := "Failure"; Error := error_Error err |}]) st'
        | (Panic p, st') => (Panic p, st')
        end
  end.

Section Commands.

Variable NewEtcdClient : string -> Z -> result kvstore.Client.

Variable range : gmap string string -> list (string * string).

(** [log.StringToLogLevel] of the logging library: the level, or
    [None] for its error. *)
Variable StringToLogLevel : string -> option Z.

(** [ConfigManager.RetrieveComponentList] of the config library. *)
Variable RetrieveComponentList : ConfigManager -> ConfigType -> M (list string).

Definition SetLogLevelOpts_Execute (Level : string) (Component : list string)
    : M (list LogLevelOutput) :=
  if negb (String.eqb Level "") && negb (bool_decide (is_Some (StringToLogLevel Level)))
  then lift (Err (CommandError
         ("Unknown log level " +:+ Level +:+
          ". Allowed values are <INFO>,<DEBUG>,<ERROR>,<WARN>,<FATAL>")))
  else
    do componentNameConfig <-
      lift (if bool_decide (length Component = 0%nat)
            then Ok [{| model.ComponentName := defaultComponentName;
                        model.PackageName := defaultPackageName;
                        model.Level := "" |}]
            else processEach Component);
    match createConfigManager NewEtcdClient with
    | Ok cm => saveEach cm Level componentNameConfig []
    | Err err =>
        lift (Err (CommandError ("Unable to create configmanager " +:+
                                 error_Error err)))
    | Panic p => lift (Panic p)
    end.

Definition listGlobalConfig (cConfig : ComponentConfig) : M string :=
  do globalLogConfig <- RetrieveAll range cConfig;
  ret (match globalLogConfig !! defaultPackageName with
       | Some globalLevel =>
           match StringToLogLevel globalLevel with
           | Some _ => globalLevel
           | None => ""
           end
       | None => ""
       end).

Definition listComponentNameConfig (cConfig : ComponentConfig) (globalLevel : string)
    : M (gmap string string) :=
  do componentLogConfig <- RetrieveAll range cConfig;
  ret (if negb (String.eqb globalLevel "")
       then <[defaultPackageName := globalLevel]> componentLogConfig
       else componentLogConfig).

(** The inner loop of [ListLogLevelsOpts.Execute]: the rows of one
    component. *)
Definition populate (componentName : string) (componentLogConfig : gmap string string)
    (data : list model.LogLevel) : list model.LogLevel :=
  foldl (fun (data : list model.LogLevel) '(packageName, level) =>
           if negb (bool_decide (is_Some (StringToLogLevel level)))
              || String.eqb packageName ""
           then data
           else
             let pName := strings.ReplaceAll packageName "#" "/" in
             (data ++ [{| model.ComponentName := componentName;
                          model.PackageName := pName;
                          model.Level := level |}])%list)
        data (range componentLogConfig).

Fixpoint listEach (cm : ConfigManager) (globalLevel : string)
    (componentList : list string) (data : list model.LogLevel)
    : M (list model.LogLevel) :=
  match componentList with
  | [] => ret data
  | componentName :: rest =>
      let cNameConfig := InitComponentConfig cm componentName ConfigTypeLogLevel in
      fun st =>
        match listComponentNameConfig cNameConfig globalLevel st with
        | (Ok componentLogConfig, st') =>
            listEach cm globalLevel rest
              (populate componentName componentLogConfig data) st'
        | (Err err, st') =>
            (Err (CommandError ("Unable to list components log level " +:+
                                error_Error err)), st')
        | (Panic p, st') => (Panic p, st')
        end
  end.

Definition ListLogLevelsOpts_Execute (Component : list string)
    : M (list model.LogLevel) :=
  match createConfigManager NewEtcdClient with
  | Ok cm =>
      fun st =>
        let '(listed, st1) :=
          match Component with
          | [] =>
              match RetrieveComponentList cm ConfigTypeLogLevel st with
              | (Err err, st') =>
                  (Err (CommandError ("Unable to list components " +:+
                                      error_Error err +:+ " ")), st')
              | other => other
              end
          | first :: _ => (Ok [first], st)
          end in
        match listed with
        | Ok componentList =>
            let globalConfig :=
              InitComponentConfig cm defaultComponentName ConfigTypeLogLevel in
            let '(global, st2) := listGlobalConfig globalConfig st1 in
            let globalLevel := match global with Ok level => level | _ => "" end in
            match global with
            | Panic p => (Panic p, st2)
            | _ => listEach cm globalLevel componentList [] st2
            end
        | Err err => (Err err, st1)
        | Panic p => (Panic p, st1)
        end
  | Err err =>
      lift (Err (CommandError ("Unable to create configmanager " +:+
                               error_Error err)))
  | Panic p => lift (Panic p)
  end.

Definition ClearLogLevelsOpts_Execute (Component : list string)
    : M (list LogLevelOutput) :=
  do cConfig <-
    lift (match Component with
          | [] => Ok {| model.ComponentName := defaultComponentName;
                        model.PackageName := defaultPackageName;
                        model.Level := "" |}
          | first :: _ => processCommandArgs first
          end);
  match createConfigManager NewEtcdClient with
  | Ok cm =>
      let cNameConfig :=
        InitComponentConfig cm (model.ComponentName cConfig) ConfigTypeLogLevel in
      fun st =>
        match ComponentConfig_Delete cNameConfig (model.PackageName cConfig) st with
        | (Ok _, st') =>
            (Ok [{| ComponentName := model.ComponentName cConfig;
                    Status := "Success"; Error := "" |}], st')
        | (Err err, st') =>
            (Ok [{| ComponentName := model.ComponentName cConfig;
                    Status := "Failure"; Error := error_Error err |}], st')
        | (Panic p, st') => (Panic p, st')
        end
  | Err err =>
      lift (Err (CommandError ("Unable to create configmanager " +:+
                               error_Error err)))
  | Panic p => lift (Panic p)
  end.

(** *** The earlier controller-based commands *)

Record componentLogController : Type := {
  componentNameConfig : option ComponentConfig;
  listConfig : option ComponentConfig;
  globalConfig : option ComponentConfig;
  configManager : ConfigManager;
}.

(** A method call through a nil [*ComponentConfig] panics at its first
    field access. *)
Definition deref {A : Type} (p : option ComponentConfig) (f : ComponentConfig -> M A)
    : M A :=
  match p with
  | Some c => f c
  | None => lift (Panic NilPointerDereference)
  end.

Definition componentLogController_listGlobalConfig (c : componentLogController)
    : M string :=
  do globalLogConfig <- deref (globalConfig c) (RetrieveAll range);
  ret (foldl (fun (globalDefaultLogLevel : string) '(globalKey, globalLevel) =>
                if String.eqb globalKey "default"
                then globalLevel else globalDefaultLogLevel)
             "" (range globalLogConfig)).

Definition componentLogController_listComponentNameConfig (c : componentLogController)
    : M (gmap string string) :=
  do globalLevel <- componentLogController_listGlobalConfig c;
  do componentLogConfig <- deref (componentNameConfig c) (RetrieveAll range);
  ret (if negb (String.eqb globalLevel "")
       then <["default" := globalLevel]> componentLogConfig
       else componentLogConfig).

End Commands.

Definition NewComponentLogController (cm : ConfigManager) : componentLogController :=
  {| componentNameConfig := None;
     listConfig := None;
     globalConfig := None;
     configManager := cm |}.

Definition createComponentConfig (cm : ConfigManager) (cc : componentLogController)
    (componentName : string) : componentLogController :=
  if String.eqb componentName "list" then
    {| componentNameConfig := componentNameConfig cc;
       listConfig := Some (InitComponentConfig cm componentName ConfigTypeLogLevel);
       globalConfig := globalConfig cc;
       configManager := configManager cc |}
  else
    {| componentNameConfig :=
         Some (InitComponentConfig cm componentName ConfigTypeLogLevel);
       listConfig := listConfig cc;
       globalConfig := Some (InitComponentConfig cm "global" ConfigTypeLogLevel);
       configManager := configManager cc |}.

End commands.

(** ** The key layout, as the specification writes it *)

Module spec.

(** [<backend-path-prefix>/<configPrefix>/<componentLabel>/<configTypeString>/<attributeName>] *)
Definition storedKey (pathPrefix configPrefix componentLabel configTypeString
    attributeName : string) : string :=
  pathPrefix +:+ "/" +:+ configPrefix +:+ "/" +:+ componentLabel +:+ "/" +:+
  configTypeString +:+ "/" +:+ attributeName.

(** A valid inbound event is a Put or a Delete. *)
Definition valid (e : kvstore.Event) : bool :=
  match kvstore.EventType e with
  | kvstore.PUT | kvstore.DELETE => true
  | _ => false
  end.

(** The change type that matches an inbound event kind. *)
Definition matches (k : kvstore.EventKind) (t : config.ChangeEventType) : Prop :=
  (k = kvstore.PUT /\ t = config.Put) \/ (k = kvstore.DELETE /\ t = config.Delete).

End spec.

(** ** Stores and handles of the scenarios *)

Module scenario.

Definition empty : Store := {| contents := ∅; connected := true |}.

(** The manager of the commands, for an etcd client at the default
    address. *)
Definition manager : config.ConfigManager :=
  config.NewConfigManager (kvstore.EtcdClient "127.0.0.1:2379" 1)
    "etcd" "127.0.0.1" 2379 1.

(** A kv library whose client can always be created, and one whose
    client cannot. *)
Definition dial (address : string) (timeout : Z) : result kvstore.Client :=
  Ok (kvstore.EtcdClient address timeout).

Definition refused (address : string) (timeout : Z) : result kvstore.Client :=
  Err (BackendError "context deadline exceeded").

(** A global default of INFO, and DEBUG saved on the default attribute
    of component "X". *)
Definition layered : Store :=
  {| contents := {[ "/service/voltha/config/global/loglevel/default" := "INFO";
                    "/service/voltha/config/X/loglevel/default" := "DEBUG" ]};
     connected := true |}.

(** A kafka setting of "rw-core" next to its log level. *)
Definition mixed : Store :=
  {| contents := {[ "/service/voltha/config/rw-core/kafka/topic" := "voltha";
                    "/service/voltha/config/rw-core/loglevel/default" := "DEBUG" ]};
     connected := true |}.

End scenario.

(** ** The controller-based commands of the earlier [loglevel.go] *)

Module controller.

Import config commands.

Definition EtcdStoreName : string := "etcd".
Definition defaultKVStoreType : string := EtcdStoreName.
Definition defaultKVStoreTimeout : Z := 5.
Definition defaultKVStoreHost : string := "127.0.0.1".
Definition defaultKVStorePort : Z := 2379.
Definition kvStoreDataPathPrefix : string := "/service/voltha".
Definition defaultKVStoreConfigPrefix : string := "/config/".

Record kvStore : Type := {
  kvClient : kvstore.Client;
  KVStoreType : string;
  KVStoreHost : string;
  KVStorePort : Z;
  KVStoreTimeout : Z;
  KVStoreDataPrefix : string;
  KVStoreConfigPrefix : string;
}.

Definition NewKVStore : kvStore :=
  {| kvClient := kvstore.NilClient;
     KVStoreType := defaultKVStoreType;
     KVStoreTimeout := defaultKVStoreTimeout;
     KVStoreHost := defaultKVStoreHost;
     KVStorePort := defaultKVStorePort;
     KVStoreDataPrefix := kvStoreDataPathPrefix;
     KVStoreConfigPrefix := defaultKVStoreConfigPrefix |}.

Section ClientCreation.

Variable NewEtcdClient : string -> Z -> result kvstore.Client.

Definition newKVClient (storeType address : string) (timeout : Z)
    : result kvstore.Client :=
  if String.eqb storeType "etcd"
  then NewEtcdClient address timeout
  else Err (CommandError "unsupported-kv-store").

Definition setKVClient (kv : kvStore) : result ConfigManager :=
  let addr := KVStoreHost kv +:+ ":" +:+ strconv.Itoa (KVStorePort kv) in
  rbind (newKVClient (KVStoreType kv) addr (KVStoreTimeout kv)) (fun client =>
  Ok (NewConfigManager client (KVStoreType kv) (KVStoreHost kv)
        (KVStorePort kv) (KVStoreTimeout kv))).

End ClientCreation.

Definition setGlobalConfig (c : componentLogController) (packageName level : string)
    : M unit :=
  deref (globalConfig c) (fun g => Save g packageName level).

Definition setComponentNameConfig (c : componentLogController)
    (packageName level : string) : M unit :=
  deref (componentNameConfig c) (fun n => Save n packageName level).

Definition clearGlobalConfig (c : componentLogController) (packageName : string)
    : M unit :=
  deref (globalConfig c) (fun g => ComponentConfig_Delete g packageName).

Definition clearComponentNameConfig (c : componentLogController) (packageName : string)
    : M unit :=
  deref (componentNameConfig c) (fun n => ComponentConfig_Delete n packageName).

(** The loop of [processCommandArgs(components []string)], with the map
    built so far. *)
Fixpoint processEachInto (components : list string)
    (componentConfig : gmap string string) : result (gmap string string) :=
  match components with
  | [] => Ok componentConfig
  | componentKey :: rest =>
      if strings.Contains componentKey "#" then
        let val := strings.Split componentKey "#" in
        rbind (index val 0) (fun componentName =>
        rbind (index val 1) (fun val1 =>
        let packageName := strings.ReplaceAll val1 "/" "#" in
        processEachInto rest (<[componentName := packageName]> componentConfig)))
      else processEachInto rest (<[componentKey := "default"]> componentConfig)
  end.

Definition processCommandArgs (components : list string) : result (gmap string string) :=
  processEachInto components ∅.

(** The loop of [SetLogLevelOpts.Execute] over the component map: the
    controller is re-bound for each component, a failure is reported, and
    a success row is appended in either case. *)
Fixpoint setEach (cm : ConfigManager) (cc : componentLogController) (level : string)
    (componentConfig : list (string * string)) (output : list LogLevelOutput)
    : M (list LogLevelOutput) :=
  match componentConfig with
  | [] => ret output
  | (componentName, packageName) :: rest =>
      fun st =>
        let cc := createComponentConfig cm cc componentName in
        let set :=
          if String.eqb componentName "global"
          then setGlobalConfig cc packageName level
          else setComponentNameConfig cc packageName level in
        match set st with
        | (Ok _, st') =>
            setEach cm cc level rest
              (output ++ [{| ComponentName := componentName;
                             Status := "Success"; Error := "" |}]) st'
        | (Err err, st') =>
            setEach cm cc level rest
              ((output ++ [{| ComponentName := componentName;
                              Status := "Failure"; Error := error_Error err |}])
               ++ [{| ComponentName := componentName;
                      Status := "Success"; Error := "" |}]) st'
        | (Panic p, st') => (Panic p, st')
        end
  end.

(** The loop of [ClearLogLevelsOpts.Execute], of the same shape. *)
Fixpoint clearEach (cm : ConfigManager) (cc : componentLogController)
    (componentConfig : list (string * string)) (output : list LogLevelOutput)
    : M (list LogLevelOutput) :=
  match componentConfig with
  | [] => ret output
  | (componentName, packageName) :: rest =>
      fun st =>
        let cc := createComponentConfig cm cc componentName in
        let clear :=
          if String.eqb componentName "global"
          then clearGlobalConfig cc packageName
          else clearComponentNameConfig cc packageName in
        match clear st with
        | (Ok _, st') =>
            clearEach cm cc rest
              (output ++ [{| ComponentName := componentName;
                             Status := "Success"; Error := "" |}]) st'
        | (Err err, st') =>
            clearEach cm cc rest
              ((output ++ [{| ComponentName := componentName;
                              Status := "Failure"; Error := error_Error err |}])
               ++ [{| ComponentName := componentName;
                      Status := "Success"; Error := "" |}]) st'
        | (Panic p, st') => (Panic p, st')
        end
  end.

Section Controller.

Variable NewEtcdClient : string -> Z -> result kvstore.Client.

Variable range : gmap string string -> list (string * string).

Variable StringToLogLevel : string -> option Z.

Definition listAllComponentConfig (c : componentLogController) : M (list List) :=
  deref (listConfig c) (RetrieveList range).

Definition componentConfigOf (Component : list string) : result (gmap string string) :=
  if bool_decide (length Component = 0%nat)
  then Ok {[ "global" := "default" ]}
  else processCommandArgs Component.

Definition SetLogLevelOpts_Execute (Level : string) (Component : list string)
    : M (list LogLevelOutput) :=
  if negb (String.eqb Level "") && negb (bool_decide (is_Some (StringToLogLevel Level)))
  then lift (Err (CommandError "Please specify valid logLevel"))
  else
    do componentConfig <- lift (componentConfigOf Component);
    do cm <- lift (setKVClient NewEtcdClient NewKVStore);
    let cc := NewComponentLogController cm in
    setEach cm cc Level (range componentConfig) [].

Definition listLogLevels (Component : list string) : M (list model.LogLevel) :=
  if bool_decide (length Component = 2%nat)
  then lift (Err (CommandError "Please don't specify more than one component name"))
  else
    do cm <- lift (setKVClient NewEtcdClient NewKVStore);
    let cc := NewComponentLogController cm in
    match Component with
    | [] =>
        let cc := createComponentConfig cm cc "list" in
        do componentLogConfig <- listAllComponentConfig cc;
        ret (map (fun l =>
                    {| model.ComponentName := config.ComponentName l;
                       model.PackageName :=
                         strings.ReplaceAll (config.PackageName l) "#" "/";
                       model.Level := config.Level l |})
                 componentLogConfig)
    | componentName :: _ =>
        let cc := createComponentConfig cm cc componentName in
        do componentLogConfig <- componentLogController_listComponentNameConfig range cc;
        ret (map (fun '(packageName, level) =>
                    {| model.ComponentName := componentName;
                       model.PackageName := strings.ReplaceAll packageName "#" "/";
                       model.Level := level |})
                 (range componentLogConfig))
    end.

Definition ClearLogLevelsOpts_Execute (Component : list string)
    : M (list LogLevelOutput) :=
  do componentConfig <- lift (componentConfigOf Component);
  do cm <- lift (setKVClient NewEtcdClient NewKVStore);
  let cc := NewComponentLogController cm in
  clearEach cm cc (range componentConfig) [].

End Controller.

End controller.

(** * Properties *)

(** ** The string functions on the inputs the commands give them *)

Example Trim_quoted : strings.Trim (String "034" (String "034" "DEBUG")) (String "034" "") = "DEBUG".
Proof. reflexivity. Qed.

Example SplitN_key :
  strings.SplitN "/service/voltha/config/rw-core/loglevel/default" "/loglevel/" 2
  = ["/service/voltha/config/rw-core"; "default"].
Proof. reflexivity. Qed.

Example SplitAfterN_key :
  strings.SplitAfterN "/service/voltha/config/rw-core/loglevel/default" "/loglevel/" 2
  = ["/service/voltha/config/rw-core/loglevel/"; "default"].
Proof. reflexivity. Qed.

Example Split_hash : strings.Split "rw-core#pkgA#pkgB" "#" = ["rw-core"; "pkgA"; "pkgB"].
Proof. reflexivity. Qed.

Example ReplaceAll_slash : strings.ReplaceAll "a/b//c" "/" "#" = "a#b##c".
Proof. reflexivity. Qed.

Section StringFacts.

Import strings.

Lemma append_assoc (a b c : string) : (a +:+ b) +:+ c = a +:+ b +:+ c.
Proof. induction a as [|x a IH]; simpl; [reflexivity | now rewrite IH]. Qed.

Lemma append_nil_r (a : string) : a +:+ "" = a.
Proof. induction a as [|x a IH]; simpl; [reflexivity | now rewrite IH]. Qed.

Lemma stripPrefix_app (p r : string) : stripPrefix (p +:+ r) p = Some r.
Proof.
  induction p as [|x p IH]; simpl; [reflexivity |].
  now rewrite Ascii.eqb_refl.
Qed.

Lemma stripPrefix_Some (p s r : string) : stripPrefix s p = Some r -> s = p +:+ r.
Proof.
  revert s; induction p as [|x p IH]; intros s; simpl.
  - now intros [= ->].
  - destruct s as [|c s]; [discriminate |].
    destruct (Ascii.eqb_spec c x) as [->|]; [|discriminate].
    intros H; apply IH in H; now subst.
Qed.

Lemma HasPrefix_app (p r : string) : HasPrefix (p +:+ r) p = true.
Proof. unfold HasPrefix; now rewrite stripPrefix_app. Qed.

Lemma TrimPrefix_app (p r : string) : TrimPrefix (p +:+ r) p = r.
Proof. unfold TrimPrefix; now rewrite stripPrefix_app. Qed.

(** What [TrimPrefix] returned tells how the key was built. *)
Lemma TrimPrefix_inv (s p a : string) :
  TrimPrefix s p = a -> s = p +:+ a \/ (s = a /\ HasPrefix s p = false).
Proof.
  unfold TrimPrefix, HasPrefix.
  destruct (stripPrefix s p) as [r|] eqn:E; intros <-.
  - left; now apply stripPrefix_Some.
  - now right.
Qed.

Lemma HasPrefix_true (s p : string) : HasPrefix s p = true <-> exists r, s = p +:+ r.
Proof.
  unfold HasPrefix; split.
  - destruct (stripPrefix s p) as [r|] eqn:E; [|discriminate].
    intros _; exists r; now apply stripPrefix_Some.
  - intros [r ->]; now rewrite stripPrefix_app.
Qed.

Lemma Cut_unfold (s sep : string) :
  Cut s sep =
  match stripPrefix s sep with
  | Some after => Some ("", after)
  | None =>
      match s with
      | "" => None
      | String c s' =>
          match Cut s' sep with
          | Some (before, after) => Some (String c before, after)
          | None => None
          end
      end
  end.
Proof. destruct s; reflexivity. Qed.

Lemma Cut_None_app (sep a b : string) : Cut (a +:+ sep +:+ b) sep <> None.
Proof.
  induction a as [|x a IH]; rewrite Cut_unfold.
  - simpl; rewrite stripPrefix_app; discriminate.
  - destruct (stripPrefix (String x a +:+ sep +:+ b) sep); [discriminate |].
    simpl.
    destruct (Cut (a +:+ sep +:+ b) sep) as [[? ?]|]; [discriminate | contradiction].
Qed.

Lemma Cut_Some (s sep before after : string) :
  Cut s sep = Some (before, after) -> s = before +:+ sep +:+ after.
Proof.
  revert before; induction s as [|c s IH]; intros before; simpl.
  - destruct (stripPrefix "" sep) as [r|] eqn:E; [|discriminate].
    intros [= <- <-]; now apply stripPrefix_Some in E.
  - destruct (stripPrefix (String c s) sep) as [r|] eqn:E.
    + intros [= <- <-]; now apply stripPrefix_Some in E.
    + destruct (Cut s sep) as [[b a]|]; [|discriminate].
      intros [= <- <-]; simpl; f_equal; now apply IH.
Qed.

End StringFacts.

(** ** The config type as a path segment *)

Section ConfigTypes.

Import config.

(** C10: [ConfigType.String] indexes a two-element array by the ordinal:
    it gives "loglevel" for [ConfigTypeLogLevel] and "kafka" for
    [ConfigTypeKafka], and for every other value of the integer type the
    index is out of range and the call panics; it returns neither a
    string nor an error. *)
Theorem ConfigType_String_table :
  ConfigType_String ConfigTypeLogLevel = Ok "loglevel" /\
  ConfigType_String ConfigTypeKafka = Ok "kafka" /\
  forall c : ConfigType,
    c <> ConfigTypeLogLevel -> c <> ConfigTypeKafka ->
    ConfigType_String c = Panic (IndexOutOfRange c 2).
Proof.
  repeat split.
  intros c H0 H1; unfold ConfigType_String, index, ConfigTypeLogLevel, ConfigTypeKafka in *.
  change (Z.of_nat (length ["loglevel"; "kafka"])) with 2.
  destruct (Z.leb_spec 0 c), (Z.ltb_spec c 2); simpl; try reflexivity; lia.
Qed.

Lemma ConfigType_String_table_witness :
  ConfigType_String 2 = Panic (IndexOutOfRange 2 2).
Proof.
  apply (proj2 (proj2 ConfigType_String_table)); unfold ConfigTypeLogLevel, ConfigTypeKafka; lia.
Defined.

Lemma makeConfigPath_known (cm : ConfigManager) (componentLabel cType : string)
    (configType : ConfigType) :
  (configType = ConfigTypeLogLevel /\ cType = "loglevel") \/
  (configType = ConfigTypeKafka /\ cType = "kafka") ->
  makeConfigPath (InitComponentConfig cm componentLabel configType)
  = Ok (KvStoreConfigPrefix cm +:+ "/" +:+ componentLabel +:+ "/" +:+ cType).
Proof. intros [[-> ->]|[-> ->]]; reflexivity. Qed.

End ConfigTypes.

(** ** Point writes *)

Section Crud.

Import config.

Lemma Save_connected (c : ComponentConfig) (path configKey configValue : string)
    (st : Store) :
  makeConfigPath c = Ok path ->
  connected st = true ->
  Save c configKey configValue st
  = (Ok tt,
     {| contents :=
          <[db.PathPrefix (backend (cManager c)) +:+ "/" +:+ path +:+ "/" +:+ configKey
            := configValue]> (contents st);
        connected := true |}).
Proof.
  intros Hpath Hup; unfold Save, bind, lift; rewrite Hpath.
  unfold db.Put, db.makePath; now rewrite !Hup.
Qed.

(** C1: for every component label, attribute name and config type
    (log level or kafka), [Save] on a reachable store writes the value
    under the one key
    [<backend-path-prefix>/<configPrefix>/<componentLabel>/<configTypeString>/<attributeName>]
    and touches no other key; a manager built by [NewConfigManager] has
    [configPrefix] "config" and backend path prefix "/service/voltha". *)
Theorem Save_writes_stored_key (cm : ConfigManager)
    (componentLabel attributeName value cType : string)
    (configType : ConfigType) (st : Store) :
  (configType = ConfigTypeLogLevel /\ cType = "loglevel") \/
  (configType = ConfigTypeKafka /\ cType = "kafka") ->
  connected st = true ->
  Save (InitComponentConfig cm componentLabel configType) attributeName value st
  = (Ok tt,
     {| contents :=
          <[spec.storedKey (db.PathPrefix (backend cm)) (KvStoreConfigPrefix cm)
              componentLabel cType attributeName := value]> (contents st);
        connected := true |})
  /\ forall kvClient kvStoreType kvStoreHost kvStorePort kvStoreTimeout,
       KvStoreConfigPrefix
         (NewConfigManager kvClient kvStoreType kvStoreHost kvStorePort kvStoreTimeout)
       = "config" /\
       db.PathPrefix
         (backend (NewConfigManager kvClient kvStoreType kvStoreHost kvStorePort
                     kvStoreTimeout))
       = "/service/voltha".
Proof.
  intros Hty Hup; split; [|intros; split; reflexivity].
  rewrite (Save_connected _ _ _ _ _
             (makeConfigPath_known cm componentLabel cType configType Hty) Hup).
  unfold spec.storedKey; cbn [cManager InitComponentConfig].
  now rewrite !append_assoc.
Qed.

Lemma Save_writes_stored_key_witness :
  Save (InitComponentConfig scenario.manager "rw-core" ConfigTypeLogLevel)
    "default" "DEBUG" {| contents := ∅; connected := true |}
  = (Ok tt,
     {| contents := {[ "/service/voltha/config/rw-core/loglevel/default" := "DEBUG" ]};
        connected := true |}).
Proof.
  exact (proj1 (Save_writes_stored_key scenario.manager "rw-core" "default"
                  "DEBUG" "loglevel" ConfigTypeLogLevel
                  {| contents := ∅; connected := true |}
                  (or_introl (conj eq_refl eq_refl)) eq_refl)).
Defined.

End Crud.

(** ** The watch translation task *)

Section Watch.

Import config.

Lemma filtered_kind (e : kvstore.Event) :
  kvstore.EventKind_eqb (kvstore.EventType e) kvstore.CONNECTIONDOWN
  || kvstore.EventKind_eqb (kvstore.EventType e) kvstore.UNKNOWN
  = negb (spec.valid e).
Proof. unfold spec.valid; destruct (kvstore.EventType e); reflexivity. Qed.

(** With a consumer that keeps receiving, the loop sends the translation
    of every valid event on an open outbound channel, in the order
    received, and reaches the end of its input. *)
Lemma rangeEvents_open (ccPathPrefix : string) (events : list kvstore.Event) :
  forall ch : chan ConfigChangeEvent,
    closed ch = false ->
    rangeEvents ccPathPrefix events (Some ch) Ranging
    = Ok (true,
          Some {| sent := sent ch ++ map (translate ccPathPrefix)
                                       (List.filter spec.valid events);
                  closed := false;
                  capacity := capacity ch |}).
Proof.
  induction events as [|e events IH]; intros [past cl cap] Hcl; simpl in *; subst cl.
  - now rewrite app_nil_r.
  - rewrite filtered_kind.
    destruct (spec.valid e); simpl.
    + rewrite IH by reflexivity; simpl.
      now rewrite <- app_assoc.
    + now rewrite IH.
Qed.

(** With a consumer that receives [n] values, the sends that complete
    are those the buffer and the consumer have room for; the loop stops
    at the first send beyond them. *)
Lemma rangeEvents_receiving (ccPathPrefix : string) (n : nat)
    (events : list kvstore.Event) :
  forall ch : chan ConfigChangeEvent,
    closed ch = false ->
    let outs := map (translate ccPathPrefix) (List.filter spec.valid events) in
    let room := (capacity ch + n - length (sent ch))%nat in
    rangeEvents ccPathPrefix events (Some ch) (Receiving n)
    = Ok ((length outs <=? room)%nat,
          Some {| sent := sent ch ++ take room outs;
                  closed := false;
                  capacity := capacity ch |}).
Proof.
  induction events as [|e events IH]; intros [past cl cap] Hcl; simpl in *; subst cl.
  - rewrite take_nil. now rewrite app_nil_r.
  - rewrite filtered_kind.
    destruct (spec.valid e); simpl.
    + destruct (length past <? cap + n)%nat eqn:Hroom.
      * apply Nat.ltb_lt in Hroom.
        rewrite IH by reflexivity; simpl.
        rewrite length_app; simpl.
        replace (cap + n - length past)%nat
          with (S (cap + n - (length past + 1)))%nat by lia.
        simpl. now rewrite <- app_assoc.
      * apply Nat.ltb_ge in Hroom.
        replace (cap + n - length past)%nat with 0%nat by lia.
        simpl. now rewrite app_nil_r.
    + now rewrite IH.
Qed.

Lemma watch_eq (c : ComponentConfig) (feed : string -> chan kvstore.Event)
    (key : string) :
  makeConfigPath c = Ok key ->
  let b := backend (cManager c) in
  let inbound := db.CreateWatchForSubKeys b key feed in
  let ccPathPrefix := db.PathPrefix b +:+ key +:+ "/" in
  watch c feed Ranging
  = Ok (if closed inbound then Exited else BlockedOnReceive,
        {| cManager := cManager c;
           componentLabel := componentLabel c;
           configType := configType c;
           changeEventChan :=
             Some {| sent := map (translate ccPathPrefix)
                               (List.filter spec.valid (sent inbound));
                     closed := false;
                     capacity := 1 |};
           kvStoreEventChan := Some inbound |}).
Proof.
  intros Hkey b inbound ccPathPrefix.
  unfold watch, MonitorForConfigChange; rewrite Hkey; simpl.
  unfold processKVStoreWatchEvents, makeConfigPath in *; simpl.
  destruct (ConfigType_String (configType c)) as [cType| |]; simpl in *; try discriminate.
  injection Hkey as Hkey; rewrite Hkey.
  fold b; fold inbound.
  unfold kvStorePathSeparator; fold ccPathPrefix.
  rewrite (rangeEvents_open ccPathPrefix (sent inbound) (make ConfigChangeEvent 1) eq_refl).
  reflexivity.
Qed.

Lemma watch_receiving_eq (c : ComponentConfig) (feed : string -> chan kvstore.Event)
    (key : string) (n : nat) :
  makeConfigPath c = Ok key ->
  let b := backend (cManager c) in
  let inbound := db.CreateWatchForSubKeys b key feed in
  let ccPathPrefix := db.PathPrefix b +:+ key +:+ "/" in
  let outs := map (translate ccPathPrefix) (List.filter spec.valid (sent inbound)) in
  watch c feed (Receiving n)
  = Ok (if (length outs <=? S n)%nat
        then if closed inbound then Exited else BlockedOnReceive
        else BlockedOnSend,
        {| cManager := cManager c;
           componentLabel := componentLabel c;
           configType := configType c;
           changeEventChan :=
             Some {| sent := take (S n) outs; closed := false; capacity := 1 |};
           kvStoreEventChan := Some inbound |}).
Proof.
  intros Hkey b inbound ccPathPrefix outs.
  unfold watch, MonitorForConfigChange; rewrite Hkey; simpl.
  unfold processKVStoreWatchEvents, makeConfigPath in *; simpl.
  destruct (ConfigType_String (configType c)) as [cType| |]; simpl in *; try discriminate.
  injection Hkey as Hkey; rewrite Hkey.
  fold b; fold inbound.
  unfold kvStorePathSeparator; fold ccPathPrefix.
  rewrite (rangeEvents_receiving ccPathPrefix n (sent inbound)
             (make ConfigChangeEvent 1) eq_refl).
  reflexivity.
Qed.

Lemma translate_matches (ccPathPrefix : string) (e : kvstore.Event) :
  spec.valid e = true ->
  spec.matches (kvstore.EventType e) (ChangeType (translate ccPathPrefix e)).
Proof.
  unfold spec.valid, spec.matches, translate; simpl.
  destruct (kvstore.EventType e); try discriminate; intros _; [left | right]; now split.
Qed.

Lemma translate_all_match (ccPathPrefix : string) (events : list kvstore.Event) :
  Forall2 (fun e o => spec.matches (kvstore.EventType e) (ChangeType o))
    (List.filter spec.valid events)
    (map (translate ccPathPrefix) (List.filter spec.valid events)).
Proof.
  assert (Hall : List.Forall (fun e => spec.valid e = true)
                   (List.filter spec.valid events)).
  { apply List.Forall_forall; intros e He; now apply List.filter_In in He. }
  induction Hall as [|e l He _ IH]; simpl; constructor; [|exact IH].
  now apply translate_matches.
Qed.

(** C8: for every sequence of inbound events, with a consumer that keeps
    receiving, the outbound sequence is the translation of the valid
    (Put or Delete) inbound events, one outbound event for each, in the
    order they arrived: the event at each position carries the change
    type that matches the inbound kind and the attribute cut from that
    inbound event's key. Whatever the consumer does, what has been sent
    is an initial segment of that sequence: nothing is reordered, merged
    or left out in between. *)
Theorem watch_fifo (c : ComponentConfig) (feed : string -> chan kvstore.Event)
    (key : string) :
  makeConfigPath c = Ok key ->
  let inbound := db.CreateWatchForSubKeys (backend (cManager c)) key feed in
  let ccPathPrefix := db.PathPrefix (backend (cManager c)) +:+ key +:+ "/" in
  (exists (t : task) (c' : ComponentConfig) (out : chan ConfigChangeEvent),
     watch c feed Ranging = Ok (t, c') /\
     changeEventChan c' = Some out /\
     sent out = map (translate ccPathPrefix) (List.filter spec.valid (sent inbound)) /\
     length (sent out) = length (List.filter spec.valid (sent inbound)) /\
     Forall2 (fun e o => spec.matches (kvstore.EventType e) (ChangeType o))
       (List.filter spec.valid (sent inbound)) (sent out)) /\
  forall reader : consumer,
    exists (t : task) (c' : ComponentConfig) (out : chan ConfigChangeEvent),
      watch c feed reader = Ok (t, c') /\
      changeEventChan c' = Some out /\
      sent out `prefix_of`
        map (translate ccPathPrefix) (List.filter spec.valid (sent inbound)).
Proof.
  intros Hkey inbound ccPathPrefix; split.
  - rewrite (watch_eq c feed key Hkey); fold inbound; fold ccPathPrefix.
    eexists _, _, _; split; [reflexivity |]; split; [reflexivity |]; simpl.
    split; [reflexivity |]; split; [apply length_map |].
    apply translate_all_match.
  - intros [|n].
    + rewrite (watch_eq c feed key Hkey); fold inbound; fold ccPathPrefix.
      eexists _, _, _; split; [reflexivity |]; split; [reflexivity |]; simpl.
      reflexivity.
    + rewrite (watch_receiving_eq c feed key n Hkey); fold inbound; fold ccPathPrefix.
      eexists _, _, _; split; [reflexivity |]; split; [reflexivity |]; simpl sent.
      apply prefix_take.
Qed.

Lemma watch_fifo_witness :
  let stream : chan kvstore.Event :=
    {| sent := [ {| kvstore.EventType := kvstore.PUT;
                    kvstore.Key := "/service/voltha/config/rw-core/loglevel/a";
                    kvstore.Value := "1" |};
                 {| kvstore.EventType := kvstore.PUT;
                    kvstore.Key := "/service/voltha/config/rw-core/loglevel/a";
                    kvstore.Value := "2" |};
                 {| kvstore.EventType := kvstore.DELETE;
                    kvstore.Key := "/service/voltha/config/rw-core/loglevel/a";
                    kvstore.Value := "" |} ];
       closed := false;
       capacity := 1 |} in
  exists (t : task) (c' : ComponentConfig) (out : chan ConfigChangeEvent),
    watch (InitComponentConfig scenario.manager "rw-core" ConfigTypeLogLevel)
      (fun _ => stream) Ranging
    = Ok (t, c') /\
    changeEventChan c' = Some out /\
    sent out
    = [ {| ChangeType := Put;
           ConfigAttribute := "/service/voltha/config/rw-core/loglevel/a" |};
        {| ChangeType := Put;
           ConfigAttribute := "/service/voltha/config/rw-core/loglevel/a" |};
        {| ChangeType := Delete;
           ConfigAttribute := "/service/voltha/config/rw-core/loglevel/a" |} ] /\
    length (sent out) = 3%nat /\
    Forall2 (fun e o => spec.matches (kvstore.EventType e) (ChangeType o))
      (sent stream) (sent out).
Proof.
  intros stream.
  exact (proj1 (watch_fifo
                  (InitComponentConfig scenario.manager "rw-core" ConfigTypeLogLevel)
                  (fun _ => stream) "config/rw-core/loglevel" eq_refl)).
Defined.

(** C7: an inbound event whose kind is neither Put nor Delete
    (ConnectionDown, Unknown) yields no outbound event and the task goes
    on with the events after it: what the consumer sees, and where the
    task stands, is the same as if the event had not been in the stream,
    whatever the consumer does. Alone in an open stream, it leaves the
    outbound channel empty and the task waiting for the next event. *)
Theorem watch_drops_other_kinds (c : ComponentConfig)
    (before after : list kvstore.Event) (e : kvstore.Event) (cl : bool)
    (size : nat) (reader : consumer) :
  kvstore.EventType e <> kvstore.PUT ->
  kvstore.EventType e <> kvstore.DELETE ->
  observed (watch c (fun _ => {| sent := before ++ e :: after; closed := cl;
                                 capacity := size |}) reader)
  = observed (watch c (fun _ => {| sent := before ++ after; closed := cl;
                                   capacity := size |}) reader)
  /\ forall key, makeConfigPath c = Ok key ->
       observed (watch c (fun _ => {| sent := [e]; closed := false;
                                      capacity := size |}) reader)
       = Ok (BlockedOnReceive, Some {| sent := []; closed := false; capacity := 1 |}).
Proof.
  intros Hput Hdel.
  assert (He : spec.valid e = false).
  { unfold spec.valid; destruct (kvstore.EventType e); congruence. }
  split.
  - destruct (makeConfigPath c) as [key| |] eqn:Hkey.
    + destruct reader as [|n].
      * rewrite !(watch_eq c _ key Hkey); simpl.
        rewrite !List.filter_app; simpl; now rewrite He.
      * rewrite !(watch_receiving_eq c _ key n Hkey); cbn [db.CreateWatchForSubKeys sent closed].
        rewrite !List.filter_app; simpl List.filter; now rewrite He.
    + unfold watch, MonitorForConfigChange; now rewrite Hkey.
    + unfold watch, MonitorForConfigChange; now rewrite Hkey.
  - intros key Hkey. destruct reader as [|n].
    + rewrite (watch_eq c _ key Hkey); simpl; now rewrite He.
    + rewrite (watch_receiving_eq c _ key n Hkey); simpl; now rewrite He.
Qed.

Lemma watch_drops_other_kinds_witness :
  observed
    (watch (InitComponentConfig scenario.manager "rw-core" ConfigTypeLogLevel)
       (fun _ =>
          {| sent := [ {| kvstore.EventType := kvstore.CONNECTIONDOWN;
                          kvstore.Key := ""; kvstore.Value := "" |} ];
             closed := false;
             capacity := 1 |}) Ranging)
  = Ok (BlockedOnReceive, Some {| sent := []; closed := false; capacity := 1 |}).
Proof.
  refine (proj2 (watch_drops_other_kinds
                   (InitComponentConfig scenario.manager "rw-core"
                      ConfigTypeLogLevel)
                   [] []
                   {| kvstore.EventType := kvstore.CONNECTIONDOWN;
                      kvstore.Key := ""; kvstore.Value := "" |}
                   false 1 Ranging _ _) "config/rw-core/loglevel" eq_refl); discriminate.
Defined.

(** C4, as the code has it: when the inbound channel is closed and the
    consumer keeps receiving, the task forwards every Put and Delete
    event the channel still holds, in order, and returns, and that is
    all: it never closes the outbound channel, which stays open after the
    task has exited. *)
Theorem watch_exits_outbound_open (c : ComponentConfig)
    (feed : string -> chan kvstore.Event) (key : string) :
  makeConfigPath c = Ok key ->
  let inbound := db.CreateWatchForSubKeys (backend (cManager c)) key feed in
  let ccPathPrefix := db.PathPrefix (backend (cManager c)) +:+ key +:+ "/" in
  closed inbound = true ->
  exists (c' : ComponentConfig) (out : chan ConfigChangeEvent),
    watch c feed Ranging = Ok (Exited, c') /\
    changeEventChan c' = Some out /\
    sent out = map (translate ccPathPrefix) (List.filter spec.valid (sent inbound)) /\
    closed out = false.
Proof.
  intros Hkey inbound ccPathPrefix Hclosed.
  rewrite (watch_eq c feed key Hkey); fold inbound; rewrite Hclosed.
  now eexists _, _.
Qed.

Lemma watch_exits_outbound_open_witness :
  exists (c' : ComponentConfig) (out : chan ConfigChangeEvent),
    watch (InitComponentConfig scenario.manager "rw-core" ConfigTypeLogLevel)
      (fun _ =>
         {| sent := [ {| kvstore.EventType := kvstore.PUT;
                         kvstore.Key := "/service/voltha/config/rw-core/loglevel/a";
                         kvstore.Value := "DEBUG" |};
                      {| kvstore.EventType := kvstore.CONNECTIONDOWN;
                         kvstore.Key := ""; kvstore.Value := "" |};
                      {| kvstore.EventType := kvstore.DELETE;
                         kvstore.Key := "/service/voltha/config/rw-core/loglevel/a";
                         kvstore.Value := "" |} ];
            closed := true;
            capacity := 1 |}) Ranging
    = Ok (Exited, c') /\
    changeEventChan c' = Some out /\
    sent out
    = [ {| ChangeType := Put;
           ConfigAttribute := "/service/voltha/config/rw-core/loglevel/a" |};
        {| ChangeType := Delete;
           ConfigAttribute := "/service/voltha/config/rw-core/loglevel/a" |} ] /\
    closed out = false.
Proof.
  exact (watch_exits_outbound_open
           (InitComponentConfig scenario.manager "rw-core" ConfigTypeLogLevel)
           (fun _ =>
              {| sent := [ {| kvstore.EventType := kvstore.PUT;
                              kvstore.Key := "/service/voltha/config/rw-core/loglevel/a";
                              kvstore.Value := "DEBUG" |};
                           {| kvstore.EventType := kvstore.CONNECTIONDOWN;
                              kvstore.Key := ""; kvstore.Value := "" |};
                           {| kvstore.EventType := kvstore.DELETE;
                              kvstore.Key := "/service/voltha/config/rw-core/loglevel/a";
                              kvstore.Value := "" |} ];
                 closed := true;
                 capacity := 1 |})
           "config/rw-core/loglevel" eq_refl eq_refl).
Defined.

(** Against C4 as stated: on a closed inbound channel, with a consumer
    ranging over the outbound channel, the task of the "rw-core"
    log-level handle exits, and the outbound channel is not closed. *)
Lemma watch_outbound_closed_fails :
  ~ (exists (c' : ComponentConfig) (out : chan ConfigChangeEvent),
       watch (InitComponentConfig scenario.manager "rw-core"
                ConfigTypeLogLevel)
         (fun _ => {| sent := []; closed := true; capacity := 1 |}) Ranging
       = Ok (Exited, c') /\
       changeEventChan c' = Some out /\
       closed out = true).
Proof.
  intros (c' & out & Hrun & Hout & Hclosed).
  vm_compute in Hrun.
  injection Hrun as <-.
  simpl in Hout; injection Hout as <-.
  discriminate.
Qed.

(** C3, what the code does: with the manager that [NewConfigManager]
    builds, the prefix the task strips is the backend path prefix joined
    to the config path without a separator, so it never matches a stored
    key; the forwarded [ConfigAttribute] is the whole raw key, not the
    attribute name, whatever the consumer of the outbound channel does. *)
Theorem watch_attribute_is_raw_key
    (kvClient : kvstore.Client) (kvStoreType kvStoreHost : string)
    (kvStorePort kvStoreTimeout : Z)
    (componentLabel cType attributeName value : string)
    (configType : ConfigType) (kind : kvstore.EventKind)
    (size : nat) (reader : consumer) :
  (configType = ConfigTypeLogLevel /\ cType = "loglevel") \/
  (configType = ConfigTypeKafka /\ cType = "kafka") ->
  kind = kvstore.PUT \/ kind = kvstore.DELETE ->
  let cm := NewConfigManager kvClient kvStoreType kvStoreHost kvStorePort kvStoreTimeout in
  let raw := spec.storedKey (db.PathPrefix (backend cm)) (KvStoreConfigPrefix cm)
               componentLabel cType attributeName in
  observed
    (watch (InitComponentConfig cm componentLabel configType)
       (fun _ => {| sent := [ {| kvstore.EventType := kind;
                                 kvstore.Key := raw;
                                 kvstore.Value := value |} ];
                    closed := true;
                    capacity := size |}) reader)
  = Ok (Exited,
        Some {| sent := [ {| ChangeType := ChangeEventType_of kind;
                             ConfigAttribute := raw |} ];
                closed := false;
                capacity := 1 |}).
Proof.
  intros Hty Hkind cm raw.
  assert (Hv : spec.valid {| kvstore.EventType := kind; kvstore.Key := raw;
                             kvstore.Value := value |} = true).
  { destruct Hkind as [-> | ->]; reflexivity. }
  destruct reader as [|n].
  - rewrite (watch_eq _ _ _ (makeConfigPath_known cm componentLabel cType configType Hty)).
    simpl. rewrite Hv; reflexivity.
  - rewrite (watch_receiving_eq _ _ _ n
               (makeConfigPath_known cm componentLabel cType configType Hty)).
    simpl. rewrite Hv. cbn [map length Nat.leb take]. rewrite take_nil. reflexivity.
Qed.

Lemma watch_attribute_is_raw_key_witness :
  observed
    (watch (InitComponentConfig scenario.manager "rw-core" ConfigTypeLogLevel)
       (fun _ => {| sent := [ {| kvstore.EventType := kvstore.PUT;
                                 kvstore.Key :=
                                   "/service/voltha/config/rw-core/loglevel/default";
                                 kvstore.Value := "DEBUG" |} ];
                    closed := true;
                    capacity := 1 |}) Ranging)
  = Ok (Exited,
        Some {| sent := [ {| ChangeType := Put;
                             ConfigAttribute :=
                               "/service/voltha/config/rw-core/loglevel/default" |} ];
                closed := false;
                capacity := 1 |}).
Proof.
  exact (watch_attribute_is_raw_key (kvstore.EtcdClient "127.0.0.1:2379" 1) "etcd"
           "127.0.0.1" 2379 1 "rw-core" "loglevel" "default" "DEBUG"
           ConfigTypeLogLevel kvstore.PUT 1 Ranging
           (or_introl (conj eq_refl eq_refl)) (or_introl eq_refl)).
Defined.

End Watch.

(** ** Listing one component *)

Section RetrieveAllFacts.

Import config.

Variable range : gmap string string -> list (string * string).
Hypothesis range_perm : forall m, range m ≡ₚ map_to_list m.

Lemma elem_of_range (m : gmap string string) (k v : string) :
  (k, v) ∈ range m <-> m !! k = Some v.
Proof. rewrite (range_perm m); apply elem_of_map_to_list. Qed.

Lemma List_connected (b : db.Backend) (key : string) (st : Store) :
  connected st = true ->
  db.List b key st
  = (Ok (filter (fun kv => strings.HasPrefix kv.1 (db.makePath b key) = true)
                (contents st)), st).
Proof. intros Hup; unfold db.List; now rewrite Hup. Qed.

Lemma elem_of_listed (b : db.Backend) (key : string) (st : Store) (k v : string) :
  (k, v) ∈ range (filter (fun kv => strings.HasPrefix kv.1 (db.makePath b key) = true)
                         (contents st))
  <-> contents st !! k = Some v /\ strings.HasPrefix k (db.makePath b key) = true.
Proof. rewrite elem_of_range, map_lookup_filter_Some; reflexivity. Qed.

(** The map that the loop of [RetrieveAll] builds holds [v] at [a] when
    some visited pair lands on [a] and every pair that does carries
    [v]. *)
Lemma collect_lookup (f g : string -> string) (a v : string)
    (l : list (string * string)) :
  forall acc : gmap string string,
    (forall k val, (k, val) ∈ l -> f k = a -> g val = v) ->
    (acc !! a = Some v \/ exists k val, (k, val) ∈ l /\ f k = a) ->
    foldl (fun res '(attr, val) => <[f attr := g val]> res) acc l !! a = Some v.
Proof.
  induction l as [|[k val] l IH]; intros acc Hall Hex; simpl.
  - destruct Hex as [H | (k & val & H & _)]; [exact H | inversion H].
  - apply IH.
    + intros k' val' Hin; apply Hall; now right.
    + destruct (decide (f k = a)) as [Heq | Hne].
      * left; rewrite Heq, lookup_insert_eq; f_equal; apply (Hall k val); [left | exact Heq].
      * destruct Hex as [H | (k' & val' & Hin & Hf)].
        -- left; now rewrite lookup_insert_ne.
        -- apply elem_of_cons in Hin as [[= -> ->] | Hin]; [contradiction |].
           right; now exists k', val'.
Qed.

(** A pair that lands on an attribute other than [a] does not change
    what the map holds at [a]. *)
Lemma collect_lookup_None (f g : string -> string) (a : string)
    (l : list (string * string)) :
  forall acc : gmap string string,
    (forall k val, (k, val) ∈ l -> f k <> a) ->
    foldl (fun res '(attr, val) => <[f attr := g val]> res) acc l !! a = acc !! a.
Proof.
  induction l as [|[k val] l IH]; intros acc Hall; simpl; [reflexivity |].
  rewrite IH by (intros k' val' Hin; apply (Hall k' val'); now right).
  apply lookup_insert_ne, (Hall k val); left.
Qed.

Lemma RetrieveAll_connected (c : ComponentConfig) (key : string) (st : Store) :
  makeConfigPath c = Ok key ->
  connected st = true ->
  RetrieveAll range c st
  = (Ok (foldl (fun res '(attr, val) =>
                  <[strings.TrimPrefix attr
                      (db.PathPrefix (backend (cManager c)) +:+ "/" +:+ key +:+ "/")
                    := strings.Trim val quote]> res)
               ∅
               (range (filter (fun kv => strings.HasPrefix kv.1
                                           (db.makePath (backend (cManager c)) key) = true)
                              (contents st)))),
     st).
Proof.
  intros Hkey Hup; unfold RetrieveAll, bind, lift, ret.
  now rewrite Hkey, (List_connected _ _ _ Hup).
Qed.

Lemma TrimLeft_quote (v : string) :
  (forall r, v <> quote +:+ r) -> strings.TrimLeft v quote = v.
Proof.
  destruct v as [|c v]; intros H; simpl; [reflexivity |].
  destruct (Ascii.eqb_spec c "034") as [-> | _]; [|reflexivity].
  now destruct (H v).
Qed.

Lemma TrimRight_quote (v : string) :
  (forall r, v <> r +:+ quote) -> strings.TrimRight v quote = v.
Proof.
  induction v as [|c v IH]; intros H; [reflexivity |].
  destruct v as [|d v].
  - simpl; destruct (Ascii.eqb_spec c "034") as [-> | _]; [|reflexivity].
    now destruct (H "").
  - change (strings.TrimRight (String c (String d v)) quote)
      with (match strings.TrimRight (String d v) quote with
            | "" => if strings.IndexByte quote c then "" else String c ""
            | r => String c r
            end).
    rewrite IH; [reflexivity |].
    intros r Hr; apply (H (String c r)); simpl; now rewrite Hr.
Qed.

Lemma Trim_quote (v : string) :
  (forall r, v <> quote +:+ r) -> (forall r, v <> r +:+ quote) ->
  strings.Trim v quote = v.
Proof.
  intros Hl Hr; unfold strings.Trim.
  rewrite (TrimLeft_quote v Hl); now apply TrimRight_quote.
Qed.

(** C5, as the code has it: after [Save c attr v], [RetrieveAll] on the
    same handle returns a mapping that holds at [attr] the value [v] with
    every leading and every trailing double quote removed (not one layer
    of them); so [attr -> v] itself is returned for every [v] that
    neither begins nor ends with a double quote. The attribute name is
    recovered by stripping the handle's path prefix from the key; this
    needs [attr] not to begin with the handle's own store path. *)
Theorem RetrieveAll_after_Save (c : ComponentConfig) (attr v : string)
    (st st' : Store) :
  Save c attr v st = (Ok tt, st') ->
  (forall key, makeConfigPath c = Ok key ->
     strings.HasPrefix attr (db.makePath (backend (cManager c)) key) = false) ->
  exists res : gmap string string,
    RetrieveAll range c st' = (Ok res, st') /\
    res !! attr = Some (strings.Trim v quote) /\
    ((forall r, v <> quote +:+ r) -> (forall r, v <> r +:+ quote) ->
     res !! attr = Some v).
Proof.
  intros Hsave Hattr.
  unfold Save, bind, lift in Hsave.
  destruct (makeConfigPath c) as [key| |] eqn:Hkey; try discriminate.
  specialize (Hattr key eq_refl).
  unfold db.Put in Hsave.
  destruct (connected st) eqn:Hup; [|discriminate].
  injection Hsave as <-.
  set (b := backend (cManager c)) in *.
  set (st' := {| contents := _; connected := _ |}).
  rewrite (RetrieveAll_connected c key st' Hkey eq_refl); fold b.
  set (P := db.PathPrefix b +:+ "/" +:+ key +:+ "/").
  assert (Hstored : db.makePath b (key +:+ String "/" attr) = P +:+ attr).
  { change (String "/" attr) with ("/" +:+ attr).
    unfold db.makePath, P; now rewrite !append_assoc. }
  assert (HP : P +:+ attr = db.makePath b key +:+ "/" +:+ attr).
  { unfold db.makePath, P; now rewrite !append_assoc. }
  eexists; split; [reflexivity |].
  assert (Hres : foldl (fun (res : gmap string string) '(attr0, val) =>
                          <[strings.TrimPrefix attr0 P := strings.Trim val quote]> res)
                   ∅ (range (filter (fun kv => strings.HasPrefix kv.1 (db.makePath b key) = true)
                                    (contents st'))) !! attr
                 = Some (strings.Trim v quote)).
  { apply (collect_lookup (fun k => strings.TrimPrefix k P)
             (fun val => strings.Trim val quote)).
    - intros k val Hin Hk.
      apply elem_of_listed in Hin as [Hlook Hpre].
      apply TrimPrefix_inv in Hk as [-> | [-> _]]; [|congruence].
      cbn [contents st'] in Hlook.
      rewrite Hstored, lookup_insert_eq in Hlook; congruence.
    - right; exists (P +:+ attr), v; split; [|apply TrimPrefix_app].
      apply elem_of_listed; split.
      + cbn [contents st']; rewrite Hstored; apply lookup_insert_eq.
      + rewrite HP; apply HasPrefix_app. }
  split; [exact Hres |].
  intros Hl Hr; now rewrite Hres, (Trim_quote v Hl Hr).
Qed.

End RetrieveAllFacts.

Section RetrieveAllExamples.

Import config.

Lemma RetrieveAll_after_Save_witness :
  exists res : gmap string string,
    RetrieveAll map_to_list
      (InitComponentConfig scenario.manager "rw-core" ConfigTypeLogLevel)
      {| contents := {[ "/service/voltha/config/rw-core/loglevel/default" := "DEBUG" ]};
         connected := true |}
    = (Ok res,
       {| contents := {[ "/service/voltha/config/rw-core/loglevel/default" := "DEBUG" ]};
          connected := true |}) /\
    res !! "default" = Some "DEBUG".
Proof.
  destruct (RetrieveAll_after_Save map_to_list (fun m => Permutation_refl (map_to_list m))
              (InitComponentConfig scenario.manager "rw-core" ConfigTypeLogLevel)
              "default" "DEBUG"
              {| contents := ∅; connected := true |}
              {| contents :=
                   {[ "/service/voltha/config/rw-core/loglevel/default" := "DEBUG" ]};
                 connected := true |}
              eq_refl)
    as (res & Hres & Hlook & _).
  { intros key [= <-]; reflexivity. }
  exists res; split; [exact Hres | exact Hlook].
Defined.

(** Against C5 as stated: the value ["DEBUG"] saved with its double
    quotes does not read back as saved. *)
Lemma RetrieveAll_quoted_value_fails :
  ~ (exists (res : gmap string string) (st' : Store),
       Save (InitComponentConfig scenario.manager "rw-core" ConfigTypeLogLevel)
         "default" (quote +:+ "DEBUG" +:+ quote) {| contents := ∅; connected := true |}
       = (Ok tt, st') /\
       RetrieveAll map_to_list
         (InitComponentConfig scenario.manager "rw-core" ConfigTypeLogLevel) st'
       = (Ok res, st') /\
       res !! "default" = Some (quote +:+ "DEBUG" +:+ quote)).
Proof.
  intros (res & st' & Hsave & Hall & Hlook).
  injection Hsave as <-.
  vm_compute in Hall.
  injection Hall as <-.
  vm_compute in Hlook.
  discriminate.
Qed.

End RetrieveAllExamples.

(** ** The global default level when listing one component *)

Section GlobalDefault.

Import config commands.

Variable range : gmap string string -> list (string * string).

(** C2, as the code has it: a non-empty global default level is written
    into the component's attribute map under the default attribute key
    whatever the component has stored there, so it replaces the
    component's own default; the other attributes are the component's.
    With an empty global level the component's map is returned as it is.
    Both the function that is given the global level and the controller
    method that reads it first do so. *)
Theorem listComponentNameConfig_global_overrides (cConfig : ComponentConfig)
    (globalLevel : string) (own : gmap string string) (st st' : Store) :
  RetrieveAll range cConfig st = (Ok own, st') ->
  (exists res : gmap string string,
     listComponentNameConfig range cConfig globalLevel st = (Ok res, st') /\
     (globalLevel <> "" ->
      res !! defaultPackageName = Some globalLevel /\
      forall a, a <> defaultPackageName -> res !! a = own !! a) /\
     (globalLevel = "" -> res = own))
  /\
  (forall (c : componentLogController) (st0 : Store),
     componentLogController_listGlobalConfig range c st0 = (Ok globalLevel, st) ->
     componentNameConfig c = Some cConfig ->
     exists res : gmap string string,
       componentLogController_listComponentNameConfig range c st0 = (Ok res, st') /\
       (globalLevel <> "" ->
        res !! "default" = Some globalLevel /\
        forall a, a <> "default" -> res !! a = own !! a) /\
       (globalLevel = "" -> res = own)).
Proof.
  intros Hown.
  assert (Hcases : forall res : gmap string string,
            res = (if negb (String.eqb globalLevel "")
                   then <["default" := globalLevel]> own else own) ->
            (globalLevel <> "" ->
             res !! "default" = Some globalLevel /\
             forall a, a <> "default" -> res !! a = own !! a) /\
            (globalLevel = "" -> res = own)).
  { intros res ->; split.
    - intros Hne; apply String.eqb_neq in Hne; rewrite Hne; simpl; split.
      + apply lookup_insert_eq.
      + intros a Ha; now apply lookup_insert_ne.
    - intros ->; reflexivity. }
  split.
  - eexists; split; [|apply Hcases; reflexivity].
    unfold listComponentNameConfig, bind, ret; now rewrite Hown.
  - intros c st0 Hglobal Hc.
    eexists; split; [|apply Hcases; reflexivity].
    unfold componentLogController_listComponentNameConfig, bind, ret.
    rewrite Hglobal, Hc; simpl; now rewrite Hown.
Qed.

End GlobalDefault.

Section GlobalDefaultExamples.

Import config commands.

Lemma layered_RetrieveAll :
  RetrieveAll map_to_list (InitComponentConfig scenario.manager "X" ConfigTypeLogLevel)
    scenario.layered
  = (Ok {[ "default" := "DEBUG" ]}, scenario.layered).
Proof. vm_compute; reflexivity. Qed.

Lemma listComponentNameConfig_global_overrides_witness :
  exists res : gmap string string,
    listComponentNameConfig map_to_list
      (InitComponentConfig scenario.manager "X" ConfigTypeLogLevel) "INFO"
      scenario.layered
    = (Ok res, scenario.layered) /\
    res !! "default" = Some "INFO".
Proof.
  destruct (proj1 (listComponentNameConfig_global_overrides map_to_list
                     (InitComponentConfig scenario.manager "X" ConfigTypeLogLevel)
                     "INFO" {[ "default" := "DEBUG" ]}
                     scenario.layered scenario.layered layered_RetrieveAll))
    as (res & Hres & Hover & _).
  exists res; split; [exact Hres |].
  apply Hover; discriminate.
Defined.

(** Against C2 as stated: with a global default of INFO and DEBUG saved
    on the default attribute of "X", the mapping returned for "X" does
    not hold the component's DEBUG under the default attribute, for the
    function given the global level and for the controller method
    alike. *)
Lemma listComponentNameConfig_own_default_fails :
  ~ (exists res : gmap string string,
       listComponentNameConfig map_to_list
         (InitComponentConfig scenario.manager "X" ConfigTypeLogLevel) "INFO"
         scenario.layered
       = (Ok res, scenario.layered) /\
       res !! "default" = Some "DEBUG")
  /\
  ~ (exists res : gmap string string,
       componentLogController_listComponentNameConfig map_to_list
         (createComponentConfig scenario.manager
            (NewComponentLogController scenario.manager) "X") scenario.layered
       = (Ok res, scenario.layered) /\
       res !! "default" = Some "DEBUG").
Proof.
  assert (Hnew : listComponentNameConfig map_to_list
                   (InitComponentConfig scenario.manager "X" ConfigTypeLogLevel) "INFO"
                   scenario.layered
                 = (Ok {[ "default" := "INFO" ]}, scenario.layered))
    by (vm_compute; reflexivity).
  assert (Hold : componentLogController_listComponentNameConfig map_to_list
                   (createComponentConfig scenario.manager
                      (NewComponentLogController scenario.manager) "X")
                   scenario.layered
                 = (Ok {[ "default" := "INFO" ]}, scenario.layered))
    by (vm_compute; reflexivity).
  split; intros (res & Hres & Hlook).
  - rewrite Hnew in Hres; injection Hres as <-.
    rewrite lookup_singleton_eq in Hlook; discriminate.
  - rewrite Hold in Hres; injection Hres as <-.
    rewrite lookup_singleton_eq in Hlook; discriminate.
Qed.

End GlobalDefaultExamples.

(** ** Listing across components *)

Section RetrieveListFacts.

Import config.

Variable range : gmap string string -> list (string * string).
Hypothesis range_perm : forall m, range m ≡ₚ map_to_list m.

Lemma index_no_error {A : Type} (l : list A) (i : Z) (e : error) : index l i <> Err e.
Proof.
  unfold index; destruct ((0 <=? i) && (i <? Z.of_nat (length l)));
    [destruct (l !! Z.to_nat i) |]; discriminate.
Qed.

(** A key without the [/configTypeString/] segment is not split: the
    second piece that the loop reads does not exist. *)
Lemma listEntry_unsplit (ccPathPrefix pathPrefix attr val : string) :
  strings.Contains attr ccPathPrefix = false ->
  exists p, listEntry ccPathPrefix pathPrefix attr val = Panic p.
Proof.
  unfold strings.Contains, listEntry; intros Hcut.
  destruct (strings.Cut attr ccPathPrefix) as [[? ?]|] eqn:E; [discriminate |].
  change (strings.SplitN attr ccPathPrefix 2) with
    (match strings.Cut attr ccPathPrefix with
     | Some (before, after) => [before; after]
     | None => [attr]
     end).
  change (strings.SplitAfterN attr ccPathPrefix 2) with
    (match strings.Cut attr ccPathPrefix with
     | Some (before, after) => [before +:+ ccPathPrefix; after]
     | None => [attr]
     end).
  rewrite E.
  change (index [attr] 0) with (Ok attr); cbn [rbind].
  generalize (index_no_error (strings.SplitN attr pathPrefix 2) 1).
  generalize (index (strings.SplitN attr pathPrefix 2) 1).
  intros [cname1|e|p] Hne; cbn [rbind].
  - eexists; reflexivity.
  - now destruct (Hne e).
  - now exists p.
Qed.

Lemma rbind_no_error {A B : Type} (r : result A) (k : A -> result B) :
  (forall e, r <> Err e) -> (forall a e, k a <> Err e) ->
  forall e, rbind r k <> Err e.
Proof.
  intros Hr Hk e; destruct r as [a|e'|p]; simpl; [apply Hk | | congruence].
  now destruct (Hr e').
Qed.

Lemma listEntry_no_error (ccPathPrefix pathPrefix attr val : string) (e : error) :
  listEntry ccPathPrefix pathPrefix attr val <> Err e.
Proof.
  unfold listEntry; cbv zeta; revert e.
  apply rbind_no_error; [intros e; apply index_no_error | intros cName0].
  apply rbind_no_error; [intros e; apply index_no_error | intros cname1].
  apply rbind_no_error; [intros e; apply index_no_error | intros pName1 e].
  congruence.
Qed.

(** The loop has no recovery: one entry that panics makes the whole
    listing panic, at that entry or at an earlier one. *)
Lemma listEntries_panics (ccPathPrefix pathPrefix : string)
    (data : list (string * string)) :
  forall rows attr val,
    (attr, val) ∈ data ->
    (exists p, listEntry ccPathPrefix pathPrefix attr val = Panic p) ->
    exists p, listEntries ccPathPrefix pathPrefix data rows = Panic p.
Proof.
  induction data as [|[k v] data IH]; intros rows attr val Hin Hpanic.
  - inversion Hin.
  - simpl.
    destruct (listEntry ccPathPrefix pathPrefix k v) as [l|e|p] eqn:Hk; simpl.
    + apply elem_of_cons in Hin as [[= -> ->] | Hin].
      * destruct Hpanic as [p Hp]; congruence.
      * now apply (IH _ attr val).
    + now apply listEntry_no_error in Hk.
    + now exists p.
Qed.

(** C6, what the code does: when the store holds, under the shared
    config prefix, a key without the [/configTypeString/] segment of the
    handle's config type, [RetrieveList] panics on an index out of range;
    no error is returned to the caller. *)
Theorem RetrieveList_panics_without_segment (c : ComponentConfig)
    (cType key value : string) (st : Store) :
  ConfigType_String (configType c) = Ok cType ->
  connected st = true ->
  contents st !! key = Some value ->
  strings.HasPrefix key
    (db.makePath (backend (cManager c)) (KvStoreConfigPrefix (cManager c))) = true ->
  strings.Contains key ("/" +:+ cType +:+ "/") = false ->
  exists p, RetrieveList range c st = (Panic p, st).
Proof.
  intros Hty Hup Hkey Hpre Hseg.
  unfold RetrieveList, bind, lift.
  rewrite (List_connected _ _ _ Hup), Hty.
  destruct (listEntries_panics
              (kvStorePathSeparator +:+ cType +:+ kvStorePathSeparator)
              (kvStorePathSeparator +:+ KvStoreConfigPrefix (cManager c) +:+
               kvStorePathSeparator)
              (range (filter (fun kv => strings.HasPrefix kv.1
                                          (db.makePath (backend (cManager c))
                                             (KvStoreConfigPrefix (cManager c))) = true)
                             (contents st)))
              [] key value) as [p Hp].
  - apply (elem_of_listed range range_perm); now split.
  - now apply listEntry_unsplit.
  - exists p; now rewrite Hp.
Qed.

End RetrieveListFacts.

Section RetrieveListExamples.

Import config.

Lemma RetrieveList_panics_without_segment_witness :
  exists p,
    RetrieveList map_to_list
      (InitComponentConfig scenario.manager "rw-core" ConfigTypeLogLevel)
      scenario.mixed
    = (Panic p, scenario.mixed).
Proof.
  apply (RetrieveList_panics_without_segment map_to_list
           (fun m => Permutation_refl (map_to_list m))
           (InitComponentConfig scenario.manager "rw-core" ConfigTypeLogLevel)
           "loglevel" "/service/voltha/config/rw-core/kafka/topic" "voltha" scenario.mixed).
  - reflexivity.
  - reflexivity.
  - vm_compute; reflexivity.
  - reflexivity.
  - reflexivity.
Defined.

End RetrieveListExamples.

(** ** The [#] escape of package names *)

Section ClientCreationFacts.

Import config.

Variable NewEtcdClient : string -> Z -> result kvstore.Client.

(** The commands ask for an etcd client at 127.0.0.1:2379 with a
    timeout of one second, and build their manager around it. *)
Lemma createConfigManager_ok (client : kvstore.Client) :
  NewEtcdClient "127.0.0.1:2379" 1 = Ok client ->
  commands.createConfigManager NewEtcdClient
  = Ok (NewConfigManager client "etcd" "127.0.0.1" 2379 1).
Proof.
  intros Hclient.
  cbv -[NewConfigManager]. now rewrite Hclient.
Qed.

Lemma createConfigManager_err (err : error) :
  NewEtcdClient "127.0.0.1:2379" 1 = Err err ->
  commands.createConfigManager NewEtcdClient = Err err.
Proof.
  intros Hclient.
  cbv -[NewConfigManager]. now rewrite Hclient.
Qed.

(** The earlier commands ask for the same client with a timeout of five
    seconds. *)
Lemma setKVClient_ok (client : kvstore.Client) :
  NewEtcdClient "127.0.0.1:2379" 5 = Ok client ->
  controller.setKVClient NewEtcdClient controller.NewKVStore
  = Ok (NewConfigManager client "etcd" "127.0.0.1" 2379 5).
Proof.
  intros Hclient.
  cbv -[NewConfigManager]. now rewrite Hclient.
Qed.

Lemma setKVClient_err (err : error) :
  NewEtcdClient "127.0.0.1:2379" 5 = Err err ->
  controller.setKVClient NewEtcdClient controller.NewKVStore = Err err.
Proof.
  intros Hclient.
  cbv -[NewConfigManager]. now rewrite Hclient.
Qed.

End ClientCreationFacts.

Section Escape.

Import config commands.

Variable NewEtcdClient : string -> Z -> result kvstore.Client.

Variable range : gmap string string -> list (string * string).
Hypothesis range_perm : forall m, range m ≡ₚ map_to_list m.

Variable StringToLogLevel : string -> option Z.

Lemma Contains_cons_char (c a : ascii) (s : string) :
  strings.Contains (String c s) (String a "")
  = Ascii.eqb c a || strings.Contains s (String a "").
Proof.
  unfold strings.Contains; rewrite Cut_unfold; simpl.
  destruct (Ascii.eqb c a); simpl; [reflexivity |].
  now destruct (strings.Cut s (String a "")) as [[? ?]|].
Qed.

(** A one-byte separator is found right after a piece that does not
    hold it. *)
Lemma Cut_char (ch : ascii) (a b : string) :
  strings.Contains a (String ch "") = false ->
  strings.Cut (a +:+ String ch b) (String ch "") = Some (a, b).
Proof.
  induction a as [|x a IH]; intros Ha; rewrite Cut_unfold; simpl.
  - now rewrite Ascii.eqb_refl.
  - rewrite Contains_cons_char in Ha; apply orb_false_elim in Ha as [Hx Ha].
    now rewrite Hx, (IH Ha).
Qed.

Lemma length_append (a b : string) :
  String.length (a +:+ b) = (String.length a + String.length b)%nat.
Proof. induction a as [|x a IH]; simpl; [reflexivity | now rewrite IH]. Qed.

Lemma Split_hash_pair (component pkg : string) :
  strings.Contains component "#" = false ->
  strings.Contains pkg "#" = false ->
  strings.Split (component +:+ "#" +:+ pkg) "#" = [component; pkg].
Proof.
  intros Hc Hp; unfold strings.Split.
  rewrite length_append; simpl String.length.
  replace (String.length component + S (String.length pkg))%nat
    with (S (String.length component + String.length pkg)) by lia.
  change (strings.SplitN (component +:+ "#" +:+ pkg) "#"
            (S (S (String.length component + String.length pkg))))
    with (match strings.Cut (component +:+ "#" +:+ pkg) "#" with
          | Some (before, after) =>
              before :: strings.SplitN after "#"
                          (S (String.length component + String.length pkg))
          | None => [component +:+ "#" +:+ pkg]
          end).
  change ("#" +:+ pkg) with (String "#" pkg).
  rewrite (Cut_char "#" component pkg Hc); f_equal.
  destruct (String.length component + String.length pkg)%nat; [reflexivity |].
  simpl; unfold strings.Contains in Hp.
  now destruct (strings.Cut pkg "#") as [[? ?]|].
Qed.

Lemma ReplaceAll_cons_char (a b c : ascii) (s : string) :
  strings.ReplaceAll (String c s) (String a "") (String b "")
  = String (if Ascii.eqb c a then b else c)
           (strings.ReplaceAll s (String a "") (String b "")).
Proof.
  unfold strings.ReplaceAll; simpl; unfold strings.HasPrefix; simpl.
  now destruct (Ascii.eqb c a).
Qed.

(** Decoding undoes encoding on a name that holds no [#] of its own. *)
Lemma ReplaceAll_decode_encode (s : string) :
  strings.Contains s "#" = false ->
  strings.ReplaceAll (strings.ReplaceAll s "/" "#") "#" "/" = s.
Proof.
  induction s as [|c s IH]; intros Hs; [reflexivity |].
  rewrite Contains_cons_char in Hs; apply orb_false_elim in Hs as [Hc Hs].
  rewrite !ReplaceAll_cons_char, (IH Hs); f_equal.
  destruct (Ascii.eqb_spec c "/") as [-> | Hne]; [reflexivity |].
  now rewrite Hc.
Qed.

Lemma ReplaceAll_nonempty (s : string) :
  s <> "" -> strings.ReplaceAll s "/" "#" <> "".
Proof. destruct s; [congruence |]; intros _; now rewrite ReplaceAll_cons_char. Qed.

Lemma processCommandArgs_escaped (component pkg : string) :
  strings.Contains component "#" = false ->
  strings.Contains pkg "#" = false ->
  processCommandArgs (component +:+ "#" +:+ pkg)
  = Ok {| model.ComponentName := component;
          model.PackageName := strings.ReplaceAll pkg "/" "#";
          model.Level := "" |}.
Proof.
  intros Hc Hp; unfold processCommandArgs.
  rewrite (Split_hash_pair component pkg Hc Hp).
  unfold strings.Contains.
  change ("#" +:+ pkg) with (String "#" pkg).
  now rewrite (Cut_char "#" component pkg Hc).
Qed.

(** The rows of one component: a row already collected stays, and every
    visited attribute with a valid level and a non-empty name adds its
    row, with the name decoded. *)
Lemma populate_rows (componentName : string) (l : list (string * string)) :
  forall data : list model.LogLevel,
    let rows :=
      foldl (fun (data : list model.LogLevel) '(packageName, level) =>
               if negb (bool_decide (is_Some (StringToLogLevel level)))
                  || String.eqb packageName ""
               then data
               else (data ++ [{| model.ComponentName := componentName;
                                 model.PackageName :=
                                   strings.ReplaceAll packageName "#" "/";
                                 model.Level := level |}])%list)
            data l in
    (forall row, row ∈ data -> row ∈ rows) /\
    (forall packageName level,
       (packageName, level) ∈ l ->
       is_Some (StringToLogLevel level) ->
       packageName <> "" ->
       {| model.ComponentName := componentName;
          model.PackageName := strings.ReplaceAll packageName "#" "/";
          model.Level := level |} ∈ rows).
Proof.
  induction l as [|[k v] l IH]; intros data; simpl.
  - split; [auto | intros ? ? H; inversion H].
  - match goal with |- context [foldl _ ?d l] => destruct (IH d) as [Hkeep Hnew] end.
    split.
    + intros row Hrow; apply Hkeep.
      destruct (negb _ || _); [exact Hrow | apply elem_of_app; now left].
    + intros packageName level Hin Hvalid Hname.
      apply elem_of_cons in Hin as [[= -> ->] | Hin]; [|now apply Hnew].
      apply Hkeep.
      rewrite (bool_decide_eq_true_2 _ Hvalid); simpl.
      apply String.eqb_neq in Hname; rewrite Hname.
      apply elem_of_app; right; apply list_elem_of_singleton; reflexivity.
Qed.


End Escape.

Section EscapeExamples.

Import config commands.


End EscapeExamples.

(** * Further properties of the operations *)

(** ** Writes and deletes *)

Section CrudLaws.

Import config.

Lemma Save_Ok_inv (c : ComponentConfig) (configKey configValue : string) (st st1 : Store) :
  Save c configKey configValue st = (Ok tt, st1) ->
  exists path,
    makeConfigPath c = Ok path /\ connected st = true /\
    st1 = {| contents :=
               <[db.PathPrefix (backend (cManager c)) +:+ "/" +:+ path +:+ "/" +:+ configKey
                 := configValue]> (contents st);
             connected := true |}.
Proof.
  intros Hsave.
  destruct (makeConfigPath c) as [path| |] eqn:Hpath;
    [|unfold Save, bind, lift in Hsave; rewrite Hpath in Hsave; discriminate ..].
  destruct (connected st) eqn:Hup.
  - rewrite (Save_connected c path _ _ _ Hpath Hup) in Hsave.
    injection Hsave as <-; now exists path.
  - unfold Save, bind, lift, db.Put in Hsave; rewrite Hpath, Hup in Hsave; discriminate.
Qed.

Lemma Delete_connected (c : ComponentConfig) (path configKey : string) (st : Store) :
  makeConfigPath c = Ok path ->
  connected st = true ->
  ComponentConfig_Delete c configKey st
  = (Ok tt,
     {| contents :=
          delete (db.PathPrefix (backend (cManager c)) +:+ "/" +:+ path +:+ "/" +:+ configKey)
                 (contents st);
        connected := true |}).
Proof.
  intros Hpath Hup; unfold ComponentConfig_Delete, bind, lift; rewrite Hpath.
  unfold db.Delete, db.makePath; now rewrite !Hup.
Qed.

Lemma ConfigType_String_out_of_range (configType : ConfigType) :
  configType <> ConfigTypeLogLevel -> configType <> ConfigTypeKafka ->
  ConfigType_String configType = Panic (IndexOutOfRange configType 2).
Proof.
  unfold ConfigType_String, index, ConfigTypeLogLevel, ConfigTypeKafka; intros H0 H1.
  change (Z.of_nat (length ["loglevel"; "kafka"])) with 2.
  destruct (Z.leb_spec 0 configType), (Z.ltb_spec configType 2); simpl;
    try reflexivity; lia.
Qed.

(** X1: a second [Save] of the same attribute replaces the value: saving
    [v2] over [v1] succeeds and leaves the store exactly as saving [v2]
    alone would. *)
Theorem Save_replaces (c : ComponentConfig) (configKey v1 v2 : string) (st st1 : Store) :
  Save c configKey v1 st = (Ok tt, st1) ->
  exists st2,
    Save c configKey v2 st1 = (Ok tt, st2) /\
    Save c configKey v2 st = (Ok tt, st2).
Proof.
  intros Hsave; apply Save_Ok_inv in Hsave as (path & Hpath & Hup & Hst1).
  assert (Hup1 : connected st1 = true) by now subst st1.
  rewrite (Save_connected c path _ _ st1 Hpath Hup1),
          (Save_connected c path _ _ st Hpath Hup).
  subst st1; simpl; rewrite insert_insert_eq; now eexists.
Qed.

Lemma Save_replaces_witness :
  exists st2,
    Save (InitComponentConfig scenario.manager "rw-core" ConfigTypeLogLevel)
      "default" "INFO"
      {| contents := {[ "/service/voltha/config/rw-core/loglevel/default" := "DEBUG" ]};
         connected := true |}
    = (Ok tt, st2) /\
    Save (InitComponentConfig scenario.manager "rw-core" ConfigTypeLogLevel)
      "default" "INFO" scenario.empty
    = (Ok tt, st2).
Proof.
  exact (Save_replaces
           (InitComponentConfig scenario.manager "rw-core" ConfigTypeLogLevel)
           "default" "DEBUG" "INFO" scenario.empty _ eq_refl).
Defined.

(** X2: on a store that cannot be reached, [Save], [Delete], [RetrieveAll]
    and [RetrieveList] return the backend's error as it is and leave the
    store untouched; [RetrieveList] does so whatever the handle's config
    type, because it lists before it looks at the type. *)
Theorem unreachable_store_errors (range : gmap string string -> list (string * string))
    (c : ComponentConfig) (path configKey configValue : string) (st : Store) :
  connected st = false ->
  RetrieveList range c st = (Err db.unavailable, st) /\
  (makeConfigPath c = Ok path ->
   Save c configKey configValue st = (Err db.unavailable, st) /\
   ComponentConfig_Delete c configKey st = (Err db.unavailable, st) /\
   RetrieveAll range c st = (Err db.unavailable, st)).
Proof.
  intros Hdown; split.
  - unfold RetrieveList, bind, db.List; now rewrite Hdown.
  - intros Hpath; repeat split.
    + unfold Save, bind, lift, db.Put; now rewrite Hpath, Hdown.
    + unfold ComponentConfig_Delete, bind, lift, db.Delete; now rewrite Hpath, Hdown.
    + unfold RetrieveAll, bind, lift, db.List; now rewrite Hpath, Hdown.
Qed.

Lemma unreachable_store_errors_witness :
  RetrieveList map_to_list
    (InitComponentConfig scenario.manager "rw-core" 7)
    {| contents := ∅; connected := false |}
  = (Err db.unavailable, {| contents := ∅; connected := false |}).
Proof.
  exact (proj1 (unreachable_store_errors map_to_list
                  (InitComponentConfig scenario.manager "rw-core" 7)
                  "" "" "" {| contents := ∅; connected := false |} eq_refl)).
Defined.

(** X3: [Delete] is idempotent: deleting an attribute that is not stored
    succeeds and leaves the store as it is, and after a successful delete
    a second one succeeds and changes nothing. *)
Theorem Delete_idempotent (c : ComponentConfig) (path configKey : string) (st : Store) :
  makeConfigPath c = Ok path ->
  connected st = true ->
  (contents st
     !! (db.PathPrefix (backend (cManager c)) +:+ "/" +:+ path +:+ "/" +:+ configKey)
   = None ->
   ComponentConfig_Delete c configKey st = (Ok tt, st)) /\
  (forall st1,
     ComponentConfig_Delete c configKey st = (Ok tt, st1) ->
     ComponentConfig_Delete c configKey st1 = (Ok tt, st1)).
Proof.
  intros Hpath Hup; split.
  - intros Hnone; rewrite (Delete_connected c path _ _ Hpath Hup), (delete_id _ _ Hnone).
    destruct st as [m up]; simpl in *; now subst up.
  - intros st1; rewrite (Delete_connected c path _ _ Hpath Hup); intros [= Hst1].
    assert (Hup1 : connected st1 = true) by now subst st1.
    rewrite (Delete_connected c path _ st1 Hpath Hup1).
    subst st1; simpl; now rewrite delete_delete_eq.
Qed.

Lemma Delete_idempotent_witness :
  ComponentConfig_Delete
    (InitComponentConfig scenario.manager "rw-core" ConfigTypeLogLevel)
    "default" scenario.empty
  = (Ok tt, scenario.empty).
Proof.
  exact (proj1 (Delete_idempotent
                  (InitComponentConfig scenario.manager "rw-core"
                     ConfigTypeLogLevel)
                  "config/rw-core/loglevel" "default" scenario.empty eq_refl eq_refl)
               eq_refl).
Defined.

(** X4: [Delete] undoes [Save]: deleting an attribute right after saving
    it gives the result and the store that deleting it without the save
    would have given. *)
Theorem Delete_after_Save (c : ComponentConfig) (configKey configValue : string)
    (st st1 : Store) :
  Save c configKey configValue st = (Ok tt, st1) ->
  ComponentConfig_Delete c configKey st1 = ComponentConfig_Delete c configKey st /\
  exists st2, ComponentConfig_Delete c configKey st = (Ok tt, st2).
Proof.
  intros Hsave; apply Save_Ok_inv in Hsave as (path & Hpath & Hup & Hst1).
  assert (Hup1 : connected st1 = true) by now subst st1.
  rewrite (Delete_connected c path _ st1 Hpath Hup1),
          (Delete_connected c path _ st Hpath Hup).
  subst st1; simpl; rewrite delete_insert_eq; split; [reflexivity | now eexists].
Qed.

Lemma Delete_after_Save_witness :
  ComponentConfig_Delete
    (InitComponentConfig scenario.manager "rw-core" ConfigTypeLogLevel)
    "default"
    {| contents := {[ "/service/voltha/config/rw-core/loglevel/default" := "DEBUG" ]};
       connected := true |}
  = ComponentConfig_Delete
      (InitComponentConfig scenario.manager "rw-core" ConfigTypeLogLevel)
      "default" scenario.empty.
Proof.
  exact (proj1 (Delete_after_Save
                  (InitComponentConfig scenario.manager "rw-core"
                     ConfigTypeLogLevel)
                  "default" "DEBUG" scenario.empty _ eq_refl)).
Defined.

(** X5: a handle whose config type is neither of the two declared
    constants is unusable: [Save], [Delete], [RetrieveAll] and the watch,
    whatever its consumer, panic on the index out of range in
    [ConfigType.String] before they reach the store, which stays as it
    was. *)
Theorem unknown_config_type_panics (range : gmap string string -> list (string * string))
    (c : ComponentConfig) (configKey configValue : string)
    (feed : string -> chan kvstore.Event) (reader : consumer) (st : Store) :
  configType c <> ConfigTypeLogLevel ->
  configType c <> ConfigTypeKafka ->
  let p := IndexOutOfRange (configType c) 2 in
  Save c configKey configValue st = (Panic p, st) /\
  ComponentConfig_Delete c configKey st = (Panic p, st) /\
  RetrieveAll range c st = (Panic p, st) /\
  watch c feed reader = Panic p.
Proof.
  intros H0 H1 p.
  assert (Hpath : makeConfigPath c = Panic p).
  { unfold makeConfigPath; now rewrite (ConfigType_String_out_of_range _ H0 H1). }
  repeat split.
  - unfold Save, bind, lift; now rewrite Hpath.
  - unfold ComponentConfig_Delete, bind, lift; now rewrite Hpath.
  - unfold RetrieveAll, bind, lift; now rewrite Hpath.
  - unfold watch, MonitorForConfigChange; now rewrite Hpath.
Qed.

Lemma unknown_config_type_panics_witness :
  Save (InitComponentConfig scenario.manager "rw-core" 2) "default" "DEBUG"
    scenario.empty
  = (Panic (IndexOutOfRange 2 2), scenario.empty).
Proof.
  refine (proj1 (unknown_config_type_panics map_to_list
                   (InitComponentConfig scenario.manager "rw-core" 2)
                   "default" "DEBUG" (fun _ => make kvstore.Event 1) Ranging
                   scenario.empty _ _));
    discriminate.
Defined.

End CrudLaws.

(** ** What [RetrieveAll] reports *)

Section RetrieveAllLaws.

Import config.

Variable range : gmap string string -> list (string * string).
Hypothesis range_perm : forall m, range m ≡ₚ map_to_list m.

(** Whatever the map built by the loop holds was put there by a visited
    pair, or was there before. *)
Lemma collect_sound (f g : string -> string) (a w : string)
    (l : list (string * string)) :
  forall acc : gmap string string,
    foldl (fun res '(attr, val) => <[f attr := g val]> res) acc l !! a = Some w ->
    acc !! a = Some w \/ exists k val, (k, val) ∈ l /\ f k = a /\ g val = w.
Proof.
  induction l as [|[k val] l IH]; intros acc; simpl; [now left |].
  intros H; apply IH in H as [H | (k' & val' & Hin & Hf & Hg)].
  - destruct (decide (f k = a)) as [Heq | Hne].
    + rewrite Heq, lookup_insert_eq in H; injection H as H.
      right; exists k, val; repeat split; [left | exact Heq | exact H].
    + rewrite lookup_insert_ne in H by exact Hne; now left.
  - right; exists k', val'; repeat split; [now right | exact Hf | exact Hg].
Qed.

Lemma stripPrefix_cancel (a x y : string) :
  strings.stripPrefix (a +:+ x) (a +:+ y) = strings.stripPrefix x y.
Proof. induction a as [|c a IH]; simpl; [reflexivity | now rewrite Ascii.eqb_refl]. Qed.

Lemma HasPrefix_cancel (a x y : string) :
  strings.HasPrefix (a +:+ x) (a +:+ y) = strings.HasPrefix x y.
Proof. unfold strings.HasPrefix; now rewrite stripPrefix_cancel. Qed.

(** Two names without a separator, each followed by one: the first is a
    prefix of the second only if the names are the same. *)
Lemma stripPrefix_cons (d c : ascii) (s p : string) :
  strings.stripPrefix (String d s) (String c p)
  = if Ascii.eqb d c then strings.stripPrefix s p else None.
Proof. reflexivity. Qed.

Lemma stripPrefix_names (l1 : string) :
  forall l2 r1 r2 x,
    strings.Contains l1 "/" = false ->
    strings.Contains l2 "/" = false ->
    strings.stripPrefix (l2 +:+ String "/" r2) (l1 +:+ String "/" r1) = Some x ->
    l1 = l2.
Proof.
  induction l1 as [|c l1 IH]; intros [|d l2] r1 r2 x H1 H2;
    cbn [String.append]; try reflexivity; rewrite stripPrefix_cons.
  - rewrite Contains_cons_char in H2; apply orb_false_elim in H2 as [Hd _].
    now rewrite Hd.
  - rewrite Contains_cons_char in H1; apply orb_false_elim in H1 as [Hc _].
    now rewrite Ascii.eqb_sym, Hc.
  - rewrite Contains_cons_char in H1, H2.
    apply orb_false_elim in H1 as [_ H1]; apply orb_false_elim in H2 as [_ H2].
    destruct (Ascii.eqb_spec d c) as [-> |]; [|discriminate].
    intros H; f_equal; exact (IH l2 r1 r2 x H1 H2 H).
Qed.

Lemma TrimLeft_no_quote (s r : string) : strings.TrimLeft s quote <> quote +:+ r.
Proof.
  induction s as [|c s IH]; simpl; [discriminate |].
  destruct (Ascii.eqb_spec c "034") as [-> | Hne]; [exact IH |].
  intros [= Hc _]; contradiction.
Qed.

Lemma TrimRight_unfold (c : ascii) (s cutset : string) :
  strings.TrimRight (String c s) cutset
  = match strings.TrimRight s cutset with
    | "" => if strings.IndexByte cutset c then "" else String c ""
    | r => String c r
    end.
Proof. reflexivity. Qed.

Lemma TrimRight_no_quote (s : string) :
  forall r, strings.TrimRight s quote <> r +:+ quote.
Proof.
  induction s as [|c s IH]; intros r.
  - destruct r; discriminate.
  - rewrite TrimRight_unfold.
    destruct (strings.TrimRight s quote) as [|d t] eqn:Ht.
    + simpl; destruct (Ascii.eqb_spec c "034") as [-> | Hne].
      * destruct r; discriminate.
      * destruct r as [|e r]; simpl.
        -- intros [= Hc]; contradiction.
        -- intros [= _ Hr]; destruct r; discriminate.
    + destruct r as [|e r]; simpl.
      * discriminate.
      * intros [= _ Hr]; exact (IH r Hr).
Qed.

(** [TrimRight] keeps the first byte of what it does not remove. *)
Lemma TrimRight_head (s r : string) :
  strings.TrimRight s quote = quote +:+ r -> exists r', s = quote +:+ r'.
Proof.
  destruct s as [|c s]; [discriminate |].
  rewrite TrimRight_unfold.
  destruct (strings.TrimRight s quote) as [|d t]; simpl.
  - destruct (Ascii.eqb c "034"); [discriminate |].
    intros [= -> _]; now exists s.
  - intros [= -> _]; now exists s.
Qed.

Lemma Trim_no_quote (v : string) :
  (forall r, strings.Trim v quote <> quote +:+ r) /\
  (forall r, strings.Trim v quote <> r +:+ quote).
Proof.
  unfold strings.Trim; split; intros r H.
  - apply TrimRight_head in H as [r' H]; exact (TrimLeft_no_quote v r' H).
  - exact (TrimRight_no_quote _ r H).
Qed.

(** X6: [RetrieveAll] reports every attribute stored under the handle's
    own subtree: a stored key [<prefix>/<path>/<attr>] shows as [attr] with
    its value trimmed of double quotes at both ends, for every visiting
    order of the map, provided [attr] does not itself begin with the
    handle's store path. *)
Theorem RetrieveAll_complete (c : ComponentConfig) (path attr v : string) (st : Store) :
  makeConfigPath c = Ok path ->
  connected st = true ->
  contents st !! (db.PathPrefix (backend (cManager c)) +:+ "/" +:+ path +:+ "/" +:+ attr)
  = Some v ->
  strings.HasPrefix attr (db.makePath (backend (cManager c)) path) = false ->
  exists res : gmap string string,
    RetrieveAll range c st = (Ok res, st) /\
    res !! attr = Some (strings.Trim v quote).
Proof.
  intros Hpath Hup Hstored Hattr.
  rewrite (RetrieveAll_connected range c path st Hpath Hup).
  set (b := backend (cManager c)) in *.
  set (P := db.PathPrefix b +:+ "/" +:+ path +:+ "/").
  assert (HP : db.PathPrefix b +:+ "/" +:+ path +:+ "/" +:+ attr = P +:+ attr).
  { unfold P; now rewrite !append_assoc. }
  assert (HL : P +:+ attr = db.makePath b path +:+ "/" +:+ attr).
  { unfold db.makePath, P; now rewrite !append_assoc. }
  rewrite HP in Hstored.
  eexists; split; [reflexivity |].
  apply (collect_lookup (fun k => strings.TrimPrefix k P)
           (fun val => strings.Trim val quote)).
  - intros k val Hin Hk.
    apply (elem_of_listed range range_perm) in Hin as [Hlook Hpre].
    apply TrimPrefix_inv in Hk as [-> | [-> _]]; congruence.
  - right; exists (P +:+ attr), v; split; [|apply TrimPrefix_app].
    apply (elem_of_listed range range_perm); split; [exact Hstored |].
    rewrite HL; apply HasPrefix_app.
Qed.

(** X7: [RetrieveAll] reports nothing that is not stored: every entry of
    the mapping comes from a key of the store under the handle's listing
    path, the attribute being that key with the handle's prefix stripped
    and the value its value trimmed; with no such key the mapping is
    empty, not an error. *)
Theorem RetrieveAll_sound (c : ComponentConfig) (path : string) (st : Store) :
  makeConfigPath c = Ok path ->
  connected st = true ->
  exists res : gmap string string,
    RetrieveAll range c st = (Ok res, st) /\
    (forall attr w,
       res !! attr = Some w ->
       exists k v,
         contents st !! k = Some v /\
         strings.HasPrefix k (db.makePath (backend (cManager c)) path) = true /\
         strings.TrimPrefix k
           (db.PathPrefix (backend (cManager c)) +:+ "/" +:+ path +:+ "/") = attr /\
         strings.Trim v quote = w) /\
    ((forall k v,
        contents st !! k = Some v ->
        strings.HasPrefix k (db.makePath (backend (cManager c)) path) = false) ->
     res = ∅).
Proof.
  intros Hpath Hup.
  rewrite (RetrieveAll_connected range c path st Hpath Hup).
  eexists; split; [reflexivity |].
  match goal with |- ?A /\ _ => assert (Hsound : A) end.
  { intros attr w Hres.
    apply (collect_sound (fun k => strings.TrimPrefix k _)
             (fun val => strings.Trim val quote)) in Hres
      as [Hres | (k & v & Hin & Hk & Hv)].
    - rewrite lookup_empty in Hres; discriminate.
    - apply (elem_of_listed range range_perm) in Hin as [Hlook Hpre].
      now exists k, v. }
  split; [exact Hsound |].
  intros Hnone; apply map_eq; intros attr; rewrite lookup_empty.
  match goal with |- ?m !! attr = None => destruct (m !! attr) as [w|] eqn:Hw end;
    [|reflexivity].
  apply Hsound in Hw as (k & v & Hlook & Hpre & _).
  rewrite (Hnone k v Hlook) in Hpre; discriminate.
Qed.

(** X8: no value that [RetrieveAll] returns begins or ends with a double
    quote, whatever the store holds. *)
Theorem RetrieveAll_values_unquoted (c : ComponentConfig) (st : Store)
    (res : gmap string string) (attr w : string) :
  RetrieveAll range c st = (Ok res, st) ->
  res !! attr = Some w ->
  (forall r, w <> quote +:+ r) /\ (forall r, w <> r +:+ quote).
Proof.
  intros Hall Hw.
  unfold RetrieveAll, bind, lift, ret in Hall.
  destruct (makeConfigPath c) as [key| |]; try discriminate.
  destruct (db.List (backend (cManager c)) key st) as [[data| |] st'];
    try discriminate.
  injection Hall as <- _.
  apply (collect_sound (fun k => strings.TrimPrefix k _)
           (fun val => strings.Trim val quote)) in Hw
    as [Hw | (k & v & _ & _ & <-)].
  - rewrite lookup_empty in Hw; discriminate.
  - apply Trim_no_quote.
Qed.

(** X9: a stored attribute disappears from the listing once it is
    deleted: after a successful [Delete], [RetrieveAll] on the same handle
    holds nothing at that attribute (the attribute not beginning with the
    handle's store path). *)
Theorem RetrieveAll_after_Delete (c : ComponentConfig) (attr : string) (st st' : Store) :
  ComponentConfig_Delete c attr st = (Ok tt, st') ->
  (forall key, makeConfigPath c = Ok key ->
     strings.HasPrefix attr (db.makePath (backend (cManager c)) key) = false) ->
  exists res : gmap string string,
    RetrieveAll range c st' = (Ok res, st') /\ res !! attr = None.
Proof.
  intros Hdel Hattr.
  destruct (makeConfigPath c) as [path| |] eqn:Hpath;
    [|unfold ComponentConfig_Delete, bind, lift in Hdel; rewrite Hpath in Hdel;
      discriminate ..].
  specialize (Hattr path eq_refl).
  destruct (connected st) eqn:Hup;
    [|unfold ComponentConfig_Delete, bind, lift, db.Delete in Hdel;
      rewrite Hpath, Hup in Hdel; discriminate].
  rewrite (Delete_connected c path attr st Hpath Hup) in Hdel; injection Hdel as Hst'.
  assert (Hup' : connected st' = true) by now subst st'.
  rewrite (RetrieveAll_connected range c path st' Hpath Hup').
  eexists; split; [reflexivity |].
  rewrite (collect_lookup_None (fun k => strings.TrimPrefix k _)
             (fun val => strings.Trim val quote)); [apply lookup_empty |].
  intros k val Hin Hk.
  apply (elem_of_listed range range_perm) in Hin as [Hlook Hpre].
  apply TrimPrefix_inv in Hk as [-> | [-> _]]; [|congruence].
  subst st'; cbn [contents] in Hlook.
  replace ((db.PathPrefix (backend (cManager c)) +:+ "/" +:+ path +:+ "/") +:+ attr)
    with (db.PathPrefix (backend (cManager c)) +:+ "/" +:+ path +:+ "/" +:+ attr)
    in Hlook by now rewrite !append_assoc.
  rewrite lookup_delete_eq in Hlook; discriminate.
Qed.

End RetrieveAllLaws.

Section RetrieveAllLawsExamples.

Import config.

Lemma RetrieveAll_complete_witness :
  exists res : gmap string string,
    RetrieveAll map_to_list
      (InitComponentConfig scenario.manager "X" ConfigTypeLogLevel)
      scenario.layered
    = (Ok res, scenario.layered) /\
    res !! "default" = Some "DEBUG".
Proof.
  apply (RetrieveAll_complete map_to_list (fun m => Permutation_refl (map_to_list m))
           (InitComponentConfig scenario.manager "X" ConfigTypeLogLevel)
           "config/X/loglevel" "default" "DEBUG" scenario.layered eq_refl eq_refl).
  - vm_compute; reflexivity.
  - reflexivity.
Defined.

Lemma RetrieveAll_sound_witness :
  exists res : gmap string string,
    RetrieveAll map_to_list
      (InitComponentConfig scenario.manager "X" ConfigTypeKafka)
      scenario.empty
    = (Ok res, scenario.empty) /\ res = ∅.
Proof.
  destruct (RetrieveAll_sound map_to_list (fun m => Permutation_refl (map_to_list m))
              (InitComponentConfig scenario.manager "X" ConfigTypeKafka)
              "config/X/kafka" scenario.empty eq_refl eq_refl)
    as (res & Hres & _ & Hempty).
  exists res; split; [exact Hres |].
  apply Hempty; intros k v Hlook; simpl in Hlook.
  rewrite lookup_empty in Hlook; discriminate.
Defined.

Lemma RetrieveAll_values_unquoted_witness :
  (forall r, "DEBUG" <> quote +:+ r) /\ (forall r, "DEBUG" <> r +:+ quote).
Proof.
  apply (RetrieveAll_values_unquoted map_to_list
           (InitComponentConfig scenario.manager "X" ConfigTypeLogLevel)
           scenario.layered {[ "default" := "DEBUG" ]} "default" "DEBUG"
           layered_RetrieveAll).
  apply lookup_singleton_eq.
Defined.

Lemma RetrieveAll_after_Delete_witness :
  let st' :=
    {| contents := delete "/service/voltha/config/rw-core/loglevel/default"
                     (contents scenario.mixed);
       connected := true |} in
  ComponentConfig_Delete
    (InitComponentConfig scenario.manager "rw-core" ConfigTypeLogLevel)
    "default" scenario.mixed
  = (Ok tt, st') /\
  exists res : gmap string string,
    RetrieveAll map_to_list
      (InitComponentConfig scenario.manager "rw-core" ConfigTypeLogLevel) st'
    = (Ok res, st') /\ res !! "default" = None.
Proof.
  intros st'.
  assert (Hdel : ComponentConfig_Delete
                   (InitComponentConfig scenario.manager "rw-core" ConfigTypeLogLevel)
                   "default" scenario.mixed
                 = (Ok tt, st')) by reflexivity.
  split; [exact Hdel |].
  apply (RetrieveAll_after_Delete map_to_list (fun m => Permutation_refl (map_to_list m))
           (InitComponentConfig scenario.manager "rw-core" ConfigTypeLogLevel)
           "default" scenario.mixed st' Hdel).
  intros key [= <-]; reflexivity.
Defined.

End RetrieveAllLawsExamples.

(** ** Handles do not see each other's keys *)

Section Isolation.

Import config.

Variable range : gmap string string -> list (string * string).

Lemma RetrieveAll_same_listing (c : ComponentConfig) (path : string) (st st' : Store) :
  makeConfigPath c = Ok path ->
  connected st = true ->
  connected st' = true ->
  filter (fun kv => strings.HasPrefix kv.1 (db.makePath (backend (cManager c)) path) = true)
         (contents st')
  = filter (fun kv => strings.HasPrefix kv.1 (db.makePath (backend (cManager c)) path) = true)
           (contents st) ->
  (RetrieveAll range c st').1 = (RetrieveAll range c st).1.
Proof.
  intros Hpath Hup Hup' Hsame.
  rewrite (RetrieveAll_connected range c path st Hpath Hup),
          (RetrieveAll_connected range c path st' Hpath Hup'); simpl.
  now rewrite Hsame.
Qed.

(** The key of one handle is not under the listing path of another, when
    the component labels hold no separator and the handles differ in
    label or in config type. *)
Lemma foreign_key_not_listed (cm : ConfigManager) (l1 l2 cType1 cType2 attr : string)
    (t1 t2 : ConfigType) :
  (t1 = ConfigTypeLogLevel /\ cType1 = "loglevel") \/
  (t1 = ConfigTypeKafka /\ cType1 = "kafka") ->
  (t2 = ConfigTypeLogLevel /\ cType2 = "loglevel") \/
  (t2 = ConfigTypeKafka /\ cType2 = "kafka") ->
  strings.Contains l1 "/" = false ->
  strings.Contains l2 "/" = false ->
  l1 <> l2 \/ t1 <> t2 ->
  strings.HasPrefix
    (db.PathPrefix (backend cm) +:+ "/" +:+
     (KvStoreConfigPrefix cm +:+ "/" +:+ l2 +:+ "/" +:+ cType2) +:+ "/" +:+ attr)
    (db.makePath (backend cm) (KvStoreConfigPrefix cm +:+ "/" +:+ l1 +:+ "/" +:+ cType1))
  = false.
Proof.
  intros Ht1 Ht2 Hl1 Hl2 Hdiff; unfold db.makePath.
  rewrite !append_assoc.
  rewrite HasPrefix_cancel.
  change ("/" +:+ KvStoreConfigPrefix cm +:+ "/" +:+ l2 +:+ "/" +:+ cType2 +:+ "/" +:+ attr)
    with (("/" +:+ "") +:+ KvStoreConfigPrefix cm +:+ "/" +:+ l2 +:+ "/" +:+ cType2
          +:+ "/" +:+ attr).
  change ("/" +:+ KvStoreConfigPrefix cm +:+ "/" +:+ l1 +:+ "/" +:+ cType1)
    with (("/" +:+ "") +:+ KvStoreConfigPrefix cm +:+ "/" +:+ l1 +:+ "/" +:+ cType1).
  rewrite HasPrefix_cancel, HasPrefix_cancel.
  change ("/" +:+ l2 +:+ "/" +:+ cType2 +:+ "/" +:+ attr)
    with (("/" +:+ "") +:+ l2 +:+ "/" +:+ cType2 +:+ "/" +:+ attr).
  change ("/" +:+ l1 +:+ "/" +:+ cType1) with (("/" +:+ "") +:+ l1 +:+ "/" +:+ cType1).
  rewrite HasPrefix_cancel.
  unfold strings.HasPrefix.
  destruct (strings.stripPrefix (l2 +:+ "/" +:+ cType2 +:+ "/" +:+ attr)
              (l1 +:+ "/" +:+ cType1)) as [x|] eqn:Hx; [exfalso | reflexivity].
  assert (Hl : l1 = l2) by exact (stripPrefix_names l1 l2 _ _ x Hl1 Hl2 Hx).
  subst l2; rewrite stripPrefix_cancel in Hx.
  destruct Hdiff as [Hdiff | Hdiff]; [now apply Hdiff |].
  destruct Ht1 as [[-> ->] | [-> ->]], Ht2 as [[-> ->] | [-> ->]];
    try (now apply Hdiff); discriminate.
Qed.

(** X10: handles are isolated from each other: a [Save] or a [Delete]
    through one handle does not change what [RetrieveAll] returns through
    a handle of the same manager for another component or another config
    type (component labels without a separator). *)
Theorem RetrieveAll_isolated (cm : ConfigManager) (l1 l2 cType1 cType2 attr v : string)
    (t1 t2 : ConfigType) (st st' : Store) :
  (t1 = ConfigTypeLogLevel /\ cType1 = "loglevel") \/
  (t1 = ConfigTypeKafka /\ cType1 = "kafka") ->
  (t2 = ConfigTypeLogLevel /\ cType2 = "loglevel") \/
  (t2 = ConfigTypeKafka /\ cType2 = "kafka") ->
  strings.Contains l1 "/" = false ->
  strings.Contains l2 "/" = false ->
  l1 <> l2 \/ t1 <> t2 ->
  Save (InitComponentConfig cm l2 t2) attr v st = (Ok tt, st') \/
  ComponentConfig_Delete (InitComponentConfig cm l2 t2) attr st = (Ok tt, st') ->
  (RetrieveAll range (InitComponentConfig cm l1 t1) st').1
  = (RetrieveAll range (InitComponentConfig cm l1 t1) st).1.
Proof.
  intros Ht1 Ht2 Hl1 Hl2 Hdiff Hop.
  pose proof (makeConfigPath_known cm l1 cType1 t1 Ht1) as Hp1.
  pose proof (makeConfigPath_known cm l2 cType2 t2 Ht2) as Hp2.
  pose proof (foreign_key_not_listed cm l1 l2 cType1 cType2 attr t1 t2
                Ht1 Ht2 Hl1 Hl2 Hdiff) as Hout.
  destruct (connected st) eqn:Hup.
  2:{ destruct Hop as [Hop | Hop];
        [unfold Save, bind, lift, db.Put in Hop
        |unfold ComponentConfig_Delete, bind, lift, db.Delete in Hop];
        rewrite Hp2, Hup in Hop; discriminate. }
  assert (Hst' : connected st' = true /\
                 filter (fun kv => strings.HasPrefix kv.1
                           (db.makePath (backend cm)
                              (KvStoreConfigPrefix cm +:+ "/" +:+ l1 +:+ "/" +:+ cType1))
                           = true) (contents st')
                 = filter (fun kv => strings.HasPrefix kv.1
                             (db.makePath (backend cm)
                                (KvStoreConfigPrefix cm +:+ "/" +:+ l1 +:+ "/" +:+ cType1))
                             = true) (contents st)).
  { destruct Hop as [Hop | Hop].
    - rewrite (Save_connected _ _ _ _ _ Hp2 Hup) in Hop; injection Hop as <-.
      split; [reflexivity |]; cbn [contents cManager InitComponentConfig].
      apply map_filter_insert_not; intros y Hy.
      cut (true = false); [discriminate |]; rewrite <- Hy; exact Hout.
    - rewrite (Delete_connected _ _ _ _ Hp2 Hup) in Hop; injection Hop as <-.
      split; [reflexivity |]; cbn [contents cManager InitComponentConfig].
      apply map_filter_delete_not; intros y _ Hy.
      cut (true = false); [discriminate |]; rewrite <- Hy; exact Hout. }
  destruct Hst' as [Hup' Hsame].
  exact (RetrieveAll_same_listing _ _ st st' Hp1 Hup Hup' Hsame).
Qed.

End Isolation.

Section IsolationExamples.

Import config.

Lemma RetrieveAll_isolated_witness :
  (RetrieveAll map_to_list
     (InitComponentConfig scenario.manager "rw-core" ConfigTypeLogLevel)
     {| contents := <["/service/voltha/config/rw-core/kafka/topic" := "voltha"]> ∅;
        connected := true |}).1
  = (RetrieveAll map_to_list
       (InitComponentConfig scenario.manager "rw-core" ConfigTypeLogLevel)
       scenario.empty).1.
Proof.
  apply (RetrieveAll_isolated map_to_list scenario.manager
           "rw-core" "rw-core" "loglevel" "kafka" "topic" "voltha"
           ConfigTypeLogLevel ConfigTypeKafka scenario.empty).
  - left; split; reflexivity.
  - right; split; reflexivity.
  - reflexivity.
  - reflexivity.
  - right; discriminate.
  - left; reflexivity.
Defined.

End IsolationExamples.

(** ** Listing across components: the inverse of the key layout *)

Section RetrieveListLaws.

Import config.

Variable range : gmap string string -> list (string * string).
Hypothesis range_perm : forall m, range m ≡ₚ map_to_list m.

Lemma Cut_skip (c : ascii) (s sep : string) :
  strings.stripPrefix (String c s) sep = None ->
  strings.Cut (String c s) sep
  = match strings.Cut s sep with
    | Some (before, after) => Some (String c before, after)
    | None => None
    end.
Proof. intros H; rewrite Cut_unfold; now rewrite H. Qed.

(** A separator is found right after a piece that does not hold the
    separator's first byte. *)
Lemma Cut_first (ch : ascii) (sep a b : string) :
  strings.Contains a (String ch "") = false ->
  strings.Cut (a +:+ String ch (sep +:+ b)) (String ch sep) = Some (a, b).
Proof.
  induction a as [|x a IH]; intros Ha; rewrite Cut_unfold; cbn [String.append].
  - now rewrite stripPrefix_cons, Ascii.eqb_refl, stripPrefix_app.
  - rewrite Contains_cons_char in Ha; apply orb_false_elim in Ha as [Hx Ha].
    now rewrite stripPrefix_cons, Hx, (IH Ha).
Qed.

Lemma Cut_key_loglevel (label attr : string) :
  strings.Contains label "/" = false -> label <> "loglevel" ->
  strings.Cut (spec.storedKey "/service/voltha" "config" label "loglevel" attr) "/loglevel/"
  = Some ("/service/voltha/config/" +:+ label, attr).
Proof.
  intros Hl Hne; unfold spec.storedKey; cbn [String.append].
  repeat (rewrite Cut_skip by reflexivity).
  rewrite Cut_skip.
  2:{ rewrite stripPrefix_cons; cbn [Ascii.eqb Bool.eqb].
      destruct (strings.stripPrefix _ _) as [x|] eqn:Hx; [|reflexivity].
      exfalso; apply Hne.
      symmetry; apply (stripPrefix_names "loglevel" label "" _ x eq_refl Hl Hx). }
  pose proof (Cut_first "/" "loglevel/" label attr Hl) as Hc.
  cbn [String.append] in Hc; rewrite Hc.
  reflexivity.
Qed.

Lemma Cut_key_kafka (label attr : string) :
  strings.Contains label "/" = false -> label <> "kafka" ->
  strings.Cut (spec.storedKey "/service/voltha" "config" label "kafka" attr) "/kafka/"
  = Some ("/service/voltha/config/" +:+ label, attr).
Proof.
  intros Hl Hne; unfold spec.storedKey; cbn [String.append].
  repeat (rewrite Cut_skip by reflexivity).
  rewrite Cut_skip.
  2:{ rewrite stripPrefix_cons; cbn [Ascii.eqb Bool.eqb].
      destruct (strings.stripPrefix _ _) as [x|] eqn:Hx; [|reflexivity].
      exfalso; apply Hne.
      symmetry; apply (stripPrefix_names "kafka" label "" _ x eq_refl Hl Hx). }
  pose proof (Cut_first "/" "kafka/" label attr Hl) as Hc.
  cbn [String.append] in Hc; rewrite Hc.
  reflexivity.
Qed.

(** One turn of the loop recovers component and attribute from a key of
    the layout. *)
Lemma listEntry_stored_key (label attr val cType : string) :
  cType = "loglevel" \/ cType = "kafka" ->
  strings.Contains label "/" = false ->
  label <> cType ->
  listEntry ("/" +:+ cType +:+ "/") "/config/"
    (spec.storedKey "/service/voltha" "config" label cType attr) val
  = Ok {| ComponentName := label; PackageName := attr;
          Level := strings.Trim val quote |}.
Proof.
  intros [-> | ->] Hl Hne; unfold listEntry; cbv zeta;
    change (strings.SplitN ?s ?sep 2) with
      (match strings.Cut s sep with
       | Some (before, after) => [before; after]
       | None => [s]
       end);
    change (strings.SplitAfterN ?s ?sep 2) with
      (match strings.Cut s sep with
       | Some (before, after) => [before +:+ sep; after]
       | None => [s]
       end).
  - change ("/" +:+ "loglevel" +:+ "/") with "/loglevel/".
    rewrite (Cut_key_loglevel label attr Hl Hne); reflexivity.
  - change ("/" +:+ "kafka" +:+ "/") with "/kafka/".
    rewrite (Cut_key_kafka label attr Hl Hne); reflexivity.
Qed.

(** When every turn succeeds the loop returns one row per visited key, in
    the visiting order. *)
Lemma listEntries_ok (ccPathPrefix pathPrefix : string) (data : list (string * string)) :
  forall rows0,
    (forall k v, (k, v) ∈ data -> exists row, listEntry ccPathPrefix pathPrefix k v = Ok row) ->
    exists rows,
      listEntries ccPathPrefix pathPrefix data rows0 = Ok (rows0 ++ rows)%list /\
      Forall2 (fun kv row => listEntry ccPathPrefix pathPrefix kv.1 kv.2 = Ok row) data rows.
Proof.
  induction data as [|[k v] data IH]; intros rows0 Hall; simpl.
  - exists []; split; [now rewrite app_nil_r | constructor].
  - destruct (Hall k v) as [row Hrow]; [left |].
    rewrite Hrow; simpl.
    destruct (IH (rows0 ++ [row])%list) as (rows & Hrows & Hall2).
    { intros k' v' Hin; apply Hall; now right. }
    exists (row :: rows); split.
    + now rewrite Hrows, <- app_assoc.
    + constructor; [exact Hrow | exact Hall2].
Qed.

(** X11: [RetrieveList] inverts the key layout: when every key under the
    shared config prefix has the layout
    [/service/voltha/config/<label>/<configTypeString>/<attr>] of the
    handle's config type, with a label that holds no separator and is not
    the type string itself, the listing succeeds with exactly one row per
    key, and each stored key gives the row of its label, its attribute
    (whatever bytes it holds) and its trimmed value. *)
Theorem RetrieveList_inverts_layout (kvClient : kvstore.Client)
    (kvStoreType kvStoreHost : string) (kvStorePort kvStoreTimeout : Z)
    (componentLabel cType : string) (configType : ConfigType) (st : Store) :
  (configType = ConfigTypeLogLevel /\ cType = "loglevel") \/
  (configType = ConfigTypeKafka /\ cType = "kafka") ->
  connected st = true ->
  (forall k v,
     contents st !! k = Some v ->
     strings.HasPrefix k "/service/voltha/config" = true ->
     exists label attr,
       k = spec.storedKey "/service/voltha" "config" label cType attr /\
       strings.Contains label "/" = false /\ label <> cType) ->
  exists rows : list List,
    RetrieveList range
      (InitComponentConfig
         (NewConfigManager kvClient kvStoreType kvStoreHost kvStorePort kvStoreTimeout)
         componentLabel configType) st
    = (Ok rows, st) /\
    length rows
    = size (filter (fun kv => strings.HasPrefix kv.1 "/service/voltha/config" = true)
                   (contents st)) /\
    forall label attr v,
      strings.Contains label "/" = false ->
      label <> cType ->
      contents st !! spec.storedKey "/service/voltha" "config" label cType attr = Some v ->
      {| ComponentName := label; PackageName := attr; Level := strings.Trim v quote |}
      ∈ rows.
Proof.
  intros Hty Hup Hwf.
  assert (HcType : cType = "loglevel" \/ cType = "kafka")
    by (destruct Hty as [[_ ->] | [_ ->]]; [now left | now right]).
  assert (Hstr : ConfigType_String configType = Ok cType)
    by (destruct Hty as [[-> ->] | [-> ->]]; reflexivity).
  unfold RetrieveList, bind, lift.
  rewrite (List_connected _ _ _ Hup); cbn [cManager InitComponentConfig config.configType].
  rewrite Hstr.
  change (db.makePath _ _) with "/service/voltha/config".
  set (listed := filter (fun kv => strings.HasPrefix kv.1 "/service/voltha/config" = true)
                        (contents st)).
  assert (Hin : forall k v, (k, v) ∈ range listed <->
                  contents st !! k = Some v /\
                  strings.HasPrefix k "/service/voltha/config" = true).
  { intros k v; unfold listed.
    rewrite (range_perm _), elem_of_map_to_list, map_lookup_filter_Some; reflexivity. }
  destruct (listEntries_ok ("/" +:+ cType +:+ "/") "/config/" (range listed) [])
    as (rows & Hrows & Hall).
  { intros k v Hk; apply Hin in Hk as [Hlook Hpre].
    destruct (Hwf k v Hlook Hpre) as (label & attr & -> & Hl & Hne).
    eexists; now apply listEntry_stored_key. }
  exists rows; split; [|split].
  - unfold kvStorePathSeparator; cbn [KvStoreConfigPrefix NewConfigManager].
    change ("/" +:+ defaultkvStoreConfigPath +:+ "/") with "/config/".
    now rewrite Hrows.
  - rewrite <- (Forall2_length _ _ _ Hall), (range_perm listed).
    apply length_map_to_list.
  - intros label attr v Hl Hne Hlook.
    assert (Hk : (spec.storedKey "/service/voltha" "config" label cType attr, v)
                 ∈ range listed).
    { apply Hin; split; [exact Hlook | reflexivity]. }
    apply list_elem_of_lookup in Hk as [i Hi].
    destruct (Forall2_lookup_l _ _ _ _ _ Hall Hi) as (row & Hrow & Hentry).
    cbn [fst snd] in Hentry.
    rewrite (listEntry_stored_key label attr v cType HcType Hl Hne) in Hentry.
    injection Hentry as <-.
    apply list_elem_of_lookup; now exists i.
Qed.

(** X12: a component whose label is the config type string breaks the
    listing for every handle of that type, whatever client its manager
    was built around: its key is split at the label
    instead of at the type segment, the config prefix is then not found,
    and [RetrieveList] panics. *)
Theorem RetrieveList_panics_on_type_named_component
    (kvClient : kvstore.Client) (kvStoreType kvStoreHost : string)
    (kvStorePort kvStoreTimeout : Z) (componentLabel attr value : string)
    (st : Store) :
  connected st = true ->
  contents st !! spec.storedKey "/service/voltha" "config" "loglevel" "loglevel" attr
  = Some value ->
  exists p,
    RetrieveList range
      (InitComponentConfig
         (NewConfigManager kvClient kvStoreType kvStoreHost kvStorePort kvStoreTimeout)
         componentLabel ConfigTypeLogLevel) st
    = (Panic p, st).
Proof.
  intros Hup Hlook.
  set (cm := NewConfigManager kvClient kvStoreType kvStoreHost kvStorePort
               kvStoreTimeout).
  unfold RetrieveList, bind, lift.
  rewrite (List_connected _ _ _ Hup); cbn [cManager InitComponentConfig configType].
  change (ConfigType_String ConfigTypeLogLevel) with (Ok (A := string) "loglevel").
  cbv iota beta.
  destruct (listEntries_panics "/loglevel/" "/config/"
              (range (filter (fun kv => strings.HasPrefix kv.1
                                          (db.makePath (backend cm)
                                             (KvStoreConfigPrefix cm)) = true)
                             (contents st)))
              [] (spec.storedKey "/service/voltha" "config" "loglevel" "loglevel" attr)
              value) as [p Hp].
  - apply (elem_of_listed range range_perm); split; [exact Hlook | reflexivity].
  - exists (IndexOutOfRange 1 1); reflexivity.
  - exists p; exact (f_equal (fun r => (r, st)) Hp).
Qed.

End RetrieveListLaws.

Section RetrieveListLawsExamples.

Import config.

Lemma RetrieveList_inverts_layout_witness :
  exists rows : list List,
    RetrieveList map_to_list
      (InitComponentConfig scenario.manager "list" ConfigTypeLogLevel)
      scenario.layered
    = (Ok rows, scenario.layered) /\
    {| ComponentName := "X"; PackageName := "default"; Level := "DEBUG" |} ∈ rows.
Proof.
  destruct (RetrieveList_inverts_layout map_to_list
              (fun m => Permutation_refl (map_to_list m))
              (kvstore.EtcdClient "127.0.0.1:2379" 1) "etcd" "127.0.0.1" 2379 1
              "list" "loglevel" ConfigTypeLogLevel scenario.layered
              (or_introl (conj eq_refl eq_refl)) eq_refl)
    as (rows & Hrows & _ & Hrow).
  - intros k v Hlook _.
    unfold scenario.layered in Hlook; cbn [contents] in Hlook.
    apply lookup_insert_Some in Hlook as [[<- _] | [_ Hlook]].
    + exists "global", "default"; repeat split; discriminate.
    + apply lookup_singleton_Some in Hlook as [<- _].
      exists "X", "default"; repeat split; discriminate.
  - exists rows; split; [exact Hrows |].
    apply (Hrow "X" "default" "DEBUG"); [reflexivity | discriminate |].
    vm_compute; reflexivity.
Defined.

Lemma RetrieveList_panics_on_type_named_component_witness :
  exists p,
    RetrieveList map_to_list
      (InitComponentConfig scenario.manager "rw-core" ConfigTypeLogLevel)
      {| contents := {[ "/service/voltha/config/loglevel/loglevel/default" := "DEBUG" ]};
         connected := true |}
    = (Panic p,
       {| contents := {[ "/service/voltha/config/loglevel/loglevel/default" := "DEBUG" ]};
          connected := true |}).
Proof.
  apply (RetrieveList_panics_on_type_named_component map_to_list
           (fun m => Permutation_refl (map_to_list m))
           (kvstore.EtcdClient "127.0.0.1:2379" 1) "etcd" "127.0.0.1" 2379 1
           "rw-core" "default" "DEBUG").
  - reflexivity.
  - apply lookup_singleton_eq.
Defined.

End RetrieveListLawsExamples.

(** ** The watch task over time *)

Section WatchLaws.

Import config.

(** X13: the watch ends only from upstream, and a consumer that stops
    receiving stalls it. With a valid handle the task never panics. With
    a consumer that keeps receiving it has exited exactly when the
    inbound channel was closed, and otherwise waits for the next event.
    With a consumer that receives [n] events and no more, the first
    [n + 1] valid events get into the channel, whose buffer holds one;
    when there are more the task stays blocked on the send of the next
    one, whether or not the inbound channel was closed, and drops
    nothing. *)
Theorem watch_ends_with_inbound (c : ComponentConfig)
    (feed : string -> chan kvstore.Event) (key : string) :
  makeConfigPath c = Ok key ->
  let inbound := db.CreateWatchForSubKeys (backend (cManager c)) key feed in
  let ccPathPrefix := db.PathPrefix (backend (cManager c)) +:+ key +:+ "/" in
  let outs := map (translate ccPathPrefix) (List.filter spec.valid (sent inbound)) in
  (exists (t : task) (c' : ComponentConfig),
     watch c feed Ranging = Ok (t, c') /\
     (t = Exited <-> closed inbound = true) /\
     (t = BlockedOnReceive <-> closed inbound = false)) /\
  forall n : nat,
    exists (t : task) (c' : ComponentConfig) (out : chan ConfigChangeEvent),
      watch c feed (Receiving n) = Ok (t, c') /\
      changeEventChan c' = Some out /\
      sent out = take (S n) outs /\
      (t = BlockedOnSend <-> (S n < length outs)%nat) /\
      (t = Exited <-> (length outs <= S n)%nat /\ closed inbound = true) /\
      (t = BlockedOnReceive <-> (length outs <= S n)%nat /\ closed inbound = false).
Proof.
  intros Hkey inbound ccPathPrefix outs; split.
  - rewrite (watch_eq c feed key Hkey); fold inbound.
    eexists _, _; split; [reflexivity |].
    destruct (closed inbound); split; split; intros H; try reflexivity; discriminate.
  - intros n.
    rewrite (watch_receiving_eq c feed key n Hkey).
    fold inbound; fold ccPathPrefix; fold outs.
    eexists _, _, _; split; [reflexivity |]; split; [reflexivity |].
    split; [reflexivity |].
    destruct (length outs <=? S n)%nat eqn:Hfit.
    + apply Nat.leb_le in Hfit.
      destruct (closed inbound); repeat split; try intros [? ?]; try intros ?;
        try reflexivity; try discriminate; try lia; try assumption.
    + apply Nat.leb_gt in Hfit.
      repeat split; try intros [? ?]; try intros ?;
        try reflexivity; try discriminate; try lia.
Qed.

Lemma watch_ends_with_inbound_witness :
  exists (c' : ComponentConfig) (out : chan ConfigChangeEvent),
    watch (InitComponentConfig scenario.manager "rw-core" ConfigTypeLogLevel)
      (fun _ =>
         {| sent := [ {| kvstore.EventType := kvstore.PUT;
                         kvstore.Key := "/service/voltha/config/rw-core/loglevel/a";
                         kvstore.Value := "1" |};
                      {| kvstore.EventType := kvstore.PUT;
                         kvstore.Key := "/service/voltha/config/rw-core/loglevel/a";
                         kvstore.Value := "2" |};
                      {| kvstore.EventType := kvstore.DELETE;
                         kvstore.Key := "/service/voltha/config/rw-core/loglevel/a";
                         kvstore.Value := "" |} ];
            closed := true;
            capacity := 1 |}) (Receiving 1)
    = Ok (BlockedOnSend, c') /\
    changeEventChan c' = Some out /\
    sent out
    = [ {| ChangeType := Put;
           ConfigAttribute := "/service/voltha/config/rw-core/loglevel/a" |};
        {| ChangeType := Put;
           ConfigAttribute := "/service/voltha/config/rw-core/loglevel/a" |} ].
Proof.
  destruct (proj2 (watch_ends_with_inbound
                     (InitComponentConfig scenario.manager "rw-core" ConfigTypeLogLevel)
                     (fun _ =>
                        {| sent := [ {| kvstore.EventType := kvstore.PUT;
                                        kvstore.Key :=
                                          "/service/voltha/config/rw-core/loglevel/a";
                                        kvstore.Value := "1" |};
                                     {| kvstore.EventType := kvstore.PUT;
                                        kvstore.Key :=
                                          "/service/voltha/config/rw-core/loglevel/a";
                                        kvstore.Value := "2" |};
                                     {| kvstore.EventType := kvstore.DELETE;
                                        kvstore.Key :=
                                          "/service/voltha/config/rw-core/loglevel/a";
                                        kvstore.Value := "" |} ];
                           closed := true;
                           capacity := 1 |})
                     "config/rw-core/loglevel" eq_refl) 1%nat)
    as (t & c' & out & Hrun & Hout & Hsent & Hblocked & _).
  exists c', out.
  rewrite <- (proj2 Hblocked (le_n 3)).
  split; [exact Hrun |]; split; [exact Hout | exact Hsent].
Defined.

(** X14: what was delivered stays delivered. With a consumer that keeps
    receiving, the outbound sequence for a stream that goes on is the
    outbound sequence for its beginning followed by the one for the rest;
    and whatever the consumer does, the outbound sequence for the longer
    stream starts with the one for its beginning: later events never
    change, reorder or retract earlier ones. *)
Theorem watch_extends (c : ComponentConfig) (key : string)
    (events1 events2 : list kvstore.Event) (cl : bool) (size : nat) :
  makeConfigPath c = Ok key ->
  let stream events cl : string -> chan kvstore.Event :=
    fun _ => {| sent := events; closed := cl; capacity := size |} in
  (exists (t : task) (out1 out2 : list ConfigChangeEvent),
     observed (watch c (stream events1 false) Ranging)
     = Ok (BlockedOnReceive, Some {| sent := out1; closed := false; capacity := 1 |}) /\
     observed (watch c (stream events2 cl) Ranging)
     = Ok (t, Some {| sent := out2; closed := false; capacity := 1 |}) /\
     observed (watch c (stream (events1 ++ events2)%list cl) Ranging)
     = Ok (t, Some {| sent := (out1 ++ out2)%list; closed := false; capacity := 1 |})) /\
  forall reader : consumer,
    exists (t1 t12 : task) (out1 more : list ConfigChangeEvent),
      observed (watch c (stream events1 false) reader)
      = Ok (t1, Some {| sent := out1; closed := false; capacity := 1 |}) /\
      observed (watch c (stream (events1 ++ events2)%list cl) reader)
      = Ok (t12, Some {| sent := (out1 ++ more)%list; closed := false; capacity := 1 |}).
Proof.
  intros Hkey stream; split.
  - rewrite !(watch_eq c _ key Hkey); simpl.
    eexists _, _, _; split; [reflexivity |]; split; [reflexivity |].
    now rewrite List.filter_app, map_app.
  - intros [|n].
    + rewrite !(watch_eq c _ key Hkey); simpl.
      eexists _, _, _, _; split; [reflexivity |].
      now rewrite List.filter_app, map_app.
    + rewrite !(watch_receiving_eq c _ key n Hkey).
      cbn [observed rbind db.CreateWatchForSubKeys stream sent closed changeEventChan].
      eexists _, _, _, _; split; [reflexivity |].
      now rewrite List.filter_app, map_app, take_app.
Qed.

Lemma watch_extends_witness :
  observed
    (watch (InitComponentConfig scenario.manager "rw-core" ConfigTypeLogLevel)
       (fun _ =>
          {| sent := ([ {| kvstore.EventType := kvstore.PUT;
                           kvstore.Key := "/service/voltha/config/rw-core/loglevel/a";
                           kvstore.Value := "1" |} ]
                      ++ [ {| kvstore.EventType := kvstore.DELETE;
                              kvstore.Key := "/service/voltha/config/rw-core/loglevel/a";
                              kvstore.Value := "" |} ])%list;
             closed := true;
             capacity := 1 |}) Ranging)
  = Ok (Exited,
        Some {| sent := ([ {| ChangeType := Put;
                              ConfigAttribute :=
                                "/service/voltha/config/rw-core/loglevel/a" |} ]
                         ++ [ {| ChangeType := Delete;
                                 ConfigAttribute :=
                                   "/service/voltha/config/rw-core/loglevel/a" |} ])%list;
                closed := false;
                capacity := 1 |}).
Proof.
  destruct (proj1 (watch_extends
                     (InitComponentConfig scenario.manager "rw-core" ConfigTypeLogLevel)
                     "config/rw-core/loglevel"
                     [ {| kvstore.EventType := kvstore.PUT;
                          kvstore.Key := "/service/voltha/config/rw-core/loglevel/a";
                          kvstore.Value := "1" |} ]
                     [ {| kvstore.EventType := kvstore.DELETE;
                          kvstore.Key := "/service/voltha/config/rw-core/loglevel/a";
                          kvstore.Value := "" |} ]
                     true 1 eq_refl))
    as (t & out1 & out2 & Hfirst & Hrest & Hboth).
  vm_compute in Hfirst, Hrest.
  injection Hfirst as <-; injection Hrest as <- <-.
  exact Hboth.
Defined.

(** X15: whatever the consumer does, every event on the outbound channel
    is a Put or a Delete, and its attribute is what is left of the key of
    an inbound event: the task makes up nothing. *)
Theorem watch_outbound_well_formed (c : ComponentConfig)
    (feed : string -> chan kvstore.Event) (key : string) (reader : consumer) :
  makeConfigPath c = Ok key ->
  let inbound := db.CreateWatchForSubKeys (backend (cManager c)) key feed in
  exists (t : task) (c' : ComponentConfig) (out : chan ConfigChangeEvent),
    watch c feed reader = Ok (t, c') /\
    changeEventChan c' = Some out /\
    forall o, o ∈ sent out ->
      (ChangeType o = Put \/ ChangeType o = Delete) /\
      exists e before,
        e ∈ sent inbound /\
        kvstore.Key e = before +:+ ConfigAttribute o.
Proof.
  intros Hkey inbound.
  assert (Hall : forall o,
            o ∈ map (translate (db.PathPrefix (backend (cManager c)) +:+ key +:+ "/"))
                  (List.filter spec.valid (sent inbound)) ->
            (ChangeType o = Put \/ ChangeType o = Delete) /\
            exists e before,
              e ∈ sent inbound /\ kvstore.Key e = before +:+ ConfigAttribute o).
  { intros o Ho.
    apply list_elem_of_In, List.in_map_iff in Ho as (e & <- & He).
    apply List.filter_In in He as [He Hvalid].
    split.
    - destruct (translate_matches
                  (db.PathPrefix (backend (cManager c)) +:+ key +:+ "/") e Hvalid)
        as [[_ H] | [_ H]]; [now left | now right].
    - exists e; simpl.
      unfold strings.TrimPrefix.
      destruct (strings.stripPrefix (kvstore.Key e) _) as [rest|] eqn:Hstrip.
      + eexists; split; [now apply list_elem_of_In |].
        exact (stripPrefix_Some _ _ _ Hstrip).
      + exists ""; split; [now apply list_elem_of_In | reflexivity]. }
  destruct reader as [|n].
  - rewrite (watch_eq c feed key Hkey); fold inbound.
    eexists _, _, _; split; [reflexivity |]; split; [reflexivity |]; simpl.
    exact Hall.
  - rewrite (watch_receiving_eq c feed key n Hkey); fold inbound.
    eexists _, _, _; split; [reflexivity |]; split; [reflexivity |]; simpl sent.
    intros o Ho; apply Hall.
    exact (subseteq_take _ _ _ Ho).
Qed.

Lemma watch_outbound_well_formed_witness :
  let e := {| kvstore.EventType := kvstore.DELETE;
              kvstore.Key := "/service/voltha/config/rw-core/loglevel/default";
              kvstore.Value := "" |} in
  let o := {| ChangeType := Delete;
              ConfigAttribute := "/service/voltha/config/rw-core/loglevel/default" |} in
  (ChangeType o = Put \/ ChangeType o = Delete) /\
  exists e' before, e' ∈ [e] /\ kvstore.Key e' = before +:+ ConfigAttribute o.
Proof.
  intros e o.
  destruct (watch_outbound_well_formed
              (InitComponentConfig scenario.manager "rw-core" ConfigTypeLogLevel)
              (fun _ => {| sent := [e]; closed := true; capacity := 1 |})
              "config/rw-core/loglevel" Ranging eq_refl)
    as (t & c' & out & Hrun & Hout & Hall).
  vm_compute in Hrun.
  injection Hrun as <- <-.
  injection Hout as <-.
  apply (Hall o).
  apply list_elem_of_singleton; reflexivity.
Defined.

End WatchLaws.

(** ** Parsing the command arguments *)

Section ArgumentLaws.

Import config commands.

Lemma index_head {A : Type} (x : A) (l : list A) : index (x :: l) 0 = Ok x.
Proof.
  unfold index; cbn [length].
  destruct (Z.ltb_spec 0 (Z.of_nat (S (length l)))); [reflexivity | lia].
Qed.

Lemma index_second {A : Type} (x y : A) (l : list A) : index (x :: y :: l) 1 = Ok y.
Proof.
  unfold index; cbn [length].
  destruct (Z.ltb_spec 1 (Z.of_nat (S (S (length l))))); [reflexivity | lia].
Qed.

(** What precedes the first occurrence of a byte does not hold it. *)
Lemma Cut_before_char (ch : ascii) (s : string) :
  forall a b,
    strings.Cut s (String ch "") = Some (a, b) ->
    strings.Contains a (String ch "") = false.
Proof.
  induction s as [|c s IH]; intros a b; rewrite Cut_unfold.
  - discriminate.
  - rewrite stripPrefix_cons.
    destruct (Ascii.eqb c ch) eqn:Hc; cbn [strings.stripPrefix].
    + intros [= <- _]; reflexivity.
    + destruct (strings.Cut s (String ch "")) as [[a' b']|] eqn:Hs; [|discriminate].
      intros [= <- <-].
      now rewrite Contains_cons_char, Hc, (IH a' b').
Qed.

Lemma SplitN_SS (s sep : string) (n : nat) :
  strings.SplitN s sep (S (S n))
  = match strings.Cut s sep with
    | Some (before, after) => before :: strings.SplitN after sep (S n)
    | None => [s]
    end.
Proof. reflexivity. Qed.

Lemma SplitN_S_cons (s sep : string) (n : nat) :
  exists h t, strings.SplitN s sep (S n) = h :: t.
Proof.
  destruct n as [|n]; [now exists s, [] |].
  rewrite SplitN_SS; destruct (strings.Cut s sep) as [[a b]|]; eauto.
Qed.

(** Replacing every occurrence of a byte by another one leaves none. *)
Lemma ReplaceAll_removes (a b : ascii) (s : string) :
  a <> b ->
  strings.Contains (strings.ReplaceAll s (String a "") (String b "")) (String a "") = false.
Proof.
  intros Hab; induction s as [|c s IH]; [reflexivity |].
  rewrite ReplaceAll_cons_char, Contains_cons_char, IH, orb_false_r.
  destruct (Ascii.eqb_spec c a) as [-> | Hc].
  - apply Ascii.eqb_neq; congruence.
  - now apply Ascii.eqb_neq.
Qed.

Lemma Split_first_hash (component a b : string) :
  strings.Cut component "#" = Some (a, b) ->
  exists val1 rest, strings.Split component "#" = a :: val1 :: rest.
Proof.
  intros Hcut; unfold strings.Split.
  pose proof (Cut_Some _ _ _ _ Hcut) as Hs.
  assert (Hlen : exists m, String.length component = S m).
  { rewrite Hs, !length_append; simpl; exists (String.length a + String.length b)%nat; lia. }
  destruct Hlen as [m ->].
  rewrite SplitN_SS, Hcut.
  destruct (SplitN_S_cons b "#" m) as (h & t & ->); now exists h, t.
Qed.

(** X16: [processCommandArgs] never fails, whatever the argument: it
    returns a component name and a package name, the package name holds no
    path separator, and a component name taken from before a [#] holds no
    [#]; an argument without [#] is the component itself with the package
    "default". *)
Theorem processCommandArgs_total (component : string) :
  exists cNameConfig : model.LogLevel,
    processCommandArgs component = Ok cNameConfig /\
    strings.Contains (model.PackageName cNameConfig) "/" = false /\
    (strings.Contains component "#" = true ->
     strings.Contains (model.ComponentName cNameConfig) "#" = false) /\
    (strings.Contains component "#" = false ->
     cNameConfig = {| model.ComponentName := component;
                      model.PackageName := "default";
                      model.Level := "" |}).
Proof.
  unfold processCommandArgs.
  destruct (strings.Contains component "#") eqn:Hhash.
  - unfold strings.Contains in Hhash.
    destruct (strings.Cut component "#") as [[a b]|] eqn:Hcut; [|discriminate].
    destruct (Split_first_hash component a b Hcut) as (val1 & rest & ->).
    rewrite index_head, index_second; cbn [rbind].
    eexists; split; [reflexivity |]; cbn [model.PackageName model.ComponentName].
    split; [apply ReplaceAll_removes; discriminate |].
    split; [intros _; exact (Cut_before_char "#" component a b Hcut) | discriminate].
  - eexists; split; [reflexivity |].
    split; [reflexivity |]; split; [discriminate | reflexivity].
Qed.

(** X17: of an argument with more than one [#] only the text between the
    first and the second is the package name; what follows the second [#]
    is dropped. *)
Theorem processCommandArgs_drops_after_second_hash (component pkg rest : string) :
  strings.Contains component "#" = false ->
  strings.Contains pkg "#" = false ->
  processCommandArgs (component +:+ "#" +:+ pkg +:+ "#" +:+ rest)
  = processCommandArgs (component +:+ "#" +:+ pkg) /\
  processCommandArgs (component +:+ "#" +:+ pkg)
  = Ok {| model.ComponentName := component;
          model.PackageName := strings.ReplaceAll pkg "/" "#";
          model.Level := "" |}.
Proof.
  intros Hc Hp; split; [|exact (processCommandArgs_escaped component pkg Hc Hp)].
  rewrite (processCommandArgs_escaped component pkg Hc Hp).
  unfold processCommandArgs, strings.Contains, strings.Split.
  change ("#" +:+ pkg +:+ "#" +:+ rest) with (String "#" ("" +:+ (pkg +:+ "#" +:+ rest))).
  rewrite (Cut_first "#" "" component (pkg +:+ "#" +:+ rest) Hc).
  rewrite length_append; cbn [String.length String.append].
  rewrite length_append; cbn [String.length].
  replace (String.length component + S (String.length pkg + S (String.length rest)))%nat
    with (S (S (String.length component + String.length pkg + String.length rest)))
    by lia.
  rewrite SplitN_SS.
  change (String "#" (pkg +:+ String "#" rest))
    with (String "#" ("" +:+ (pkg +:+ String "#" rest))).
  rewrite (Cut_first "#" "" component (pkg +:+ String "#" rest) Hc).
  rewrite SplitN_SS.
  change (String "#" rest) with (String "#" ("" +:+ rest)).
  rewrite (Cut_first "#" "" pkg rest Hp).
  now rewrite index_head, index_second.
Qed.

Lemma processCommandArgs_drops_after_second_hash_witness :
  processCommandArgs "rw-core#pkgA#pkgB" = processCommandArgs "rw-core#pkgA".
Proof.
  exact (proj1 (processCommandArgs_drops_after_second_hash "rw-core" "pkgA" "pkgB"
                  eq_refl eq_refl)).
Defined.

End ArgumentLaws.

(** ** The set and clear commands *)

Section SetClearLaws.

Import config commands.

Variable NewEtcdClient : string -> Z -> result kvstore.Client.

Variable StringToLogLevel : string -> option Z.

(** The manager that [createConfigManager] builds around a client. *)
Local Abbreviation managerOf client :=
  (NewConfigManager client "etcd" "127.0.0.1" 2379 1).

Lemma processCommandArgs_ok (component : string) :
  exists cNameConfig, processCommandArgs component = Ok cNameConfig.
Proof.
  unfold processCommandArgs, strings.Contains.
  destruct (strings.Cut component "#") as [[a b]|] eqn:Hcut; [|eauto].
  destruct (Split_first_hash component a b Hcut) as (val1 & rest & ->).
  rewrite index_head, index_second; cbn [rbind]; eauto.
Qed.

Lemma processEach_ok (components : list string) :
  exists parsed,
    processEach components = Ok parsed /\
    Forall2 (fun component cNameConfig => processCommandArgs component = Ok cNameConfig)
      components parsed.
Proof.
  induction components as [|component rest (parsed & Hrest & Hall)]; simpl.
  - exists []; split; [reflexivity | constructor].
  - destruct (processCommandArgs_ok component) as [cNameConfig Hc].
    rewrite Hc, Hrest; simpl.
    exists (cNameConfig :: parsed); split; [reflexivity | now constructor].
Qed.

Lemma Save_logLevel (client : kvstore.Client)
    (componentName packageName level : string) (st : Store) :
  connected st = true ->
  Save (InitComponentConfig (managerOf client) componentName ConfigTypeLogLevel)
    packageName level st
  = (Ok tt,
     {| contents :=
          <[spec.storedKey "/service/voltha" "config" componentName "loglevel" packageName
            := level]> (contents st);
        connected := true |}).
Proof.
  intros Hup.
  rewrite (Save_connected
             (InitComponentConfig (managerOf client) componentName ConfigTypeLogLevel)
             ("config" +:+ "/" +:+ componentName +:+ "/" +:+ "loglevel")
             packageName level st eq_refl Hup).
  unfold spec.storedKey; simpl; now rewrite !append_assoc.
Qed.

Lemma Delete_logLevel (client : kvstore.Client)
    (componentName packageName : string) (st : Store) :
  connected st = true ->
  ComponentConfig_Delete
    (InitComponentConfig (managerOf client) componentName ConfigTypeLogLevel)
    packageName st
  = (Ok tt,
     {| contents :=
          delete (spec.storedKey "/service/voltha" "config" componentName "loglevel"
                    packageName) (contents st);
        connected := true |}).
Proof.
  intros Hup.
  rewrite (Delete_connected
             (InitComponentConfig (managerOf client) componentName ConfigTypeLogLevel)
             ("config" +:+ "/" +:+ componentName +:+ "/" +:+ "loglevel")
             packageName st eq_refl Hup).
  unfold spec.storedKey; simpl; now rewrite !append_assoc.
Qed.

Lemma saveEach_connected (client : kvstore.Client) (level : string)
    (parsed : list model.LogLevel) :
  forall (output : list LogLevelOutput) (st : Store),
    connected st = true ->
    saveEach (managerOf client) level parsed output st
    = (Ok (output ++
           map (fun cConfig => {| ComponentName := model.ComponentName cConfig;
                                  Status := "Success"; Error := "" |}) parsed)%list,
       {| contents :=
            foldl (fun m cConfig =>
                     <[spec.storedKey "/service/voltha" "config"
                         (model.ComponentName cConfig) "loglevel"
                         (model.PackageName cConfig) := level]> m)
                  (contents st) parsed;
          connected := true |}).
Proof.
  induction parsed as [|cConfig parsed IH]; intros output st Hup.
  - simpl; unfold ret; rewrite app_nil_r.
    destruct st as [m up]; simpl in *; now subst up.
  - cbn [saveEach].
    rewrite (Save_logLevel client _ _ level st Hup), IH by reflexivity.
    cbn [map foldl contents]; rewrite <- app_assoc; reflexivity.
Qed.

Lemma saveEach_unreachable (client : kvstore.Client) (level : string)
    (parsed : list model.LogLevel) :
  forall (output : list LogLevelOutput) (st : Store),
    connected st = false ->
    saveEach (managerOf client) level parsed output st
    = (Ok (output ++
           map (fun cConfig => {| ComponentName := model.ComponentName cConfig;
                                  Status := "Failure";
                                  Error := "kvstore unavailable" |}) parsed)%list,
       st).
Proof.
  induction parsed as [|cConfig parsed IH]; intros output st Hdown.
  - simpl; unfold ret; now rewrite app_nil_r.
  - cbn [saveEach].
    assert (Hsave : Save (InitComponentConfig (managerOf client)
                            (model.ComponentName cConfig) ConfigTypeLogLevel)
                      (model.PackageName cConfig) level st
                    = (Err db.unavailable, st)).
    { unfold Save, bind, lift, db.Put; simpl; now rewrite Hdown. }
    rewrite Hsave, (IH _ _ Hdown); cbn [map]; rewrite <- app_assoc; reflexivity.
Qed.

(** Every key written by a run over [parsed] holds the level afterwards,
    and no other key changes. *)
Lemma foldl_insert_same (level : string) (key : model.LogLevel -> string)
    (parsed : list model.LogLevel) :
  forall m : gmap string string,
    (forall k,
       (m !! k = Some level \/ exists cConfig, cConfig ∈ parsed /\ key cConfig = k) ->
       foldl (fun m cConfig => <[key cConfig := level]> m) m parsed !! k = Some level) /\
    (forall k,
       (forall cConfig, cConfig ∈ parsed -> key cConfig <> k) ->
       foldl (fun m cConfig => <[key cConfig := level]> m) m parsed !! k = m !! k).
Proof.
  induction parsed as [|cConfig parsed IH]; intros m; simpl.
  - split; [intros k [H | (c & Hc & _)]; [exact H | inversion Hc] | reflexivity].
  - destruct (IH (<[key cConfig := level]> m)) as [Hin Hout]; split.
    + intros k Hk; apply Hin.
      destruct (decide (key cConfig = k)) as [<- | Hne].
      * left; apply lookup_insert_eq.
      * destruct Hk as [Hk | (c & Hc & Hkey)].
        -- left; now rewrite lookup_insert_ne.
        -- apply elem_of_cons in Hc as [-> | Hc]; [contradiction |].
           right; now exists c.
    + intros k Hk; rewrite Hout.
      * apply lookup_insert_ne, Hk; left.
      * intros c Hc; apply Hk; now right.
Qed.

Lemma Execute_runs_saveEach (client : kvstore.Client) (Level : string)
    (Component : list string) (parsed : list model.LogLevel) (st : Store) :
  NewEtcdClient "127.0.0.1:2379" 1 = Ok client ->
  Level = "" \/ is_Some (StringToLogLevel Level) ->
  match Component with
  | [] => parsed = [{| model.ComponentName := defaultComponentName;
                       model.PackageName := defaultPackageName;
                       model.Level := "" |}]
  | _ => processEach Component = Ok parsed
  end ->
  SetLogLevelOpts_Execute NewEtcdClient StringToLogLevel Level Component st
  = saveEach (managerOf client) Level parsed [] st.
Proof.
  intros Hclient Hlevel Hparsed; unfold SetLogLevelOpts_Execute.
  assert (Hcheck : negb (String.eqb Level "")
                   && negb (bool_decide (is_Some (StringToLogLevel Level))) = false).
  { destruct Hlevel as [-> | Hvalid]; [reflexivity |].
    now rewrite (bool_decide_eq_true_2 _ Hvalid), andb_false_r. }
  rewrite Hcheck, (createConfigManager_ok NewEtcdClient client Hclient).
  unfold bind, lift.
  destruct Component as [|component rest]; [now subst parsed |].
  change (bool_decide (length (component :: rest) = 0%nat)) with false.
  cbv iota; now rewrite Hparsed.
Qed.

(** Without a client the command stops after it has parsed its
    arguments. *)
Lemma Execute_without_client (err : error) (Level : string)
    (Component : list string) (st : Store) :
  NewEtcdClient "127.0.0.1:2379" 1 = Err err ->
  Level = "" \/ is_Some (StringToLogLevel Level) ->
  SetLogLevelOpts_Execute NewEtcdClient StringToLogLevel Level Component st
  = (Err (CommandError ("Unable to create configmanager " +:+ error_Error err)), st).
Proof.
  intros Hclient Hlevel; unfold SetLogLevelOpts_Execute.
  assert (Hcheck : negb (String.eqb Level "")
                   && negb (bool_decide (is_Some (StringToLogLevel Level))) = false).
  { destruct Hlevel as [-> | Hvalid]; [reflexivity |].
    now rewrite (bool_decide_eq_true_2 _ Hvalid), andb_false_r. }
  rewrite Hcheck, (createConfigManager_err NewEtcdClient err Hclient).
  unfold bind, lift.
  destruct Component as [|component rest]; [reflexivity |].
  change (bool_decide (length (component :: rest) = 0%nat)) with false.
  cbv iota.
  destruct (processEach_ok (component :: rest)) as (parsed & -> & _).
  reflexivity.
Qed.

(** X18: with its client and a reachable store the set command saves
    the level for every argument, in the order given, and reports one
    success row per argument (for the global default when there is none):
    afterwards every parsed component holds the level under
    [/service/voltha/config/<component>/loglevel/<package>], and no other
    key of the store has changed. *)
Theorem SetLogLevel_saves_each (client : kvstore.Client) (Level : string)
    (Component : list string) (st : Store) :
  NewEtcdClient "127.0.0.1:2379" 1 = Ok client ->
  Level = "" \/ is_Some (StringToLogLevel Level) ->
  connected st = true ->
  exists (parsed : list model.LogLevel) (st' : Store),
    match Component with
    | [] => parsed = [{| model.ComponentName := "global";
                         model.PackageName := "default";
                         model.Level := "" |}]
    | _ => Forall2 (fun component cNameConfig =>
                      processCommandArgs component = Ok cNameConfig) Component parsed
    end /\
    SetLogLevelOpts_Execute NewEtcdClient StringToLogLevel Level Component st
    = (Ok (map (fun cConfig => {| ComponentName := model.ComponentName cConfig;
                                  Status := "Success"; Error := "" |}) parsed),
       st') /\
    (forall cConfig,
       cConfig ∈ parsed ->
       contents st' !! spec.storedKey "/service/voltha" "config"
                         (model.ComponentName cConfig) "loglevel"
                         (model.PackageName cConfig)
       = Some Level) /\
    (forall k,
       (forall cConfig,
          cConfig ∈ parsed ->
          spec.storedKey "/service/voltha" "config" (model.ComponentName cConfig)
            "loglevel" (model.PackageName cConfig) <> k) ->
       contents st' !! k = contents st !! k).
Proof.
  intros Hclient Hlevel Hup.
  assert (Hparsed : exists parsed,
            match Component with
            | [] => parsed = [{| model.ComponentName := "global";
                                 model.PackageName := "default";
                                 model.Level := "" |}]
            | _ => processEach Component = Ok parsed /\
                   Forall2 (fun component cNameConfig =>
                              processCommandArgs component = Ok cNameConfig)
                     Component parsed
            end).
  { destruct Component as [|component rest]; [eauto |].
    destruct (processEach_ok (component :: rest)) as (parsed & H1 & H2); eauto. }
  destruct Hparsed as [parsed Hparsed].
  exists parsed; eexists; split; [|split; [|split]].
  - destruct Component; [exact Hparsed | exact (proj2 Hparsed)].
  - rewrite (Execute_runs_saveEach client Level Component parsed st Hclient Hlevel).
    + exact (saveEach_connected client Level parsed [] st Hup).
    + destruct Component; [exact Hparsed | exact (proj1 Hparsed)].
  - intros cConfig Hin; cbn [contents].
    apply (foldl_insert_same Level
             (fun c => spec.storedKey "/service/voltha" "config" (model.ComponentName c)
                         "loglevel" (model.PackageName c))).
    right; now exists cConfig.
  - intros k Hk; cbn [contents].
    now apply (foldl_insert_same Level
                 (fun c => spec.storedKey "/service/voltha" "config"
                             (model.ComponentName c) "loglevel" (model.PackageName c))).
Qed.

(** X19: when the store cannot be reached the set command still goes
    through every argument: with its client, each one is tried and
    reported as a failure with the backend's message, the command itself
    returns normally, and the store is untouched. When the client itself
    cannot be created the command gives up before it tries any argument,
    with an error that carries the library's message. *)
Theorem SetLogLevel_reports_each_failure (Level : string) (Component : list string)
    (st : Store) :
  Level = "" \/ is_Some (StringToLogLevel Level) ->
  connected st = false ->
  (forall client : kvstore.Client,
     NewEtcdClient "127.0.0.1:2379" 1 = Ok client ->
     exists parsed : list model.LogLevel,
       match Component with
       | [] => parsed = [{| model.ComponentName := "global";
                            model.PackageName := "default";
                            model.Level := "" |}]
       | _ => Forall2 (fun component cNameConfig =>
                         processCommandArgs component = Ok cNameConfig) Component parsed
       end /\
       SetLogLevelOpts_Execute NewEtcdClient StringToLogLevel Level Component st
       = (Ok (map (fun cConfig => {| ComponentName := model.ComponentName cConfig;
                                     Status := "Failure";
                                     Error := "kvstore unavailable" |}) parsed),
          st)) /\
  (forall err : error,
     NewEtcdClient "127.0.0.1:2379" 1 = Err err ->
     SetLogLevelOpts_Execute NewEtcdClient StringToLogLevel Level Component st
     = (Err (CommandError ("Unable to create configmanager " +:+ error_Error err)),
        st)).
Proof.
  intros Hlevel Hdown; split.
  - intros client Hclient.
    destruct Component as [|component rest].
    + eexists; split; [reflexivity |].
      rewrite (Execute_runs_saveEach client Level [] _ st Hclient Hlevel eq_refl).
      exact (saveEach_unreachable client Level _ [] st Hdown).
    + destruct (processEach_ok (component :: rest)) as (parsed & H1 & H2).
      exists parsed; split; [exact H2 |].
      rewrite (Execute_runs_saveEach client Level (component :: rest) parsed st
                 Hclient Hlevel H1).
      exact (saveEach_unreachable client Level parsed [] st Hdown).
  - intros err Hclient.
    exact (Execute_without_client err Level Component st Hclient Hlevel).
Qed.

(** X20: the level is checked before anything else, but only when it is
    not empty: a non-empty level that the logging library does not know is
    refused with the list of allowed values, before a client is asked for
    and without touching the store, whereas the empty level is never
    checked and is saved as it is. *)
Theorem SetLogLevel_level_check (Level : string) (Component : list string) (st : Store) :
  (Level <> "" ->
   StringToLogLevel Level = None ->
   SetLogLevelOpts_Execute NewEtcdClient StringToLogLevel Level Component st
   = (Err (CommandError
             ("Unknown log level " +:+ Level +:+
              ". Allowed values are <INFO>,<DEBUG>,<ERROR>,<WARN>,<FATAL>")), st)) /\
  (forall client : kvstore.Client,
     NewEtcdClient "127.0.0.1:2379" 1 = Ok client ->
     connected st = true ->
     SetLogLevelOpts_Execute NewEtcdClient StringToLogLevel "" [] st
     = (Ok [{| ComponentName := "global"; Status := "Success"; Error := "" |}],
        {| contents := <["/service/voltha/config/global/loglevel/default" := ""]>
                         (contents st);
           connected := true |})).
Proof.
  split.
  - intros Hne Hnone; unfold SetLogLevelOpts_Execute.
    apply String.eqb_neq in Hne; rewrite Hne, Hnone; reflexivity.
  - intros client Hclient Hup.
    rewrite (Execute_runs_saveEach client "" [] _ st Hclient (or_introl eq_refl) eq_refl).
    now rewrite (saveEach_connected client "" _ [] st Hup).
Qed.

(** X21: clear undoes set, each with its client: after the set command
    for one argument, the clear command for the same argument succeeds
    and leaves the store without that key and otherwise as it was before
    the set. *)
Theorem Clear_after_Set (client : kvstore.Client) (Level component : string)
    (st : Store) :
  NewEtcdClient "127.0.0.1:2379" 1 = Ok client ->
  Level = "" \/ is_Some (StringToLogLevel Level) ->
  connected st = true ->
  exists (cNameConfig : model.LogLevel) (st1 : Store),
    processCommandArgs component = Ok cNameConfig /\
    SetLogLevelOpts_Execute NewEtcdClient StringToLogLevel Level [component] st
    = (Ok [{| ComponentName := model.ComponentName cNameConfig;
              Status := "Success"; Error := "" |}], st1) /\
    ClearLogLevelsOpts_Execute NewEtcdClient [component] st1
    = (Ok [{| ComponentName := model.ComponentName cNameConfig;
              Status := "Success"; Error := "" |}],
       {| contents :=
            delete (spec.storedKey "/service/voltha" "config"
                      (model.ComponentName cNameConfig) "loglevel"
                      (model.PackageName cNameConfig)) (contents st);
          connected := true |}).
Proof.
  intros Hclient Hlevel Hup.
  destruct (processCommandArgs_ok component) as [cNameConfig Hc].
  exists cNameConfig; eexists; split; [exact Hc |]; split.
  - rewrite (Execute_runs_saveEach client Level [component] [cNameConfig] st
               Hclient Hlevel)
      by (simpl; now rewrite Hc).
    exact (saveEach_connected client Level [cNameConfig] [] st Hup).
  - unfold ClearLogLevelsOpts_Execute, bind, lift; rewrite Hc.
    rewrite (createConfigManager_ok NewEtcdClient client Hclient).
    rewrite Delete_logLevel by reflexivity.
    cbn [foldl contents]; now rewrite delete_insert_eq.
Qed.

End SetClearLaws.

Section SetClearLawsExamples.

Import config commands.

Lemma SetLogLevel_saves_each_witness :
  let StringToLogLevel := fun l : string => if String.eqb l "DEBUG" then Some 0 else None in
  exists (parsed : list model.LogLevel) (st' : Store),
    SetLogLevelOpts_Execute scenario.dial StringToLogLevel "DEBUG"
      ["rw-core#pkgA/pkgB"; "ofagent"] scenario.empty
    = (Ok (map (fun cConfig => {| ComponentName := model.ComponentName cConfig;
                                  Status := "Success"; Error := "" |}) parsed),
       st') /\
    Forall2 (fun component cNameConfig => processCommandArgs component = Ok cNameConfig)
      ["rw-core#pkgA/pkgB"; "ofagent"] parsed.
Proof.
  intros StringToLogLevel.
  destruct (SetLogLevel_saves_each scenario.dial StringToLogLevel
              (kvstore.EtcdClient "127.0.0.1:2379" 1) "DEBUG"
              ["rw-core#pkgA/pkgB"; "ofagent"] scenario.empty
              eq_refl (or_intror (ex_intro _ 0 eq_refl)) eq_refl)
    as (parsed & st' & Hparsed & Hrun & _).
  now exists parsed, st'.
Defined.

Lemma SetLogLevel_reports_each_failure_witness :
  let StringToLogLevel := fun l : string => if String.eqb l "DEBUG" then Some 0 else None in
  let down := {| contents := ∅; connected := false |} in
  (exists parsed : list model.LogLevel,
     Forall2 (fun component cNameConfig => processCommandArgs component = Ok cNameConfig)
       ["rw-core"; "ofagent#pkgA"] parsed /\
     SetLogLevelOpts_Execute scenario.dial StringToLogLevel "DEBUG"
       ["rw-core"; "ofagent#pkgA"] down
     = (Ok (map (fun cConfig => {| ComponentName := model.ComponentName cConfig;
                                   Status := "Failure";
                                   Error := "kvstore unavailable" |}) parsed),
        down)) /\
  SetLogLevelOpts_Execute scenario.refused StringToLogLevel "DEBUG"
    ["rw-core"; "ofagent#pkgA"] down
  = (Err (CommandError "Unable to create configmanager context deadline exceeded"),
     down).
Proof.
  intros StringToLogLevel down; split.
  - exact (proj1 (SetLogLevel_reports_each_failure scenario.dial StringToLogLevel
                    "DEBUG" ["rw-core"; "ofagent#pkgA"] down
                    (or_intror (ex_intro _ 0 eq_refl)) eq_refl)
             (kvstore.EtcdClient "127.0.0.1:2379" 1) eq_refl).
  - exact (proj2 (SetLogLevel_reports_each_failure scenario.refused StringToLogLevel
                    "DEBUG" ["rw-core"; "ofagent#pkgA"] down
                    (or_intror (ex_intro _ 0 eq_refl)) eq_refl)
             (BackendError "context deadline exceeded") eq_refl).
Defined.

Lemma SetLogLevel_level_check_witness :
  let StringToLogLevel := fun l : string => if String.eqb l "DEBUG" then Some 0 else None in
  SetLogLevelOpts_Execute scenario.dial StringToLogLevel "LOUD" ["rw-core"] scenario.empty
  = (Err (CommandError
            "Unknown log level LOUD. Allowed values are <INFO>,<DEBUG>,<ERROR>,<WARN>,<FATAL>"),
     scenario.empty) /\
  SetLogLevelOpts_Execute scenario.dial StringToLogLevel "" [] scenario.empty
  = (Ok [{| ComponentName := "global"; Status := "Success"; Error := "" |}],
     {| contents := <["/service/voltha/config/global/loglevel/default" := ""]> ∅;
        connected := true |}).
Proof.
  intros StringToLogLevel; split.
  - apply (proj1 (SetLogLevel_level_check scenario.dial StringToLogLevel "LOUD"
                    ["rw-core"] scenario.empty)); [discriminate | reflexivity].
  - apply (proj2 (SetLogLevel_level_check scenario.dial StringToLogLevel "LOUD"
                    ["rw-core"] scenario.empty)
             (kvstore.EtcdClient "127.0.0.1:2379" 1)); reflexivity.
Defined.

Lemma Clear_after_Set_witness :
  let StringToLogLevel := fun l : string => if String.eqb l "DEBUG" then Some 0 else None in
  exists (cNameConfig : model.LogLevel) (st1 : Store),
    processCommandArgs "rw-core#pkgA/pkgB" = Ok cNameConfig /\
    SetLogLevelOpts_Execute scenario.dial StringToLogLevel "DEBUG"
      ["rw-core#pkgA/pkgB"] scenario.empty
    = (Ok [{| ComponentName := model.ComponentName cNameConfig;
              Status := "Success"; Error := "" |}], st1) /\
    ClearLogLevelsOpts_Execute scenario.dial ["rw-core#pkgA/pkgB"] st1
    = (Ok [{| ComponentName := model.ComponentName cNameConfig;
              Status := "Success"; Error := "" |}],
       {| contents :=
            delete (spec.storedKey "/service/voltha" "config"
                      (model.ComponentName cNameConfig) "loglevel"
                      (model.PackageName cNameConfig)) ∅;
          connected := true |}).
Proof.
  intros StringToLogLevel.
  exact (Clear_after_Set scenario.dial StringToLogLevel
           (kvstore.EtcdClient "127.0.0.1:2379" 1) "DEBUG" "rw-core#pkgA/pkgB"
           scenario.empty eq_refl (or_intror (ex_intro _ 0 eq_refl)) eq_refl).
Defined.

End SetClearLawsExamples.

(** ** The list command *)

Section ListLaws.

Import config commands.

Variable NewEtcdClient : string -> Z -> result kvstore.Client.

Variable range : gmap string string -> list (string * string).
Hypothesis range_perm : forall m, range m ≡ₚ map_to_list m.

Variable StringToLogLevel : string -> option Z.

Variable RetrieveComponentList : ConfigManager -> ConfigType -> M (list string).

Lemma RetrieveAll_lookup_stored (c : ComponentConfig) (path attr v : string) (st : Store) :
  makeConfigPath c = Ok path ->
  connected st = true ->
  contents st !! (db.PathPrefix (backend (cManager c)) +:+ "/" +:+ path +:+ "/" +:+ attr)
  = Some v ->
  strings.HasPrefix attr (db.makePath (backend (cManager c)) path) = false ->
  exists res : gmap string string,
    RetrieveAll range c st = (Ok res, st) /\
    res !! attr = Some (strings.Trim v quote).
Proof.
  intros Hpath Hup Hstored Hattr.
  rewrite (RetrieveAll_connected range c path st Hpath Hup).
  set (b := backend (cManager c)) in *.
  set (P := db.PathPrefix b +:+ "/" +:+ path +:+ "/").
  assert (HP : db.PathPrefix b +:+ "/" +:+ path +:+ "/" +:+ attr = P +:+ attr).
  { unfold P; now rewrite !append_assoc. }
  assert (HL : P +:+ attr = db.makePath b path +:+ "/" +:+ attr).
  { unfold db.makePath, P; now rewrite !append_assoc. }
  rewrite HP in Hstored.
  eexists; split; [reflexivity |].
  apply (collect_lookup (fun k => strings.TrimPrefix k P)
           (fun val => strings.Trim val quote)).
  - intros k val Hin Hk.
    apply (elem_of_listed range range_perm) in Hin as [Hlook Hpre].
    apply TrimPrefix_inv in Hk as [-> | [-> _]]; congruence.
  - right; exists (P +:+ attr), v; split; [|apply TrimPrefix_app].
    apply (elem_of_listed range range_perm); split; [exact Hstored |].
    rewrite HL; apply HasPrefix_app.
Qed.

(** X22: the global level that the list command folds into a component is
    never an unknown level: [listGlobalConfig] returns either the empty
    string or a level that the logging library accepts and that
    [RetrieveAll] found under the default attribute. *)
Theorem listGlobalConfig_valid_or_empty (cConfig : ComponentConfig) (st st' : Store)
    (globalLevel : string) :
  listGlobalConfig range StringToLogLevel cConfig st = (Ok globalLevel, st') ->
  globalLevel = "" \/
  (is_Some (StringToLogLevel globalLevel) /\
   exists res : gmap string string,
     RetrieveAll range cConfig st = (Ok res, st') /\
     res !! "default" = Some globalLevel).
Proof.
  unfold listGlobalConfig, bind, ret.
  destruct (RetrieveAll range cConfig st) as [[res| |] st1]; try discriminate.
  unfold defaultPackageName.
  destruct (res !! "default") as [l|] eqn:Hl; [|intros [= <- _]; now left].
  destruct (StringToLogLevel l) as [z|] eqn:Hz; intros [= <- <-]; [|now left].
  right; split; [now exists z | now exists res].
Qed.

(** The rows that the loop adds are well formed and come from the visited
    entries. *)
Lemma populate_sound (componentName : string) (all : list (string * string))
    (P : model.LogLevel -> Prop) (l : list (string * string)) :
  P = (fun row : model.LogLevel =>
         model.ComponentName row = componentName /\
         is_Some (StringToLogLevel (model.Level row)) /\
         model.PackageName row <> "" /\
         strings.Contains (model.PackageName row) "#" = false /\
         exists packageName,
           (packageName, model.Level row) ∈ all /\
           model.PackageName row = strings.ReplaceAll packageName "#" "/") ->
  forall data : list model.LogLevel,
    (forall x, x ∈ l -> x ∈ all) ->
    Forall P data ->
    Forall P
      (foldl (fun (data : list model.LogLevel) '(packageName, level) =>
                if negb (bool_decide (is_Some (StringToLogLevel level)))
                   || String.eqb packageName ""
                then data
                else (data ++ [{| model.ComponentName := componentName;
                                  model.PackageName :=
                                    strings.ReplaceAll packageName "#" "/";
                                  model.Level := level |}])%list)
             data l) /\
    (length
       (foldl (fun (data : list model.LogLevel) '(packageName, level) =>
                 if negb (bool_decide (is_Some (StringToLogLevel level)))
                    || String.eqb packageName ""
                 then data
                 else (data ++ [{| model.ComponentName := componentName;
                                   model.PackageName :=
                                     strings.ReplaceAll packageName "#" "/";
                                   model.Level := level |}])%list)
              data l)
     <= length data + length l)%nat.
Proof.
  intros HP; induction l as [|[k v] l IH]; intros data Hsub Hdata.
  - split; [exact Hdata | simpl; lia].
  - cbn [foldl].
    match goal with |- context [foldl _ ?d l] => destruct (IH d) as [Hall Hlen] end.
    + intros x Hx; apply Hsub; now right.
    + destruct (bool_decide (is_Some (StringToLogLevel v))) eqn:Hv; cbn [negb orb];
        [|exact Hdata].
      destruct (String.eqb_spec k "") as [-> | Hk]; [exact Hdata |].
      apply Forall_app; split; [exact Hdata |].
      constructor; [|constructor]; rewrite HP;
        cbn [model.ComponentName model.Level model.PackageName].
      split; [reflexivity |].
      split; [now apply bool_decide_eq_true_1 in Hv |].
      split; [destruct k; [congruence |]; now rewrite ReplaceAll_cons_char |].
      split; [apply ReplaceAll_removes; discriminate |].
      exists k; split; [apply Hsub; left | reflexivity].
    + split; [exact Hall |].
      etransitivity; [exact Hlen |].
      destruct (negb _ || _); [simpl; lia | rewrite length_app; simpl; lia].
Qed.

(** X23: every row that the list command shows for a component is
    backed by the component's map: it carries the component's name, a
    level the logging library accepts, and a non-empty package name
    without [#] that is the decoded name of an entry of the map with that
    level; entries with an unknown level or an empty name are left out,
    so there are at most as many rows as entries. *)
Theorem populate_rows_well_formed (componentName : string) (cfg : gmap string string) :
  Forall (fun row : model.LogLevel =>
            model.ComponentName row = componentName /\
            is_Some (StringToLogLevel (model.Level row)) /\
            model.PackageName row <> "" /\
            strings.Contains (model.PackageName row) "#" = false /\
            exists packageName,
              cfg !! packageName = Some (model.Level row) /\
              model.PackageName row = strings.ReplaceAll packageName "#" "/")
         (populate range StringToLogLevel componentName cfg []) /\
  (length (populate range StringToLogLevel componentName cfg []) <= size cfg)%nat.
Proof.
  destruct (populate_sound componentName (range cfg) _ (range cfg) eq_refl []
              (fun x Hx => Hx) (Forall_nil_2 _))
    as [Hall Hlen].
  split.
  - eapply Forall_impl; [exact Hall |].
    intros row (H1 & H2 & H3 & H4 & p & Hp & H5); repeat split; try assumption.
    exists p; split; [|exact H5].
    rewrite (range_perm cfg) in Hp; now apply elem_of_map_to_list in Hp.
  - unfold populate; etransitivity; [exact Hlen |].
    rewrite (range_perm cfg), length_map_to_list; simpl; lia.
Qed.

Lemma processEach_one (component : string) (cNameConfig : model.LogLevel) :
  processCommandArgs component = Ok cNameConfig ->
  processEach [component] = Ok [cNameConfig].
Proof. intros H; cbn [processEach]; now rewrite H. Qed.

Lemma HasPrefix_no_separator (s p : string) :
  strings.Contains s "/" = false -> strings.HasPrefix s (String "/" p) = false.
Proof.
  destruct s as [|c s]; [reflexivity |].
  rewrite Contains_cons_char; intros H; apply orb_false_elim in H as [Hc _].
  unfold strings.HasPrefix; now rewrite stripPrefix_cons, Hc.
Qed.

(** X24: what the set command wrote, the list command shows, each with
    its client: after [set <level> <component>#<package>] on a reachable
    store, listing the component returns a row for it under the package
    name as it was given (the [#] escape undone), with the level that was
    set; only for the package "default" may the row carry a valid global
    default level instead. The level is one the logging library accepts
    and has no double quote at either end. *)
Theorem List_after_Set (client : kvstore.Client) (component pkg level : string)
    (st : Store) :
  NewEtcdClient "127.0.0.1:2379" 1 = Ok client ->
  strings.Contains component "#" = false ->
  strings.Contains pkg "#" = false ->
  pkg <> "" ->
  is_Some (StringToLogLevel level) ->
  (forall r, level <> quote +:+ r) ->
  (forall r, level <> r +:+ quote) ->
  connected st = true ->
  exists (st1 : Store) (rows : list model.LogLevel) (lvl : string),
    SetLogLevelOpts_Execute NewEtcdClient StringToLogLevel level
      [component +:+ "#" +:+ pkg] st
    = (Ok [{| ComponentName := component; Status := "Success"; Error := "" |}], st1) /\
    ListLogLevelsOpts_Execute NewEtcdClient range StringToLogLevel RetrieveComponentList
      [component] st1
    = (Ok rows, st1) /\
    {| model.ComponentName := component; model.PackageName := pkg; model.Level := lvl |}
    ∈ rows /\
    (lvl = level \/ (pkg = "default" /\ is_Some (StringToLogLevel lvl))).
Proof.
  intros Hclient Hc Hp Hne Hvalid Hlead Htrail Hup.
  set (stored := strings.ReplaceAll pkg "/" "#").
  pose proof (processCommandArgs_escaped component pkg Hc Hp) as Hargs; fold stored in Hargs.
  pose proof (ReplaceAll_decode_encode pkg Hp) as Hback; fold stored in Hback.
  assert (Hslash : strings.Contains stored "/" = false)
    by (apply ReplaceAll_removes; discriminate).
  set (st1 := {| contents :=
                   <[spec.storedKey "/service/voltha" "config" component "loglevel" stored
                     := level]> (contents st);
                 connected := true |}).
  assert (Hset : SetLogLevelOpts_Execute NewEtcdClient StringToLogLevel level
                   [component +:+ "#" +:+ pkg] st
                 = (Ok [{| ComponentName := component; Status := "Success";
                           Error := "" |}], st1)).
  { rewrite (Execute_runs_saveEach NewEtcdClient StringToLogLevel client level
               [component +:+ "#" +:+ pkg]
               [{| model.ComponentName := component; model.PackageName := stored;
                   model.Level := "" |}] st Hclient (or_intror Hvalid))
      by exact (processEach_one _ _ Hargs).
    exact (saveEach_connected client level _ [] st Hup). }
  set (cm := NewConfigManager client "etcd" "127.0.0.1" 2379 1).
  set (cName := InitComponentConfig cm component ConfigTypeLogLevel).
  destruct (RetrieveAll_lookup_stored cName ("config" +:+ "/" +:+ component +:+ "/" +:+
                                             "loglevel") stored level st1 eq_refl eq_refl)
    as (res & Hres & Hlook).
  { unfold st1, spec.storedKey; cbn [contents cManager cName InitComponentConfig
                                      backend cm NewConfigManager
                                      db.PathPrefix kvStoreDataPathPrefix].
    rewrite !append_assoc; apply lookup_insert_eq. }
  { now apply HasPrefix_no_separator. }
  rewrite (Trim_quote level Hlead Htrail) in Hlook.
  set (globalConfig := InitComponentConfig cm defaultComponentName
                         ConfigTypeLogLevel).
  assert (Hglobal : exists g,
            listGlobalConfig range StringToLogLevel globalConfig st1 = (Ok g, st1) /\
            (g = "" \/ is_Some (StringToLogLevel g))).
  { unfold listGlobalConfig, bind, ret.
    rewrite (RetrieveAll_connected range globalConfig "config/global/loglevel" st1
               eq_refl eq_refl).
    match goal with |- context [?m !! defaultPackageName] =>
      destruct (m !! defaultPackageName) as [l|] end; [|eexists; split; eauto].
    destruct (StringToLogLevel l) as [z|] eqn:Hz; eexists; split; eauto. }
  destruct Hglobal as (g & Hglobal & Hg).
  set (cfg := if negb (String.eqb g "")
              then <[defaultPackageName := g]> res else res).
  assert (Hcfg : listComponentNameConfig range cName g st1 = (Ok cfg, st1)).
  { unfold listComponentNameConfig, bind, ret; now rewrite Hres. }
  assert (Hlvl : exists lvl,
            cfg !! stored = Some lvl /\ is_Some (StringToLogLevel lvl) /\
            (lvl = level \/ (pkg = "default" /\ is_Some (StringToLogLevel lvl)))).
  { unfold cfg; destruct (String.eqb_spec g "") as [-> | Hgne]; cbn [negb].
    - exists level; auto.
    - destruct (decide (stored = defaultPackageName)) as [Hdef | Hdef].
      + assert (Hgv : is_Some (StringToLogLevel g)) by (destruct Hg; [contradiction | auto]).
        exists g; rewrite Hdef, lookup_insert_eq; split; [reflexivity |]; split; [exact Hgv |].
        right; split; [|exact Hgv].
        rewrite <- Hback, Hdef; reflexivity.
      + exists level; rewrite lookup_insert_ne by congruence; auto. }
  destruct Hlvl as (lvl & Hlvl & Hlvalid & Hwhich).
  exists st1, (populate range StringToLogLevel component cfg []), lvl.
  split; [exact Hset |]; split; [|split; [|exact Hwhich]].
  - unfold ListLogLevelsOpts_Execute.
    rewrite (createConfigManager_ok NewEtcdClient client Hclient).
    fold cm; cbv zeta; cbv iota beta.
    fold globalConfig; rewrite Hglobal.
    cbn [listEach]; fold cName; rewrite Hcfg; reflexivity.
  - rewrite <- Hback at 1.
    apply (populate_rows StringToLogLevel component (range cfg) []).
    + rewrite (range_perm cfg); now apply elem_of_map_to_list.
    + exact Hlvalid.
    + unfold stored; now apply ReplaceAll_nonempty.
Qed.

End ListLaws.

Section ListLawsExamples.

Import config commands.

Lemma listGlobalConfig_valid_or_empty_witness :
  let StringToLogLevel := fun l : string => if String.eqb l "INFO" then Some 1 else None in
  "INFO" = "" \/
  (is_Some (StringToLogLevel "INFO") /\
   exists res : gmap string string,
     RetrieveAll map_to_list
       (InitComponentConfig scenario.manager "global" ConfigTypeLogLevel)
       scenario.layered
     = (Ok res, scenario.layered) /\
     res !! "default" = Some "INFO").
Proof.
  intros StringToLogLevel.
  apply (listGlobalConfig_valid_or_empty map_to_list StringToLogLevel
           (InitComponentConfig scenario.manager "global" ConfigTypeLogLevel)
           scenario.layered scenario.layered "INFO").
  vm_compute; reflexivity.
Defined.

Lemma populate_rows_well_formed_witness :
  let StringToLogLevel := fun l : string => if String.eqb l "DEBUG" then Some 0 else None in
  (length (populate map_to_list StringToLogLevel "rw-core"
             {[ "pkgA#pkgB" := "DEBUG"; "default" := "LOUD" ]} [])
   <= size ({[ "pkgA#pkgB" := "DEBUG"; "default" := "LOUD" ]} : gmap string string))%nat.
Proof.
  intros StringToLogLevel.
  exact (proj2 (populate_rows_well_formed map_to_list
                  (fun m => Permutation_refl (map_to_list m)) StringToLogLevel "rw-core"
                  {[ "pkgA#pkgB" := "DEBUG"; "default" := "LOUD" ]})).
Defined.

Lemma List_after_Set_witness :
  let StringToLogLevel := fun l : string => if String.eqb l "DEBUG" then Some 0 else None in
  exists (st1 : Store) (rows : list model.LogLevel) (lvl : string),
    SetLogLevelOpts_Execute scenario.dial StringToLogLevel "DEBUG"
      ["rw-core#pkgA/pkgB"] scenario.empty
    = (Ok [{| ComponentName := "rw-core"; Status := "Success"; Error := "" |}], st1) /\
    ListLogLevelsOpts_Execute scenario.dial map_to_list StringToLogLevel
      (fun _ _ => ret []) ["rw-core"] st1
    = (Ok rows, st1) /\
    {| model.ComponentName := "rw-core"; model.PackageName := "pkgA/pkgB";
       model.Level := lvl |} ∈ rows /\
    (lvl = "DEBUG" \/ ("pkgA/pkgB" = "default" /\ is_Some (StringToLogLevel lvl))).
Proof.
  intros StringToLogLevel.
  apply (List_after_Set scenario.dial map_to_list
           (fun m => Permutation_refl (map_to_list m))
           StringToLogLevel (fun _ _ => ret []) (kvstore.EtcdClient "127.0.0.1:2379" 1)
           "rw-core" "pkgA/pkgB" "DEBUG" scenario.empty).
  - reflexivity.
  - reflexivity.
  - reflexivity.
  - discriminate.
  - now exists 0.
  - discriminate.
  - intros r; do 6 (destruct r as [|? r]; [discriminate |]); discriminate.
  - reflexivity.
Defined.

End ListLawsExamples.

(** ** The earlier controller-based commands *)

Section ControllerLaws.

Import config commands.

Variable NewEtcdClient : string -> Z -> result kvstore.Client.

Variable range : gmap string string -> list (string * string).

Variable StringToLogLevel : string -> option Z.

(** The manager that [setKVClient] builds around a client. *)
Local Abbreviation managerOf client :=
  (NewConfigManager client "etcd" "127.0.0.1" 2379 5).

Lemma processEachInto_ok (components : list string) :
  forall componentConfig : gmap string string,
    exists m, controller.processEachInto components componentConfig = Ok m.
Proof.
  induction components as [|componentKey rest IH]; intros componentConfig;
    cbn [controller.processEachInto]; [eauto |].
  unfold strings.Contains.
  destruct (strings.Cut componentKey "#") as [[a b]|] eqn:Hcut; [|apply IH].
  destruct (Split_first_hash componentKey a b Hcut) as (val1 & more & ->).
  rewrite index_head, index_second; cbn [rbind]; apply IH.
Qed.

Lemma processEachInto_app (first second : list string) :
  forall componentConfig : gmap string string,
    controller.processEachInto (first ++ second) componentConfig
    = rbind (controller.processEachInto first componentConfig)
            (controller.processEachInto second).
Proof.
  induction first as [|componentKey rest IH]; intros componentConfig;
    [reflexivity |].
  cbn [app controller.processEachInto].
  destruct (strings.Contains componentKey "#"); [|apply IH].
  destruct (index (strings.Split componentKey "#") 0) as [componentName| |];
    cbn [rbind]; try reflexivity.
  destruct (index (strings.Split componentKey "#") 1) as [val1| |];
    cbn [rbind]; try reflexivity.
  apply IH.
Qed.

(** X25: the earlier [processCommandArgs] keeps one package per
    component: it never fails, and the last argument that names a
    component decides its package, whatever earlier arguments said; a
    last argument without [#] gives the package "default". *)
Theorem controller_processCommandArgs_last_wins (earlier : list string)
    (component pkg : string) :
  strings.Contains component "#" = false ->
  strings.Contains pkg "#" = false ->
  (exists m,
     controller.processCommandArgs (earlier ++ [component +:+ "#" +:+ pkg]) = Ok m /\
     m !! component = Some (strings.ReplaceAll pkg "/" "#")) /\
  (exists m,
     controller.processCommandArgs (earlier ++ [component]) = Ok m /\
     m !! component = Some "default").
Proof.
  intros Hc Hp; unfold controller.processCommandArgs; split;
    rewrite processEachInto_app;
    destruct (processEachInto_ok earlier ∅) as [m0 ->]; cbn [rbind].
  - cbn [controller.processEachInto].
    rewrite (Split_hash_pair component pkg Hc Hp).
    unfold strings.Contains.
    change ("#" +:+ pkg) with (String "#" ("" +:+ pkg)).
    rewrite (Cut_first "#" "" component pkg Hc).
    rewrite index_head, index_second; cbn [rbind].
    eexists; split; [reflexivity | apply lookup_insert_eq].
  - cbn [controller.processEachInto]; rewrite Hc.
    eexists; split; [reflexivity | apply lookup_insert_eq].
Qed.

Lemma createComponentConfig_named (cm : ConfigManager) (cc : componentLogController)
    (componentName : string) :
  componentName <> "list" ->
  createComponentConfig cm cc componentName
  = {| componentNameConfig :=
         Some (InitComponentConfig cm componentName ConfigTypeLogLevel);
       listConfig := listConfig cc;
       globalConfig :=
         Some (InitComponentConfig cm "global" ConfigTypeLogLevel);
       configManager := configManager cc |}.
Proof.
  intros Hne; unfold createComponentConfig.
  apply String.eqb_neq in Hne; now rewrite Hne.
Qed.

Lemma setEach_unreachable (client : kvstore.Client) (level : string)
    (entries : list (string * string)) :
  forall (cc : componentLogController) (output : list LogLevelOutput) (st : Store),
    connected st = false ->
    (forall componentName packageName,
       (componentName, packageName) ∈ entries -> componentName <> "list") ->
    controller.setEach (managerOf client) cc level entries output st
    = (Ok (output ++
           concat (map (fun '(componentName, _) =>
                          [{| ComponentName := componentName; Status := "Failure";
                              Error := "kvstore unavailable" |};
                           {| ComponentName := componentName; Status := "Success";
                              Error := "" |}]) entries))%list,
       st).
Proof.
  induction entries as [|[componentName packageName] entries IH];
    intros cc output st Hdown Hnames.
  - simpl; unfold ret; now rewrite app_nil_r.
  - cbn [controller.setEach]; cbv zeta.
    rewrite (createComponentConfig_named (managerOf client) cc componentName)
      by (apply (Hnames componentName packageName); left).
    assert (Hset : (if String.eqb componentName "global"
                    then controller.setGlobalConfig
                           {| componentNameConfig :=
                                Some (InitComponentConfig (managerOf client)
                                        componentName ConfigTypeLogLevel);
                              listConfig := listConfig cc;
                              globalConfig :=
                                Some (InitComponentConfig (managerOf client) "global"
                                        ConfigTypeLogLevel);
                              configManager := configManager cc |} packageName level
                    else controller.setComponentNameConfig
                           {| componentNameConfig :=
                                Some (InitComponentConfig (managerOf client)
                                        componentName ConfigTypeLogLevel);
                              listConfig := listConfig cc;
                              globalConfig :=
                                Some (InitComponentConfig (managerOf client) "global"
                                        ConfigTypeLogLevel);
                              configManager := configManager cc |} packageName level) st
                   = (Err db.unavailable, st)).
    { destruct (String.eqb componentName "global");
        unfold controller.setGlobalConfig, controller.setComponentNameConfig, deref,
               Save, bind, lift, db.Put; simpl; now rewrite Hdown. }
    rewrite Hset, IH; [|exact Hdown | intros n q Hin; apply (Hnames n q); now right].
    cbn [map concat error_Error db.unavailable]; f_equal; f_equal.
    now rewrite <- !app_assoc.
Qed.

Lemma componentConfigOf_ok (Component : list string) :
  exists componentConfig, controller.componentConfigOf Component = Ok componentConfig.
Proof.
  unfold controller.componentConfigOf, controller.processCommandArgs.
  destruct (bool_decide (length Component = 0%nat)); [eauto | apply processEachInto_ok].
Qed.

(** X26: the earlier set command reports success for a component even
    when saving it failed: with its client and a store that cannot be
    reached, every component of the map (none of them named "list") gets
    a failure row with the backend's message followed by a success row,
    and the store is untouched. When the client itself cannot be created
    the command returns the library's error and tries nothing. *)
Theorem controller_Set_reports_success_after_failure (Level : string)
    (Component : list string) (st : Store) :
  Level = "" \/ is_Some (StringToLogLevel Level) ->
  connected st = false ->
  exists componentConfig : gmap string string,
    controller.componentConfigOf Component = Ok componentConfig /\
    (forall client : kvstore.Client,
       NewEtcdClient "127.0.0.1:2379" 5 = Ok client ->
       (forall componentName packageName,
          (componentName, packageName) ∈ range componentConfig ->
          componentName <> "list") ->
       controller.SetLogLevelOpts_Execute NewEtcdClient range StringToLogLevel
         Level Component st
       = (Ok (concat (map (fun '(componentName, _) =>
                             [{| ComponentName := componentName; Status := "Failure";
                                 Error := "kvstore unavailable" |};
                              {| ComponentName := componentName; Status := "Success";
                                 Error := "" |}]) (range componentConfig))),
          st)) /\
    (forall err : error,
       NewEtcdClient "127.0.0.1:2379" 5 = Err err ->
       controller.SetLogLevelOpts_Execute NewEtcdClient range StringToLogLevel
         Level Component st
       = (Err err, st)).
Proof.
  intros Hlevel Hdown.
  destruct (componentConfigOf_ok Component) as [componentConfig Hcfg].
  assert (Hcheck : negb (String.eqb Level "")
                   && negb (bool_decide (is_Some (StringToLogLevel Level))) = false).
  { destruct Hlevel as [-> | Hvalid]; [reflexivity |].
    now rewrite (bool_decide_eq_true_2 _ Hvalid), andb_false_r. }
  exists componentConfig; split; [exact Hcfg |]; split.
  - intros client Hclient Hnames.
    unfold controller.SetLogLevelOpts_Execute.
    rewrite Hcheck, (setKVClient_ok NewEtcdClient client Hclient).
    unfold bind, lift; rewrite Hcfg; cbv zeta.
    exact (setEach_unreachable client Level (range componentConfig) _ [] st Hdown Hnames).
  - intros err Hclient.
    unfold controller.SetLogLevelOpts_Execute.
    rewrite Hcheck, (setKVClient_err NewEtcdClient err Hclient).
    unfold bind, lift; now rewrite Hcfg.
Qed.

(** The earlier list command refuses exactly two component names and
    nothing else: with two names it fails without reaching the store,
    while with three or more it behaves as with the first name alone. *)
Lemma controller_listLogLevels_guard (a b c : string) (rest : list string) (st : Store) :
  controller.listLogLevels NewEtcdClient range [a; b] st
  = (Err (CommandError "Please don't specify more than one component name"), st) /\
  controller.listLogLevels NewEtcdClient range (a :: b :: c :: rest) st
  = controller.listLogLevels NewEtcdClient range [a] st.
Proof. split; reflexivity. Qed.

End ControllerLaws.

Section ControllerLawsExamples.

Import config commands.

Lemma controller_processCommandArgs_last_wins_witness :
  exists m,
    controller.processCommandArgs (["rw-core#pkgA"] ++ ["rw-core" +:+ "#" +:+ "pkgB/x"])
    = Ok m /\
    m !! "rw-core" = Some (strings.ReplaceAll "pkgB/x" "/" "#").
Proof.
  exact (proj1 (controller_processCommandArgs_last_wins ["rw-core#pkgA"] "rw-core" "pkgB/x"
                  eq_refl eq_refl)).
Defined.

Lemma controller_Set_reports_success_after_failure_witness :
  let StringToLogLevel := fun l : string => if String.eqb l "DEBUG" then Some 0 else None in
  let down := {| contents := ∅; connected := false |} in
  controller.SetLogLevelOpts_Execute scenario.dial map_to_list StringToLogLevel
    "DEBUG" ["rw-core#pkgA"] down
  = (Ok [{| ComponentName := "rw-core"; Status := "Failure";
            Error := "kvstore unavailable" |};
         {| ComponentName := "rw-core"; Status := "Success"; Error := "" |}],
     down) /\
  controller.SetLogLevelOpts_Execute scenario.refused map_to_list StringToLogLevel
    "DEBUG" ["rw-core#pkgA"] down
  = (Err (BackendError "context deadline exceeded"), down).
Proof.
  intros StringToLogLevel down; split.
  - destruct (controller_Set_reports_success_after_failure scenario.dial map_to_list
                StringToLogLevel "DEBUG" ["rw-core#pkgA"] down
                (or_intror (ex_intro _ 0 eq_refl)) eq_refl)
      as (componentConfig & Hcfg & Hrun & _).
    vm_compute in Hcfg; injection Hcfg as <-.
    apply (Hrun (kvstore.EtcdClient "127.0.0.1:2379" 5) eq_refl).
    intros componentName packageName Hin.
    vm_compute in Hin.
    apply list_elem_of_singleton in Hin; injection Hin as -> _; discriminate.
  - destruct (controller_Set_reports_success_after_failure scenario.refused map_to_list
                StringToLogLevel "DEBUG" ["rw-core#pkgA"] down
                (or_intror (ex_intro _ 0 eq_refl)) eq_refl)
      as (componentConfig & _ & _ & Hrun).
    exact (Hrun (BackendError "context deadline exceeded") eq_refl).
Defined.

End ControllerLawsExamples.

Section ControllerRoundTrip.

Import config commands.

Variable NewEtcdClient : string -> Z -> result kvstore.Client.

Variable range : gmap string string -> list (string * string).
Hypothesis range_perm : forall m, range m ≡ₚ map_to_list m.

Variable StringToLogLevel : string -> option Z.

Local Abbreviation managerOf client :=
  (NewConfigManager client "etcd" "127.0.0.1" 2379 5).

Lemma range_singleton (k v : string) : range {[ k := v ]} = [(k, v)].
Proof.
  apply Permutation_singleton_r.
  now rewrite (range_perm {[ k := v ]}), map_to_list_singleton.
Qed.

Lemma controller_Save_connected (client : kvstore.Client)
    (componentName packageName level : string) (st : Store) :
  connected st = true ->
  Save (InitComponentConfig (managerOf client) componentName ConfigTypeLogLevel)
    packageName level st
  = (Ok tt,
     {| contents :=
          <[spec.storedKey "/service/voltha" "config" componentName "loglevel" packageName
            := level]> (contents st);
        connected := true |}).
Proof.
  intros Hup.
  rewrite (Save_connected
             (InitComponentConfig (managerOf client) componentName ConfigTypeLogLevel)
             ("config" +:+ "/" +:+ componentName +:+ "/" +:+ "loglevel")
             packageName level st eq_refl Hup).
  unfold spec.storedKey; simpl; now rewrite !append_assoc.
Qed.

Lemma controller_Delete_connected (client : kvstore.Client)
    (componentName packageName : string) (st : Store) :
  connected st = true ->
  ComponentConfig_Delete
    (InitComponentConfig (managerOf client) componentName ConfigTypeLogLevel)
    packageName st
  = (Ok tt,
     {| contents :=
          delete (spec.storedKey "/service/voltha" "config" componentName "loglevel"
                    packageName) (contents st);
        connected := true |}).
Proof.
  intros Hup.
  rewrite (Delete_connected
             (InitComponentConfig (managerOf client) componentName ConfigTypeLogLevel)
             ("config" +:+ "/" +:+ componentName +:+ "/" +:+ "loglevel")
             packageName st eq_refl Hup).
  unfold spec.storedKey; simpl; now rewrite !append_assoc.
Qed.

(** X27: in the earlier commands too, clear undoes set, each with its
    client: for one argument [<component>#<package>] (the component not
    named "list"), the set command stores the level under the component's
    key with one success row, and the clear command for the same argument
    then removes that key with one success row, leaving the store
    otherwise as before the set. *)
Theorem controller_Clear_after_Set (client : kvstore.Client)
    (Level component pkg : string) (st : Store) :
  NewEtcdClient "127.0.0.1:2379" 5 = Ok client ->
  Level = "" \/ is_Some (StringToLogLevel Level) ->
  strings.Contains component "#" = false ->
  strings.Contains pkg "#" = false ->
  component <> "list" ->
  connected st = true ->
  let key := spec.storedKey "/service/voltha" "config" component "loglevel"
               (strings.ReplaceAll pkg "/" "#") in
  let success := [{| ComponentName := component; Status := "Success"; Error := "" |}] in
  controller.SetLogLevelOpts_Execute NewEtcdClient range StringToLogLevel Level
    [component +:+ "#" +:+ pkg] st
  = (Ok success, {| contents := <[key := Level]> (contents st); connected := true |}) /\
  controller.ClearLogLevelsOpts_Execute NewEtcdClient range [component +:+ "#" +:+ pkg]
    {| contents := <[key := Level]> (contents st); connected := true |}
  = (Ok success, {| contents := delete key (contents st); connected := true |}).
Proof.
  intros Hclient Hlevel Hc Hp Hne Hup key success.
  assert (Hcfg : controller.componentConfigOf [component +:+ "#" +:+ pkg]
                 = Ok {[ component := strings.ReplaceAll pkg "/" "#" ]}).
  { unfold controller.componentConfigOf, controller.processCommandArgs.
    change (bool_decide (length [component +:+ "#" +:+ pkg] = 0%nat)) with false.
    cbv iota; cbn [controller.processEachInto].
    rewrite (Split_hash_pair component pkg Hc Hp).
    unfold strings.Contains.
    change ("#" +:+ pkg) with (String "#" ("" +:+ pkg)).
    rewrite (Cut_first "#" "" component pkg Hc).
    now rewrite index_head, index_second. }
  assert (Hcheck : negb (String.eqb Level "")
                   && negb (bool_decide (is_Some (StringToLogLevel Level))) = false).
  { destruct Hlevel as [-> | Hvalid]; [reflexivity |].
    now rewrite (bool_decide_eq_true_2 _ Hvalid), andb_false_r. }
  split.
  - unfold controller.SetLogLevelOpts_Execute; rewrite Hcheck.
    rewrite (setKVClient_ok NewEtcdClient client Hclient).
    unfold bind, lift; rewrite Hcfg; cbv zeta.
    rewrite range_singleton; cbn [controller.setEach]; cbv zeta.
    rewrite (createComponentConfig_named _ _ component Hne).
    destruct (String.eqb component "global") eqn:Hglobal.
    + apply String.eqb_eq in Hglobal; subst component.
      unfold controller.setGlobalConfig, deref; cbn [globalConfig].
      now rewrite (controller_Save_connected client "global" _ Level st Hup).
    + unfold controller.setComponentNameConfig, deref; cbn [componentNameConfig].
      now rewrite (controller_Save_connected client component _ Level st Hup).
  - unfold controller.ClearLogLevelsOpts_Execute.
    rewrite (setKVClient_ok NewEtcdClient client Hclient).
    unfold bind, lift; rewrite Hcfg; cbv zeta.
    rewrite range_singleton; cbn [controller.clearEach]; cbv zeta.
    rewrite (createComponentConfig_named _ _ component Hne).
    destruct (String.eqb component "global") eqn:Hglobal.
    + apply String.eqb_eq in Hglobal; subst component.
      unfold controller.clearGlobalConfig, deref; cbn [globalConfig].
      rewrite controller_Delete_connected by reflexivity; cbn [contents].
      fold key; now rewrite delete_insert_eq.
    + unfold controller.clearComponentNameConfig, deref; cbn [componentNameConfig].
      rewrite controller_Delete_connected by reflexivity; cbn [contents].
      fold key; now rewrite delete_insert_eq.
Qed.

(** X28: the earlier commands cannot handle a component named "list": the
    controller binds only its list handle for that name, so once they
    have their client the set command and the list command for it call a
    method through a nil handle and panic, whether or not the store can
    be reached and without touching it. *)
Theorem controller_list_named_component_panics (client : kvstore.Client)
    (Level pkg : string) (st : Store) :
  NewEtcdClient "127.0.0.1:2379" 5 = Ok client ->
  Level = "" \/ is_Some (StringToLogLevel Level) ->
  strings.Contains pkg "#" = false ->
  controller.SetLogLevelOpts_Execute NewEtcdClient range StringToLogLevel Level
    ["list" +:+ "#" +:+ pkg] st
  = (Panic NilPointerDereference, st) /\
  controller.SetLogLevelOpts_Execute NewEtcdClient range StringToLogLevel Level
    ["list"] st
  = (Panic NilPointerDereference, st) /\
  controller.listLogLevels NewEtcdClient range ["list"] st
  = (Panic NilPointerDereference, st).
Proof.
  intros Hclient Hlevel Hp.
  assert (Hcheck : negb (String.eqb Level "")
                   && negb (bool_decide (is_Some (StringToLogLevel Level))) = false).
  { destruct Hlevel as [-> | Hvalid]; [reflexivity |].
    now rewrite (bool_decide_eq_true_2 _ Hvalid), andb_false_r. }
  assert (Hcfg : controller.componentConfigOf ["list" +:+ "#" +:+ pkg]
                 = Ok {[ "list" := strings.ReplaceAll pkg "/" "#" ]}).
  { unfold controller.componentConfigOf, controller.processCommandArgs.
    change (bool_decide (length ["list" +:+ "#" +:+ pkg] = 0%nat)) with false.
    cbv iota; cbn [controller.processEachInto].
    rewrite (Split_hash_pair "list" pkg eq_refl Hp).
    unfold strings.Contains.
    change ("list" +:+ "#" +:+ pkg) with ("list" +:+ String "#" ("" +:+ pkg)).
    rewrite (Cut_first "#" "" "list" pkg eq_refl).
    now rewrite index_head, index_second. }
  repeat split.
  - unfold controller.SetLogLevelOpts_Execute; rewrite Hcheck.
    rewrite (setKVClient_ok NewEtcdClient client Hclient).
    unfold bind, lift; rewrite Hcfg; cbv zeta.
    now rewrite range_singleton.
  - unfold controller.SetLogLevelOpts_Execute; rewrite Hcheck.
    rewrite (setKVClient_ok NewEtcdClient client Hclient).
    unfold bind, lift, controller.componentConfigOf, controller.processCommandArgs.
    change (bool_decide (length ["list"] = 0%nat)) with false.
    cbv iota; cbn [controller.processEachInto].
    change (strings.Contains "list" "#") with false; cbv iota zeta.
    change (<["list" := "default"]> (∅ : gmap string string))
      with ({[ "list" := "default" ]} : gmap string string).
    now rewrite range_singleton.
  - unfold controller.listLogLevels.
    change (bool_decide (length ["list"] = 2%nat)) with false; cbv iota.
    now rewrite (setKVClient_ok NewEtcdClient client Hclient).
Qed.

End ControllerRoundTrip.

Section ControllerRoundTripExamples.

Import config commands.

Lemma controller_Clear_after_Set_witness :
  let StringToLogLevel := fun l : string => if String.eqb l "DEBUG" then Some 0 else None in
  controller.ClearLogLevelsOpts_Execute scenario.dial map_to_list
    ["rw-core" +:+ "#" +:+ "pkgA/pkgB"]
    {| contents :=
         <[spec.storedKey "/service/voltha" "config" "rw-core" "loglevel"
             (strings.ReplaceAll "pkgA/pkgB" "/" "#") := "DEBUG"]> ∅;
       connected := true |}
  = (Ok [{| ComponentName := "rw-core"; Status := "Success"; Error := "" |}],
     {| contents :=
          delete (spec.storedKey "/service/voltha" "config" "rw-core" "loglevel"
                    (strings.ReplaceAll "pkgA/pkgB" "/" "#")) ∅;
        connected := true |}).
Proof.
  intros StringToLogLevel.
  refine (proj2 (controller_Clear_after_Set scenario.dial map_to_list
                   (fun m => Permutation_refl (map_to_list m)) StringToLogLevel
                   (kvstore.EtcdClient "127.0.0.1:2379" 5)
                   "DEBUG" "rw-core" "pkgA/pkgB" scenario.empty eq_refl
                   (or_intror (ex_intro _ 0 eq_refl)) eq_refl eq_refl _ eq_refl)).
  discriminate.
Defined.

Lemma controller_list_named_component_panics_witness :
  let StringToLogLevel := fun l : string => if String.eqb l "DEBUG" then Some 0 else None in
  controller.SetLogLevelOpts_Execute scenario.dial map_to_list StringToLogLevel "DEBUG"
    ["list" +:+ "#" +:+ "pkg"] scenario.empty
  = (Panic NilPointerDereference, scenario.empty) /\
  controller.SetLogLevelOpts_Execute scenario.dial map_to_list StringToLogLevel "DEBUG"
    ["list"] scenario.empty
  = (Panic NilPointerDereference, scenario.empty) /\
  controller.listLogLevels scenario.dial map_to_list ["list"] scenario.empty
  = (Panic NilPointerDereference, scenario.empty).
Proof.
  intros StringToLogLevel.
  exact (controller_list_named_component_panics scenario.dial map_to_list
           (fun m => Permutation_refl (map_to_list m)) StringToLogLevel
           (kvstore.EtcdClient "127.0.0.1:2379" 5)
           "DEBUG" "pkg" scenario.empty eq_refl
           (or_intror (ex_intro _ 0 eq_refl)) eq_refl).
Defined.

End ControllerRoundTripExamples.
